(** * annotations2clips: a shallow embedding of the segmentation and
      correlation engine, and the properties of its specification.

    The development follows the Python sources:

    - [annotation_reader.py]  ->  [Module Reader]
    - [utils.py]              ->  [Module Utils]
    - [video_processor.py]    ->  [Module Processor] (with [main.py]),
                                  and [Module Doubles] for the arithmetic
                                  of [create_clips] on Python numbers

    Modelling conventions.

    - A Python [str] is the byte string of its UTF-8 encoding ([string]),
      so [s.encode("utf-8")] is the identity and the byte-wise order used by
      [sorted(..., key=lambda s: s.encode("utf-8"))] is the lexicographic
      order on character codes ([String.leb]).
    - A Python [dict] is an insertion-ordered association list ([PyDict]):
      assigning to a present key keeps its position, assigning to a new key
      appends it.
    - [Module Processor] follows a run of the engine with the times as
      rational numbers ([Q]) and exact arithmetic on them ([floor] is
      [Qfloor]): it is used for what a run does with the chunks it counts,
      the names, the registry, the stats, the manifest and the exceptions.
      The times themselves are Python numbers, [int]s and IEEE 754 doubles:
      [Module Doubles] follows the arithmetic of an interval on them, with
      the rounding of every operation ([SpecFloat], binary64), and the
      windows of an interval are studied there.
    - A path is the list of its parts as [pathlib] gives them; a [str] used
      as a path is split at its slashes ([Utils.parts]), and joining with an
      absolute path drops what precedes it ([Utils.joinpath]).
    - [AnnotationReader] reads an annotation document through the schema
      its producer guarantees: a table of options, an ordered mapping of
      records, each with a coded label [av["1"]] (any JSON value) and a
      time field [z] holding numbers.  Discovery reads any JSON value.
    - Exceptions are explicit ([result]); the state of a run is threaded by
      a state and exception monad ([Processor.M]).  What the run logs and
      what it asks of the file system and of the codec are recorded as
      events; the codec and the creation of directories are taken to
      succeed. *)

From Stdlib Require Import String Ascii List Bool ZArith QArith Qround Lia Lqa.
From Stdlib Require Import DecimalString DecimalNat Permutation.
From Stdlib Require Import Floats.SpecFloat.
Import ListNotations.

Set Warnings "-register-all,-notation-for-abbreviation".

Local Open Scope string_scope.
Local Open Scope list_scope.

(** ** Python dictionaries *)

Module PyDict.

Section Dict.
Context {V : Type}.

Definition t := list (string * V).

Definition empty : t := [].

(** [d.get(k)] and, on a present key, [d[k]] *)
Fixpoint get (k : string) (d : t) : option V :=
  match d with
  | [] => None
  | (k', v) :: d' => if String.eqb k k' then Some v else get k d'
  end.

(** [d[k] = v] *)
Fixpoint set (k : string) (v : V) (d : t) : t :=
  match d with
  | [] => [(k, v)]
  | (k', v') :: d' =>
      if String.eqb k k' then (k', v) :: d' else (k', v') :: set k v d'
  end.

(** [k in d] *)
Definition mem (k : string) (d : t) : bool :=
  match get k d with Some _ => true | None => false end.

(** [list(d)], [d.keys()] *)
Definition keys (d : t) : list string := map fst d.

End Dict.

Arguments t : clear implicits.

End PyDict.

(** ** JSON values, as [json.load] returns them *)

Inductive json : Type :=
| JNull
| JBool (b : bool)
| JNum (q : Q)
| JStr (s : string)
| JArr (l : list json)
| JObj (l : list (string * json)).

(** File system paths, by their parts as [pathlib] gives them: the
    components, after the root ["/"] (or ["//"]) for an absolute path. *)
Definition path := list string.

(** Python exceptions raised by the modelled code. *)
Inductive exn : Type :=
| KeyError (k : string)
| TypeError (msg : string)
| AttributeError (msg : string)
| ValueError (msg : string)
| ZeroDivisionError
| OverflowError (msg : string)
| UnboundLocalError (name : string)
| Exception (msg : string).

Inductive result (A : Type) : Type :=
| Ok (a : A)
| Raise (e : exn).
Arguments Ok {A} a.
Arguments Raise {A} e.

(** ** annotation_reader.py *)

Module Reader.

(** A parsed interval, the tuple [(_t_start, _t_end)]. *)
Definition interval : Type := (Q * Q)%type.

(** One record of [annotation_dict["metadata"]]: [entry["av"]["1"]] and
    [entry["z"]]. *)
Record metadata_record : Type := {
  av_1 : json;
  z : list Q
}.

(** The parts of the annotation file that [extract_annotations] reads:
    [annotation_dict["attribute"]["1"]["options"]] and
    [annotation_dict["metadata"]], in the order of the file. *)
Record annotation_document : Type := {
  attribute_1_options : PyDict.t json;
  metadata : list (string * metadata_record)
}.

Record AnnotationReader : Type := {
  path_to_annotation_file : path;
  action_dict : PyDict.t (list interval)
}.

(** [AnnotationReader.__init__] *)
Definition init (path_to_annotation_file : path) : AnnotationReader :=
  {| path_to_annotation_file := path_to_annotation_file;
     action_dict := PyDict.empty |}.

Section Builtins.

(** [str(v)] of the interpreter for a number, a list or a dict. *)
Variable py_repr : json -> string.

(** [str(v)] *)
Definition py_str (v : json) : string :=
  match v with
  | JStr s => s
  | JNull => "None"
  | JBool true => "True"
  | JBool false => "False"
  | JNum _ | JArr _ | JObj _ => py_repr v
  end.

(** [str(x)] where [x] is the value of [dict.get]: [None] when the key is
    absent. *)
Definition py_str_opt (x : option json) : string :=
  match x with
  | Some v => py_str v
  | None => "None"
  end.

(** [id_to_action_dict.get(code)]: the keys of the table are strings, a
    list or a dict cannot be hashed. *)
Definition id_to_action_get (id_to_action_dict : PyDict.t json) (code : json)
  : result (option json) :=
  match code with
  | JStr k => Ok (PyDict.get k id_to_action_dict)
  | JNull | JBool _ | JNum _ => Ok None
  | JArr _ | JObj _ => Raise (TypeError "unhashable type")
  end.

(** Lines 48-51:
<<
    try:
        _action = str(id_to_action_dict.get(entry["av"]["1"]))
    except Exception:
        _action = str(entry["av"]["1"])
>> *)
Definition action_of (id_to_action_dict : PyDict.t json) (entry : metadata_record)
  : string :=
  match id_to_action_get id_to_action_dict (av_1 entry) with
  | Ok x => py_str_opt x
  | Raise _ => py_str (av_1 entry)
  end.

(** Lines 46-62, the body of the loop over the metadata records; the state
    is [self.action_dict] and [number_of_actions]. *)
Definition record_step (id_to_action_dict : PyDict.t json)
  (st : PyDict.t (list interval) * nat) (entry : metadata_record)
  : PyDict.t (list interval) * nat :=
  let '(d, number_of_actions) := st in
  let _action := action_of id_to_action_dict entry in
  match z entry with
  | [_t_start; _t_end] =>
      (match PyDict.get _action d with
       | Some l => PyDict.set _action (l ++ [(_t_start, _t_end)]) d
       | None => PyDict.set _action [(_t_start, _t_end)] d
       end,
       S number_of_actions)
  | _ => st
  end.

Definition record_loop (id_to_action_dict : PyDict.t json)
  (entries : list metadata_record) (st : PyDict.t (list interval) * nat)
  : PyDict.t (list interval) * nat :=
  fold_left (record_step id_to_action_dict) entries st.

(** [extract_annotations]: the reader after the call, whose [action_dict]
    is the object the method returns, and the [number_of_actions] it logs.
    [annotation_dict] is the content of the file at the time of the call. *)
Definition extract_annotations (self : AnnotationReader)
  (annotation_dict : annotation_document) : AnnotationReader * nat :=
  let id_to_action_dict := attribute_1_options annotation_dict in
  let '(d, number_of_actions) :=
    record_loop id_to_action_dict (map snd (metadata annotation_dict))
      (action_dict self, 0%nat) in
  ({| path_to_annotation_file := path_to_annotation_file self;
      action_dict := d |}, number_of_actions).

(** The intervals the document holds for [label], in the order of its
    records: every record resolved to [label] whose time field has exactly
    two values gives the pair of these values, as they stand. *)
Definition interval_of_record (id_to_action_dict : PyDict.t json)
  (label : string) (entry : metadata_record) : list interval :=
  if String.eqb (action_of id_to_action_dict entry) label then
    match z entry with
    | [_t_start; _t_end] => [(_t_start, _t_end)]
    | _ => []
    end
  else [].

Definition intervals_of (annotation_dict : annotation_document) (label : string)
  : list interval :=
  flat_map (interval_of_record (attribute_1_options annotation_dict) label)
    (map snd (metadata annotation_dict)).

End Builtins.

(** *** Reading a document record by record *)

(** The time field of the record has exactly two values. *)
Definition two_valued (entry : metadata_record) : bool :=
  match z entry with
  | [_; _] => true
  | _ => false
  end.

(** The labels of the records that give an interval, in record order. *)
Definition labels_of (py_repr : json -> string)
  (annotation_dict : annotation_document) : list string :=
  map (action_of py_repr (attribute_1_options annotation_dict))
    (filter two_valued (map snd (metadata annotation_dict))).

(** The elements of a list in the order of their first occurrence. *)
Fixpoint first_seen (l : list string) : list string :=
  match l with
  | [] => []
  | x :: rest => x :: filter (fun y => negb (String.eqb y x)) (first_seen rest)
  end.

(** [y] is none of [ks]. *)
Definition not_among (ks : list string) (y : string) : bool :=
  negb (existsb (String.eqb y) ks).


End Reader.

(** ** utils.py *)

Module Utils.

(** [f"{n:03}"] for a non-negative integer. *)
Definition format_03 (n : nat) : string :=
  let digits := NilEmpty.string_of_uint (Nat.to_uint n) in
  match String.length digits with
  | 0%nat => "000"
  | 1%nat => "00" ++ digits
  | 2%nat => "0" ++ digits
  | _ => digits
  end.

Definition construct_video_filename (uid action : string)
  (action_index chunk_index : nat) : string :=
  uid ++ "_" ++ action ++ "_" ++ format_03 action_index ++ "_"
      ++ format_03 chunk_index ++ ".mp4".

(** The pieces of [s] between its slashes. *)
Fixpoint split_slash (s : string) : list string :=
  match s with
  | EmptyString => [""]
  | String c rest =>
      if Ascii.eqb c "/" then "" :: split_slash rest
      else
        match split_slash rest with
        | piece :: pieces => String c piece :: pieces
        | [] => [String c ""]
        end
  end.

(** The root of the [str] [s] read as a path: ["/"] when it starts with a
    slash, ["//"] when it starts with exactly two. *)
Definition root_of (s : string) : option string :=
  match s with
  | String c1 rest1 =>
      if Ascii.eqb c1 "/" then
        match rest1 with
        | String c2 rest2 =>
            if Ascii.eqb c2 "/" then
              match rest2 with
              | String c3 _ => if Ascii.eqb c3 "/" then Some "/" else Some "//"
              | EmptyString => Some "//"
              end
            else Some "/"
        | EmptyString => Some "/"
        end
      else None
  | EmptyString => None
  end.

(** The component is a root. *)
Definition is_root (c : string) : bool :=
  (String.eqb c "/" || String.eqb c "//")%bool.

(** [p.is_absolute()] *)
Definition rooted (p : path) : bool :=
  match p with
  | c :: _ => is_root c
  | [] => false
  end.

(** [Path(s).parts] for a [str]: the root if there is one, then the pieces
    between the slashes that are neither empty nor ["."]. *)
Definition parts (s : string) : path :=
  match root_of s with
  | Some r => [r]
  | None => []
  end
  ++ filter (fun piece => negb (String.eqb piece "") && negb (String.eqb piece "."))
       (split_slash s).

(** [Path(p, q)]: an absolute [q] replaces [p]. *)
Definition joinpath (p q : path) : path :=
  if rooted q then q else p ++ q.

(** No slash occurs in [s]. *)
Fixpoint slash_free (s : string) : bool :=
  match s with
  | EmptyString => true
  | String c rest => negb (Ascii.eqb c "/") && slash_free rest
  end.

(** [input_file] without the leading components [root]. *)
Fixpoint strip_root (input_file root : path) : result path :=
  match root, input_file with
  | [] , _ => Ok input_file
  | r :: root', c :: input_file' =>
      if String.eqb r c then strip_root input_file' root'
      else Raise (ValueError "not in the subpath")
  | _ :: _, [] => Raise (ValueError "not in the subpath")
  end.

(** [input_file.relative_to(root)]: an absolute path is relative to no
    relative one. *)
Definition relative_to (input_file root : path) : result path :=
  if (rooted input_file && negb (rooted root))%bool
  then Raise (ValueError "one path is relative and the other is absolute")
  else strip_root input_file root.

(** [p.parent] of a relative path *)
Definition parent (p : path) : path := removelast p.

(** [Path(output_folder, relative_video_path.parent, output_file)]: the
    [str] [output_file] is read as a path. *)
Definition construct_preserved_output_path (root input_file output_folder : path)
  (output_file : string) : result path :=
  match relative_to input_file root with
  | Ok relative_video_path =>
      Ok (joinpath (joinpath output_folder (parent relative_video_path))
            (parts output_file))
  | Raise e => Raise e
  end.

(** The number a text of decimal digits denotes, as [int(s)] reads it. *)
Definition parse_index (s : string) : option nat :=
  option_map Nat.of_uint (NilEmpty.uint_of_string s).

(** Every character of [s] is a decimal digit. *)
Fixpoint all_digits (s : string) : bool :=
  match s with
  | EmptyString => true
  | String c rest =>
      (Nat.leb 48 (nat_of_ascii c) && Nat.leb (nat_of_ascii c) 57)%bool
      && all_digits rest
  end.

End Utils.

(** ** video_processor.py *)

Module Processor.

Import Reader.

Record VideoProcessorSettings : Type := {
  data_path : path;
  output_path : path;
  preserve_folder_structure : bool;
  clip_length : Q;
  clip_fps : Z;
  codec : option string
}.

(** An entry [self.videos[uid]]; the key ["clips"] is absent ([None]) until
    [create_clips] reaches the recording. *)
Record video : Type := {
  annotation_path : path;
  video_path : path;
  clips : option (PyDict.t (list string))
}.

(** What the run logs and what it asks of the file system and the codec. *)
Inductive event : Type :=
| Warning_no_folder (item_name : string)
| Info_found (number_of_videos file_count dir_count : nat)
| Info_parsed (total_number_of_actions unique_actions : nat)
| Warning_skipping (action : string) (t_segment : interval) (uid : string)
    (clip_length : Q)
| Mkdir (dir : path)
| Write_videofile (source : path) (t_start t_end : Q) (filename : path)
    (fps : Z) (codec : option string)
| Info_saved (n_chunks : Z) (uid action : string) (dir : path).

(** The processor ([self.videos], [self.annotations]), the events so far,
    and the local variables of [create_clips]; [n_chunks] and
    [loc_output_path] are unbound ([None]) until their first assignment. *)
Record state : Type := mkState {
  videos : PyDict.t video;
  annotations : PyDict.t (PyDict.t (list interval));
  events : list event;
  stats_dict : PyDict.t Z;
  action_tracker_per_video : PyDict.t nat;
  n_chunks : option Z;
  loc_output_path : option path
}.

Definition new_processor : state :=
  mkState [] [] [] [] [] None None.

Definition set_videos (v : PyDict.t video) (s : state) : state :=
  mkState v (annotations s) (events s) (stats_dict s)
    (action_tracker_per_video s) (n_chunks s) (loc_output_path s).

Definition set_annotations (a : PyDict.t (PyDict.t (list interval))) (s : state)
  : state :=
  mkState (videos s) a (events s) (stats_dict s)
    (action_tracker_per_video s) (n_chunks s) (loc_output_path s).

Definition add_event (e : event) (s : state) : state :=
  mkState (videos s) (annotations s) (events s ++ [e]) (stats_dict s)
    (action_tracker_per_video s) (n_chunks s) (loc_output_path s).

Definition set_stats_dict (d : PyDict.t Z) (s : state) : state :=
  mkState (videos s) (annotations s) (events s) d
    (action_tracker_per_video s) (n_chunks s) (loc_output_path s).

Definition set_action_tracker (d : PyDict.t nat) (s : state) : state :=
  mkState (videos s) (annotations s) (events s) (stats_dict s)
    d (n_chunks s) (loc_output_path s).

Definition set_n_chunks (n : option Z) (s : state) : state :=
  mkState (videos s) (annotations s) (events s) (stats_dict s)
    (action_tracker_per_video s) n (loc_output_path s).

Definition set_loc_output_path (p : option path) (s : state) : state :=
  mkState (videos s) (annotations s) (events s) (stats_dict s)
    (action_tracker_per_video s) (n_chunks s) p.

(** *** State and exceptions *)

Definition M (A : Type) : Type := state -> result A * state.

Definition ret {A} (a : A) : M A := fun s => (Ok a, s).

Definition bind {A B} (m : M A) (f : A -> M B) : M B :=
  fun s =>
    match m s with
    | (Ok a, s') => f a s'
    | (Raise e, s') => (Raise e, s')
    end.

Definition raise {A} (e : exn) : M A := fun s => (Raise e, s).

Definition gets {A} (f : state -> A) : M A := fun s => (Ok (f s), s).

Definition modify (f : state -> state) : M unit := fun s => (Ok tt, f s).

Definition lift {A} (r : result A) : M A := fun s => (r, s).

Definition log (e : event) : M unit := modify (add_event e).

Notation "x <- m ;; k" := (bind m (fun x => k))
  (at level 61, m at next level, right associativity).
Notation "m ;;; k" := (bind m (fun _ => k))
  (at level 61, right associativity).

(** [for x in l: body(x)] *)
Fixpoint for_each {A} (l : list A) (body : A -> M unit) : M unit :=
  match l with
  | [] => ret tt
  | x :: l' => body x ;;; for_each l' body
  end.

(** [d[k]] on a dict, raising [KeyError]. *)
Definition getitem {V} (k : string) (d : PyDict.t V) : M V :=
  match PyDict.get k d with
  | Some v => ret v
  | None => raise (KeyError k)
  end.

(** Reading a local variable. *)
Definition read_local {A} (name : string) (v : option A) : M A :=
  match v with
  | Some a => ret a
  | None => raise (UnboundLocalError name)
  end.

(** [sorted(l, key=lambda s: s.encode("utf-8"))] *)
Fixpoint insert_sorted (x : string) (l : list string) : list string :=
  match l with
  | [] => [x]
  | y :: l' => if String.leb x y then x :: l else y :: insert_sorted x l'
  end.

Definition sorted (l : list string) : list string :=
  fold_right insert_sorted [] l.

(** *** The data tree

    [root.rglob("*")]: every file and directory under the root, in the
    order the walk yields them, each with its full path.  A file carries
    the result of [json.load] on it ([None] when it raises). *)

Inductive node : Type :=
| File (content : option json)
| Dir
| Other.

Definition tree := list (path * node).

Definition path_eqb (p q : path) : bool :=
  if list_eq_dec string_dec p q then true else false.

(** [p.is_dir()] *)
Definition is_dir (fs : tree) (p : path) : bool :=
  existsb (fun it => path_eqb p (fst it)
                     && match snd it with Dir => true | _ => false end) fs.

(** [p.is_file()] *)
Definition is_file (fs : tree) (p : path) : bool :=
  existsb (fun it => path_eqb p (fst it)
                     && match snd it with File _ => true | _ => false end) fs.

(** [p.name] *)
Definition name (p : path) : string := last p "".

(** The split of a name at its last dot: the text before it, and the text
    from it on. *)
Fixpoint split_last_dot (s : string) : option (string * string) :=
  match s with
  | EmptyString => None
  | String c rest =>
      match split_last_dot rest with
      | Some (a, b) => Some (String c a, b)
      | None => if Ascii.eqb c "." then Some ("", s) else None
      end
  end.

(** [p.suffix]: from the last dot of the name, unless the name starts with
    that dot or ends with it. *)
Definition suffix (p : path) : string :=
  match split_last_dot (name p) with
  | Some (a, b) =>
      if (String.eqb a "" || String.eqb b ".")%bool then "" else b
  | None => ""
  end.

(** [p.stem] *)
Definition stem (p : path) : string :=
  match split_last_dot (name p) with
  | Some (a, b) =>
      if (String.eqb a "" || String.eqb b ".")%bool then name p else a
  | None => name p
  end.

(** [v[k]] on a JSON value. *)
Definition json_getitem (v : json) (k : string) : result json :=
  match v with
  | JObj d =>
      match PyDict.get k d with
      | Some x => Ok x
      | None => Raise (KeyError k)
      end
  | _ => Raise (TypeError "not subscriptable by a string")
  end.

Definition required_keys : list string :=
  ["project"; "attribute"; "file"; "metadata"].

(** [check_valid_annotation_file] on the content of [json_file]. *)
Definition check_valid_annotation_file (content : option json)
  : result (bool * PyDict.t json) :=
  match content with
  | None => Raise (Exception "Not a valid JSON")
  | Some (JObj dict_to_check) =>
      let is_valid :=
        forallb (fun k => PyDict.mem k dict_to_check) required_keys in
      let return_dict :=
        if is_valid
        then filter (fun kv => existsb (String.eqb (fst kv)) ["project"; "file"])
               dict_to_check
        else [] in
      Ok (is_valid, return_dict)
  | Some _ => Raise (AttributeError "keys")
  end.

(** A value used where a string is needed: a component of a path, for
    which [Path] raises [TypeError] on any other value, and a key of
    [self.videos].  For a key, Python accepts any hashable value and fails
    later, in [create_clips], on [s.encode]; the model refuses it here. *)
Definition as_str (v : json) : result string :=
  match v with
  | JStr s => Ok s
  | _ => Raise (TypeError "expected str")
  end.

Definition bind_result {A B} (r : result A) (f : A -> result B) : result B :=
  match r with
  | Ok a => f a
  | Raise e => Raise e
  end.

(** [valid_annotation[1]["project"]["pid"]] *)
Definition project_pid (return_dict : PyDict.t json) : result json :=
  bind_result (json_getitem (JObj return_dict) "project")
    (fun p => json_getitem p "pid").

(** [valid_annotation[1]["file"]["1"]["fname"]] *)
Definition file_1_fname (return_dict : PyDict.t json) : result json :=
  bind_result
    (bind_result (json_getitem (JObj return_dict) "file")
       (fun f => json_getitem f "1"))
    (fun f => json_getitem f "fname").

(** Lines 97-115, the body of the loop of [discover_files]; the counters
    [file_count] and [dir_count] are threaded. *)
Definition discover_item (fs : tree) (counts : nat * nat) (it : path * node)
  : M (nat * nat) :=
  let '(file_count, dir_count) := counts in
  let item := fst it in
  match snd it with
  | File content =>
      (if String.eqb (suffix item) ".json" then
         valid_annotation <- lift (check_valid_annotation_file content) ;;
         if fst valid_annotation then
           uid <- lift (project_pid (snd valid_annotation)) ;;
           video_file_name <- lift (file_1_fname (snd valid_annotation)) ;;
           if is_dir fs (Utils.parent item ++ [stem item]) then
             fname <- lift (as_str video_file_name) ;;
             let video_path := Utils.parent item ++ [stem item; fname] in
             key <- lift (as_str uid) ;;
             modify (fun s =>
               set_videos
                 (PyDict.set key
                    {| annotation_path := item;
                       video_path := video_path;
                       clips := None |} (videos s)) s)
           else
             log (Warning_no_folder (name item))
         else ret tt
       else ret tt) ;;;
      ret (S file_count, dir_count)
  | Dir => ret (file_count, S dir_count)
  | Other => ret (file_count, dir_count)
  end.

Fixpoint discover_loop (fs : tree) (items : tree) (counts : nat * nat)
  : M (nat * nat) :=
  match items with
  | [] => ret counts
  | it :: rest =>
      counts' <- discover_item fs counts it ;;
      discover_loop fs rest counts'
  end.

(** [discover_files], on the tree under [self.args.data_path]. *)
Definition discover_files (fs : tree) : M unit :=
  modify (set_videos []) ;;;
  counts <- discover_loop fs fs (0%nat, 0%nat) ;;
  vs <- gets videos ;;
  let number_of_videos :=
    length (filter (fun p => String.eqb (suffix p) ".mp4")
              (flat_map (fun kv => [annotation_path (snd kv); video_path (snd kv)])
                 vs)) in
  log (Info_found number_of_videos (fst counts) (snd counts)).

(** [get_annotations]: one fresh [AnnotationReader] per recording; [load]
    gives the content of an annotation file. *)
Definition get_annotations (py_repr : json -> string)
  (load : path -> annotation_document) : M unit :=
  vs <- gets videos ;;
  modify (set_annotations (map (fun kv => (fst kv, PyDict.empty)) vs)) ;;;
  for_each (PyDict.keys vs) (fun video =>
    v <- getitem video vs ;;
    let annotation_reader := Reader.init (annotation_path v) in
    let parsed :=
      fst (extract_annotations py_repr annotation_reader
             (load (annotation_path v))) in
    modify (fun s =>
      set_annotations (PyDict.set video (action_dict parsed) (annotations s)) s)) ;;;
  a <- gets annotations ;;
  let all_actions := flat_map (fun kv => PyDict.keys (snd kv)) a in
  let unique_actions := length (nodup string_dec all_actions) in
  let total_number_of_actions :=
    length (flat_map (fun kv => flat_map snd (snd kv)) a) in
  log (Info_parsed total_number_of_actions unique_actions).

Section CreateClips.

Variable args : VideoProcessorSettings.

(** Lines 212-221: the path of a clip, flat under the output folder or
    mirroring the place of the recording under the data root. *)
Definition output_path_of (v : video) (filename : string) : result path :=
  if preserve_folder_structure args
  then Utils.construct_preserved_output_path (data_path args) (video_path v)
         (output_path args) filename
  else Ok (Utils.joinpath (output_path args) (Utils.parts filename)).

(** Lines 229-232: the clip is recorded under its action. *)
Definition append_clip (action filename : string) (cl : PyDict.t (list string))
  : PyDict.t (list string) :=
  match PyDict.get action cl with
  | None => PyDict.set action [filename] cl
  | Some l => PyDict.set action (l ++ [filename]) cl
  end.

(** Lines 202-233, the body of [for chunk in range(n_chunks)]; the local
    [t_start] is passed in and its new value returned. *)
Definition chunk_body (uid action : string) (t_start : Q) (chunk : nat) : M Q :=
  let t_end := t_start + clip_length args in
  vs <- gets videos ;;
  v <- getitem uid vs ;;
  tracker <- gets action_tracker_per_video ;;
  action_index <- getitem action tracker ;;
  let filename := Utils.construct_video_filename uid action action_index chunk in
  output_path <- lift (output_path_of v filename) ;;
  modify (set_loc_output_path (Some output_path)) ;;;
  log (Mkdir (Utils.parent output_path)) ;;;
  log (Write_videofile (video_path v) t_start t_end output_path
         (clip_fps args) (codec args)) ;;;
  vs <- gets videos ;;
  v <- getitem uid vs ;;
  cl <- match clips v with
        | Some c => ret c
        | None => raise (KeyError "clips")
        end ;;
  modify (set_videos
            (PyDict.set uid
               {| annotation_path := annotation_path v;
                  video_path := video_path v;
                  clips := Some (append_clip action filename cl) |} vs)) ;;;
  ret t_end.

Fixpoint chunk_loop (uid action : string) (chunks : list nat) (t_start : Q)
  : M Q :=
  match chunks with
  | [] => ret t_start
  | chunk :: rest =>
      t_start' <- chunk_body uid action t_start chunk ;;
      chunk_loop uid action rest t_start'
  end.

(** [floor(len_t_segment / self.args.clip_length)] *)
Definition floor_div (len_t_segment : Q) : M Z :=
  if Qeq_bool (clip_length args) 0
  then raise ZeroDivisionError
  else ret (Qfloor (len_t_segment / clip_length args)).

(** [range(n)] *)
Definition range (n : Z) : list nat := seq 0 (Z.to_nat n).

(** Lines 234-237: [stats_dict[action]] after an interval of [n] chunks. *)
Definition stats_after (action : string) (n : Z) (stats : PyDict.t Z)
  : PyDict.t Z :=
  match PyDict.get action stats with
  | Some c => PyDict.set action (c + n)%Z stats
  | None => PyDict.set action n stats
  end.

(** Lines 188-237, the body of [for t_segment in self.annotations[uid][action]]. *)
Definition segment_body (uid action : string) (t_segment : interval) : M unit :=
  tracker <- gets action_tracker_per_video ;;
  modify (set_action_tracker
            match PyDict.get action tracker with
            | Some i => PyDict.set action (S i) tracker
            | None => PyDict.set action 0%nat tracker
            end) ;;;
  let len_t_segment := snd t_segment - fst t_segment in
  (if negb (Qle_bool (clip_length args) len_t_segment)
   then log (Warning_skipping action t_segment uid (clip_length args))
   else ret tt) ;;;
  n <- floor_div len_t_segment ;;
  modify (set_n_chunks (Some n)) ;;;
  let t_start :=
    fst t_segment + (len_t_segment - (inject_Z n * clip_length args)) / 2 in
  chunk_loop uid action (range n) t_start ;;;
  stats <- gets stats_dict ;;
  modify (set_stats_dict (stats_after action n stats)).

(** Lines 186-240, the body of [for action in sorted(self.annotations[uid])]. *)
Definition action_body (uid action : string) : M unit :=
  a <- gets annotations ;;
  per_video <- getitem uid a ;;
  segments <- getitem action per_video ;;
  for_each segments (segment_body uid action) ;;;
  n <- (fun s => read_local "n_chunks" (n_chunks s) s) ;;
  out <- (fun s => read_local "output_path" (loc_output_path s) s) ;;
  log (Info_saved n uid action (Utils.parent out)).

(** Lines 183-240, the body of [for uid in sorted(self.videos)]. *)
Definition video_body (uid : string) : M unit :=
  vs <- gets videos ;;
  v <- getitem uid vs ;;
  modify (set_videos
            (PyDict.set uid
               {| annotation_path := annotation_path v;
                  video_path := video_path v;
                  clips := Some PyDict.empty |} vs)) ;;;
  modify (set_action_tracker PyDict.empty) ;;;
  a <- gets annotations ;;
  per_video <- getitem uid a ;;
  for_each (sorted (PyDict.keys per_video)) (action_body uid).

(** [create_clips]: its locals start unbound, its value is [stats_dict]. *)
Definition create_clips : M (PyDict.t Z) :=
  modify (set_stats_dict PyDict.empty) ;;;
  modify (set_action_tracker PyDict.empty) ;;;
  modify (set_n_chunks None) ;;;
  modify (set_loc_output_path None) ;;;
  vs <- gets videos ;;
  for_each (sorted (PyDict.keys vs)) video_body ;;;
  gets stats_dict.

(** The state in which the loop over the chunks of an interval starts. *)
Definition before_chunks (uid action : string) (t_segment : interval)
  (s : state) : state :=
  let len_t_segment := snd t_segment - fst t_segment in
  let s1 :=
    set_action_tracker
      match PyDict.get action (action_tracker_per_video s) with
      | Some i => PyDict.set action (S i) (action_tracker_per_video s)
      | None => PyDict.set action 0%nat (action_tracker_per_video s)
      end s in
  set_n_chunks (Some (Qfloor (len_t_segment / clip_length args)))
    (if negb (Qle_bool (clip_length args) len_t_segment)
     then add_event (Warning_skipping action t_segment uid (clip_length args)) s1
     else s1).



End CreateClips.

(** *** The manifest *)

Definition dquote : string := String "034"%char EmptyString.
Definition newline : string := String "010"%char EmptyString.

(** The text
    [f'{{"{video_key}:":"{clip_file}","{class_key}":"{action}"}}\n']. *)
Definition jsonl_line (video_key class_key clip_file action : string) : string :=
  "{" ++ dquote ++ video_key ++ ":" ++ dquote ++ ":" ++ dquote ++ clip_file
      ++ dquote ++ "," ++ dquote ++ class_key ++ dquote ++ ":" ++ dquote
      ++ action ++ dquote ++ "}" ++ newline.

(** The pairs [(clip_file, action)] in the order [create_jsonl_file] visits
    them: [self.videos], then [self.videos[uid]["clips"]], then its list. *)
Fixpoint clip_records (vs : PyDict.t video) : result (list (string * string)) :=
  match vs with
  | [] => Ok []
  | (uid, v) :: rest =>
      match clips v with
      | None => Raise (KeyError "clips")
      | Some cl =>
          bind_result (clip_records rest) (fun tl =>
            Ok (flat_map (fun kv => map (fun clip_file => (clip_file, fst kv))
                                      (snd kv)) cl ++ tl))
      end
  end.

(** [create_jsonl_file]: the lines written to the manifest. *)
Definition create_jsonl_file (video_key class_key : string) (vs : PyDict.t video)
  : result (list string) :=
  bind_result (clip_records vs) (fun recs =>
    Ok (map (fun r => jsonl_line video_key class_key (fst r) (snd r)) recs)).

(** [save_stats]: the object written to the stats file. *)
Definition save_stats (stats_dict : PyDict.t Z) : PyDict.t Z := stats_dict.

(** [save_file_mapping]: the object written to the mapping file, the
    folder of its recording for every identifier. *)
Definition save_file_mapping (vs : PyDict.t video) : PyDict.t path :=
  fold_left (fun d kv => PyDict.set (fst kv) (snd kv) d)
    (combine (PyDict.keys vs)
       (map (fun uid => match PyDict.get uid vs with
                        | Some v => Utils.parent (video_path v)
                        | None => []
                        end) (PyDict.keys vs)))
    PyDict.empty.

(** [main]: discovery, parsing, chunking, then the stats file, the
    manifest with the keys ["image"] and ["label"], and the mapping file;
    the value is what the stats file and the manifest hold. *)
Definition main (py_repr : json -> string) (args : VideoProcessorSettings)
  (fs : tree) (load : path -> annotation_document)
  : M (PyDict.t Z * list string) :=
  discover_files fs ;;;
  get_annotations py_repr load ;;;
  stats <- create_clips args ;;
  let stats_file := save_stats stats in
  vs <- gets videos ;;
  clips_jsonl <- lift (create_jsonl_file "image" "label" vs) ;;
  let file_mapping := save_file_mapping vs in
  ret (stats_file, clips_jsonl).

(** *** Reading the outcome of a run *)

(** The time windows handed to the codec, in the order of the calls. *)
Definition written_windows (evs : list event) : list (Q * Q) :=
  flat_map (fun e => match e with
                     | Write_videofile _ t_start t_end _ _ _ => [(t_start, t_end)]
                     | _ => []
                     end) evs.

(** The clip files written, in the order of the calls. *)
Definition written_files (evs : list event) : list path :=
  flat_map (fun e => match e with
                     | Write_videofile _ _ _ filename _ _ => [filename]
                     | _ => []
                     end) evs.

(** The number of manifest records [(clip_file, action)] whose action is
    [label]. *)
Definition records_with_label (label : string) (recs : list (string * string))
  : nat :=
  length (filter (fun r => String.eqb (snd r) label) recs).

(** The number of clips a clip index holds under [label]. *)
Definition clips_under (label : string) (cl : PyDict.t (list string)) : nat :=
  list_sum (map (fun kv => if String.eqb (fst kv) label
                           then length (snd kv) else 0%nat) cl).

(** The number of clips a recording holds under [label]. *)
Definition clips_of (label : string) (v : video) : nat :=
  match clips v with
  | Some cl => clips_under label cl
  | None => 0%nat
  end.

(** The number of clips all the recordings hold under [label]. *)
Definition clip_count (label : string) (vs : PyDict.t video) : nat :=
  list_sum (map (fun kv => clips_of label (snd kv)) vs).

(** [stats_dict[label]], or zero when the label is no key. *)
Definition stat_of (label : string) (stats : PyDict.t Z) : Z :=
  match PyDict.get label stats with
  | Some c => c
  | None => 0%Z
  end.

(** [m] consecutive windows of length [clip_length] from [t_start] on. *)
Fixpoint windows_from (clip_length t_start : Q) (m : nat) : list (Q * Q) :=
  match m with
  | O => []
  | S m' =>
      (t_start, t_start + clip_length)
        :: windows_from clip_length (t_start + clip_length) m'
  end.

(** The texts between the successive pairs of double quotes of a manifest
    line: key, value, key, value. *)
Fixpoint quoted_tokens (inside : bool) (cur : string) (s : string)
  : list string :=
  match s with
  | EmptyString => []
  | String c rest =>
      if Ascii.eqb c "034"%char then
        if inside then cur :: quoted_tokens false "" rest
        else quoted_tokens true "" rest
      else if inside then quoted_tokens true (cur ++ String c "") rest
      else quoted_tokens false cur rest
  end.

(** The keys of a manifest line. *)
Definition line_keys (line : string) : list string :=
  match quoted_tokens false "" line with
  | [k1; _; k2; _] => [k1; k2]
  | _ => []
  end.

(** The label of a manifest line. *)
Definition line_label (line : string) : option string :=
  match quoted_tokens false "" line with
  | [_; _; _; label] => Some label
  | _ => None
  end.

(** The number of manifest lines that carry [label]. *)
Definition lines_with_label (label : string) (lines : list string) : nat :=
  length (filter (fun line => match line_label line with
                              | Some l => String.eqb l label
                              | None => false
                              end) lines).

(** No double quote occurs in [s]. *)
Fixpoint quote_free (s : string) : bool :=
  match s with
  | EmptyString => true
  | String c rest => negb (Ascii.eqb c "034"%char) && quote_free rest
  end.

(** The item is a qualifying annotation file of project [uid] whose sibling
    directory exists. *)
Definition pairs_with (fs : tree) (it : path * node) (uid : string) : Prop :=
  exists content return_dict,
    snd it = File content
    /\ suffix (fst it) = ".json"
    /\ check_valid_annotation_file content = Ok (true, return_dict)
    /\ project_pid return_dict = Ok (JStr uid)
    /\ is_dir fs (Utils.parent (fst it) ++ [stem (fst it)]) = true.

(** *** Invariants of a run *)

(** The loop of [create_clips] is inside the recording [uid]: its entry
    has a clip index. *)
Definition in_video (uid : string) (s : state) : Prop :=
  exists v cl, PyDict.get uid (videos s) = Some v /\ clips v = Some cl.

(** From [s] to [s'] the registry kept its keys, the entries of the other
    recordings and the annotations. *)
Definition same_but (uid : string) (s s' : state) : Prop :=
  PyDict.keys (videos s') = PyDict.keys (videos s)
  /\ (forall u, u <> uid -> PyDict.get u (videos s') = PyDict.get u (videos s))
  /\ annotations s' = annotations s.

(** The clips recorded and the stats agree on every label. *)
Definition stats_agree (s : state) : Prop :=
  forall label,
    Z.of_nat (clip_count label (videos s)) = stat_of label (stats_dict s).

(** Every interval of the annotations ends no earlier than it starts. *)
Definition durations_ordered (ann : PyDict.t (PyDict.t (list interval)))
  : Prop :=
  forall uid per_video action segments t_segment,
    PyDict.get uid ann = Some per_video ->
    PyDict.get action per_video = Some segments ->
    In t_segment segments ->
    (fst t_segment <= snd t_segment)%Q.

(** Between two recordings of the loop of [create_clips]: the recordings
    still to come have no clip index, the others have one. *)
Definition between_videos (ann0 : PyDict.t (PyDict.t (list interval)))
  (keys0 : list string) (rest : list string) (s : state) : Prop :=
  stats_agree s
  /\ (forall u, In u rest ->
        exists v, PyDict.get u (videos s) = Some v /\ clips v = None)
  /\ NoDup rest
  /\ annotations s = ann0
  /\ PyDict.keys (videos s) = keys0
  /\ (forall u v, PyDict.get u (videos s) = Some v -> In u rest \/ clips v <> None).

(** From [s] to [s'] the annotations are kept and the stats lose no key. *)
Definition keys_grow (s s' : state) : Prop :=
  annotations s' = annotations s
  /\ forall a, PyDict.get a (stats_dict s) <> None ->
               PyDict.get a (stats_dict s') <> None.

(** The labels of [per_video] outside [rest] that hold an interval are keys
    of the stats. *)
Definition labels_done (per_video : PyDict.t (list interval))
  (rest : list string) (s : state) : Prop :=
  forall action segments,
    ~ In action rest ->
    PyDict.get action per_video = Some segments ->
    segments <> [] ->
    PyDict.get action (stats_dict s) <> None.

(** *** Reading the registry *)

(** What [check_valid_annotation_file] gives on the file, when it returns a
    valid annotation that declares a project identifier and a recording
    name, both strings. *)
Definition declares (content : option json) (uid fname : string) : Prop :=
  exists return_dict,
    check_valid_annotation_file content = Ok (true, return_dict)
    /\ project_pid return_dict = Ok (JStr uid)
    /\ file_1_fname return_dict = Ok (JStr fname).

(** The content of a [.json] file on which discovery cannot fail: a JSON
    object that either lacks one of the four sections or declares a project
    identifier and a recording name. *)
Definition readable (content : option json) : Prop :=
  exists is_valid return_dict,
    check_valid_annotation_file content = Ok (is_valid, return_dict)
    /\ (is_valid = true -> exists uid fname, declares content uid fname).

(** The registry entry discovery makes for the annotation file [item]. *)
Definition entry_of (item : path) (fname : string) : video :=
  {| annotation_path := item;
     video_path := Utils.parent item ++ [stem item; fname];
     clips := None |}.

(** The registry as discovery leaves it: one entry per identifier, none
    with a clip index. *)
Definition fresh_registry (s : state) : Prop :=
  NoDup (PyDict.keys (videos s))
  /\ forall uid v, In (uid, v) (videos s) -> clips v = None.

(** The mapping a fresh [AnnotationReader] returns for the annotation file of
    the registry entry [v]. *)
Definition parsed_of (py_repr : json -> string)
  (load : path -> annotation_document) (v : video)
  : PyDict.t (list interval) :=
  action_dict
    (fst (extract_annotations py_repr
            (Reader.init (annotation_path v)) (load (annotation_path v)))).

(** The number of clip files a registry entry holds, over all labels. *)
Definition clip_total (v : video) : nat :=
  match clips v with
  | Some cl => length (flat_map snd cl)
  | None => 0
  end.

(** The file names held under [action] in a clip index. *)
Definition clips_at (action : string) (cl : PyDict.t (list string)) : list string :=
  match PyDict.get action cl with
  | Some l => l
  | None => []
  end.



(** The clips [names] of the recording [v] are the files [outs], name by
    name: each file lies where [create_clips] puts the clip of that
    name. *)
Definition written_at (args : VideoProcessorSettings) (v : video)
  (names : list string) (outs : list path) : Prop :=
  Forall2 (fun filename out => output_path_of args v filename = Ok out)
    names outs.





(** The same for the identifier [uid] of the registry [vs]. *)
Definition parsed_at (py_repr : json -> string)
  (load : path -> annotation_document) (vs : PyDict.t video) (uid : string)
  : PyDict.t (list interval) :=
  match PyDict.get uid vs with
  | Some v => parsed_of py_repr load v
  | None => PyDict.empty
  end.

(** The files and the directories of a tree. *)
Definition is_file_node (it : path * node) : bool :=
  match snd it with File _ => true | _ => false end.

Definition is_dir_node (it : path * node) : bool :=
  match snd it with Dir => true | _ => false end.

(** The recording path of the entry ends in [.mp4]. *)
Definition declares_mp4 (kv : string * video) : bool :=
  String.eqb (suffix (video_path (snd kv))) ".mp4".

(** Every entry of the registry was made for a [.json] file. *)
Definition from_annotations (s : state) : Prop :=
  forall uid v, In (uid, v) (videos s) -> suffix (annotation_path v) = ".json".

End Processor.

(** ** The arithmetic of [create_clips] on Python numbers *)

(** The times of an annotation file are Python numbers: [json.load] gives
    an [int] for a literal without fraction or exponent and a [float], an
    IEEE 754 binary64 number, for any other; [clip_length] is a [float].
    [Module Doubles] follows lines 192-233 of [video_processor.py] on these
    numbers, with the operations of the interpreter: exact on two [int]s,
    rounded to the nearest double (ties to even) otherwise. *)

Module Doubles.





















End Doubles.

(** * Example inputs *)

(** The text of a value that the examples never convert. *)
Definition no_repr : json -> string := fun _ => "".

Definition options_colours : PyDict.t json :=
  [("0", JStr "grey"); ("1", JStr "white")].

(** One record whose code ["7"] is not an option of the attribute. *)
Definition doc_absent_code : Reader.annotation_document :=
  {| Reader.attribute_1_options := options_colours;
     Reader.metadata :=
       [("1_a", {| Reader.av_1 := JStr "7"; Reader.z := [0; 5] |})] |}.

(** Three records: one whose end precedes its start, one annotation point,
    one regular interval. *)
Definition doc_reversed : Reader.annotation_document :=
  {| Reader.attribute_1_options := options_colours;
     Reader.metadata :=
       [("1_a", {| Reader.av_1 := JStr "0"; Reader.z := [10; 2] |});
        ("1_b", {| Reader.av_1 := JStr "0"; Reader.z := [3] |});
        ("1_c", {| Reader.av_1 := JStr "1"; Reader.z := [2; 8] |})] |}.

(** The JSON text of an annotation file, from its project identifier, the
    name of its recording and its records. *)
Definition annotation_json (pid fname : string)
  (doc : Reader.annotation_document) : json :=
  JObj [("project", JObj [("pid", JStr pid)]);
        ("attribute",
         JObj [("1", JObj [("options",
                            JObj (Reader.attribute_1_options doc))])]);
        ("file", JObj [("1", JObj [("fname", JStr fname)])]);
        ("metadata",
         JObj (map (fun r =>
                      (fst r,
                       JObj [("av", JObj [("1", Reader.av_1 (snd r))]);
                             ("z", JArr (map JNum (Reader.z (snd r))))]))
                 (Reader.metadata doc)))].

Definition doc_empty : Reader.annotation_document :=
  {| Reader.attribute_1_options := []; Reader.metadata := [] |}.

(** An annotation file [data/s1/a.json] beside a directory [data/s1/a]
    that holds no recording. *)
Definition tree_empty_folder : Processor.tree :=
  [(["data"; "s1"], Processor.Dir);
   (["data"; "s1"; "a.json"],
    Processor.File (Some (annotation_json "u1" "v.mp4" doc_empty)));
   (["data"; "s1"; "a"], Processor.Dir)].

(** The default settings, with the folder structure preserved. *)
Definition args_default : Processor.VideoProcessorSettings :=
  {| Processor.data_path := ["data"];
     Processor.output_path := ["out"];
     Processor.preserve_folder_structure := true;
     Processor.clip_length := 4;
     Processor.clip_fps := 4;
     Processor.codec := Some "h264" |}.

(** Inside [create_clips], at the recording ["u"]. *)
Definition state_in_video_u : Processor.state :=
  Processor.mkState
    [("u", {| Processor.annotation_path := ["data"; "u.json"];
              Processor.video_path := ["data"; "u"; "video.mp4"];
              Processor.clips := Some [] |})]
    [("u", [("walk", [(0, 9)])])] [] [] [] None None.

Definition options_walk : PyDict.t json := [("0", JStr "walk")].

(** One interval of one second. *)
Definition doc_short : Reader.annotation_document :=
  {| Reader.attribute_1_options := options_walk;
     Reader.metadata :=
       [("1_a", {| Reader.av_1 := JStr "0"; Reader.z := [0; 1] |})] |}.

(** One interval of four seconds. *)
Definition doc_walk : Reader.annotation_document :=
  {| Reader.attribute_1_options := options_walk;
     Reader.metadata :=
       [("1_a", {| Reader.av_1 := JStr "0"; Reader.z := [0; 4] |})] |}.

(** One interval of four seconds, then one whose end precedes its start. *)
Definition doc_walk_reversed : Reader.annotation_document :=
  {| Reader.attribute_1_options := options_walk;
     Reader.metadata :=
       [("1_a", {| Reader.av_1 := JStr "0"; Reader.z := [0; 4] |});
        ("1_b", {| Reader.av_1 := JStr "0"; Reader.z := [10; 2] |})] |}.

(** A data tree with one annotation file [data/u.json] of project ["u"]
    and its recording [data/u/video.mp4]. *)
Definition tree_one (doc : Reader.annotation_document) : Processor.tree :=
  [(["data"; "u.json"],
    Processor.File (Some (annotation_json "u" "video.mp4" doc)));
   (["data"; "u"], Processor.Dir);
   (["data"; "u"; "video.mp4"], Processor.File None)].

(** A data tree whose walk yields the annotation file of project ["b"]
    before the one of project ["a"]. *)
Definition tree_two : Processor.tree :=
  [(["data"; "x.json"],
    Processor.File (Some (annotation_json "b" "video.mp4" doc_walk)));
   (["data"; "x"], Processor.Dir);
   (["data"; "x"; "video.mp4"], Processor.File None);
   (["data"; "y.json"],
    Processor.File (Some (annotation_json "a" "video.mp4" doc_walk)));
   (["data"; "y"], Processor.Dir);
   (["data"; "y"; "video.mp4"], Processor.File None)].

(** The processor after discovery and parsing of [tree_two]. *)
Definition parsed_two : Processor.state :=
  Processor.mkState
    [("b", {| Processor.annotation_path := ["data"; "x.json"];
              Processor.video_path := ["data"; "x"; "video.mp4"];
              Processor.clips := None |});
     ("a", {| Processor.annotation_path := ["data"; "y.json"];
              Processor.video_path := ["data"; "y"; "video.mp4"];
              Processor.clips := None |})]
    [("b", [("walk", [(0, 4)])]); ("a", [("walk", [(0, 4)])])]
    [Processor.Info_found 2 4 2; Processor.Info_parsed 2 1]
    [] [] None None.


(** A data tree whose only [.json] file does not hold JSON. *)
Definition tree_corrupt : Processor.tree :=
  [(["data"; "bad.json"], Processor.File None);
   (["data"; "bad"], Processor.Dir)].

(** A data tree with two annotation files of the same project ["u"]. *)
Definition tree_same_project : Processor.tree :=
  [(["data"; "x.json"],
    Processor.File (Some (annotation_json "u" "first.mp4" doc_walk)));
   (["data"; "x"], Processor.Dir);
   (["data"; "y.json"],
    Processor.File (Some (annotation_json "u" "second.mp4" doc_walk)));
   (["data"; "y"], Processor.Dir)].





(** * Properties *)

(** ** Dictionaries *)

Section PyDictFacts.
Context {V : Type}.
Implicit Types (d : PyDict.t V) (k : string) (v : V).

Lemma pydict_get_set_same k v d : PyDict.get k (PyDict.set k v d) = Some v.
Proof.
  induction d as [|[k' v'] d IH]; simpl.
  - now rewrite String.eqb_refl.
  - destruct (String.eqb k k') eqn:E; simpl; rewrite E; auto.
Qed.

Lemma pydict_get_set_other k k' v d :
  k <> k' -> PyDict.get k (PyDict.set k' v d) = PyDict.get k d.
Proof.
  intros Hne. induction d as [|[k0 v0] d IH]; simpl.
  - apply String.eqb_neq in Hne. now rewrite Hne.
  - destruct (String.eqb k' k0) eqn:E; simpl.
    + apply String.eqb_eq in E; subst k0.
      apply String.eqb_neq in Hne. now rewrite Hne.
    + now rewrite IH.
Qed.

Lemma pydict_get_keys k d : PyDict.get k d <> None <-> In k (PyDict.keys d).
Proof.
  induction d as [|[k' v'] d IH]; simpl.
  - split; [congruence | tauto].
  - destruct (String.eqb k k') eqn:E.
    + apply String.eqb_eq in E. subst. split; [auto | congruence].
    + apply String.eqb_neq in E. rewrite IH.
      split; [auto | intros [H|H]; congruence].
Qed.

Lemma pydict_keys_set_present k v d :
  In k (PyDict.keys d) -> PyDict.keys (PyDict.set k v d) = PyDict.keys d.
Proof.
  induction d as [|[k' v'] d IH]; simpl; [tauto|].
  intros H. destruct (String.eqb k k') eqn:E; simpl; [reflexivity|].
  apply String.eqb_neq in E. f_equal. apply IH. destruct H; congruence.
Qed.

Lemma pydict_keys_set_absent k v d :
  ~ In k (PyDict.keys d) -> PyDict.keys (PyDict.set k v d) = PyDict.keys d ++ [k].
Proof.
  induction d as [|[k' v'] d IH]; simpl; [reflexivity|].
  intros H. destruct (String.eqb k k') eqn:E; simpl.
  - apply String.eqb_eq in E. subst. tauto.
  - f_equal. apply IH. tauto.
Qed.

Lemma pydict_NoDup_set k v d :
  NoDup (PyDict.keys d) -> NoDup (PyDict.keys (PyDict.set k v d)).
Proof.
  intros Hnd. destruct (in_dec string_dec k (PyDict.keys d)) as [Hin|Hin].
  - now rewrite pydict_keys_set_present.
  - rewrite pydict_keys_set_absent by assumption.
    apply NoDup_app; [assumption | repeat constructor; simpl; tauto |].
    intros x Hx [<-|[]]. contradiction.
Qed.

Lemma pydict_In_get k v d :
  NoDup (PyDict.keys d) -> In (k, v) d -> PyDict.get k d = Some v.
Proof.
  induction d as [|[k' v'] d IH]; simpl; [tauto|].
  intros Hnd [H|H].
  - inversion H; subst. now rewrite String.eqb_refl.
  - inversion Hnd; subst. destruct (String.eqb k k') eqn:E.
    + apply String.eqb_eq in E. subst. exfalso. apply H2.
      change k' with (fst (k', v)). now apply in_map.
    + auto.
Qed.

Lemma pydict_get_In k v d : PyDict.get k d = Some v -> In (k, v) d.
Proof.
  induction d as [|[k' v'] d IH]; simpl; [congruence|].
  destruct (String.eqb k k') eqn:E.
  - apply String.eqb_eq in E. intros [= ->]. subst. now left.
  - auto.
Qed.

(** Two dictionaries with the same keys in the same order and the same
    value at every key are equal. *)
Lemma pydict_ext d d' :
  NoDup (PyDict.keys d) ->
  PyDict.keys d = PyDict.keys d' ->
  (forall k, PyDict.get k d = PyDict.get k d') ->
  d = d'.
Proof.
  revert d'. induction d as [|[k v] d IH]; intros [|[k' v'] d'] Hnd Hk Hg;
    simpl in *; try discriminate; [reflexivity|].
  injection Hk as -> Hk. inversion Hnd; subst.
  pose proof (Hg k') as Hh. simpl in Hh. rewrite String.eqb_refl in Hh.
  injection Hh as ->. f_equal. apply IH; auto.
  intros k. specialize (Hg k). simpl in Hg.
  destruct (String.eqb k k') eqn:E; [|exact Hg].
  apply String.eqb_eq in E. subst k.
  transitivity (@None V).
  - destruct (PyDict.get k' d) eqn:G; [|reflexivity].
    exfalso. apply H1. apply pydict_get_keys. congruence.
  - destruct (PyDict.get k' d') eqn:G; [|reflexivity].
    exfalso. apply H1. rewrite Hk. apply pydict_get_keys. congruence.
Qed.

Lemma pydict_get_map (f : V -> V) k d :
  PyDict.get k (map (fun kv => (fst kv, f (snd kv))) d)
  = option_map f (PyDict.get k d).
Proof.
  induction d as [|[k' v'] d IH]; simpl; [reflexivity|].
  destruct (String.eqb k k'); auto.
Qed.

Lemma pydict_Forall_set (Q : V -> Prop) k v d :
  Forall (fun kv => Q (snd kv)) d -> Q v ->
  Forall (fun kv => Q (snd kv)) (PyDict.set k v d).
Proof.
  intros Hd Hv. induction d as [|[k' v'] d IH]; simpl.
  - constructor; [exact Hv | constructor].
  - inversion Hd; subst. destruct (String.eqb k k'); constructor; auto.
Qed.

End PyDictFacts.

(** ** Runs that return *)

Section MonadFacts.

Import Processor.

Lemma bind_inv {A B} (m : M A) (f : A -> M B) s b s' :
  bind m f s = (Ok b, s') ->
  exists a s1, m s = (Ok a, s1) /\ f a s1 = (Ok b, s').
Proof.
  unfold bind. destruct (m s) as [[a|e] s1]; [eauto | discriminate].
Qed.

Lemma for_each_inv_rest {A} (P : list A -> state -> Prop) (body : A -> M unit) :
  (forall x rest s s', P (x :: rest) s -> body x s = (Ok tt, s') -> P rest s') ->
  forall l s s', P l s -> for_each l body s = (Ok tt, s') -> P [] s'.
Proof.
  intros Hstep. induction l as [|x l IH]; intros s s' HP Hrun.
  - injection Hrun as <-. exact HP.
  - simpl in Hrun. apply bind_inv in Hrun.
    destruct Hrun as ([] & s1 & Hb & Hrest). eauto.
Qed.

Lemma for_each_inv {A} (P : state -> Prop) (l : list A) (body : A -> M unit) :
  (forall x s s', In x l -> P s -> body x s = (Ok tt, s') -> P s') ->
  forall s s', P s -> for_each l body s = (Ok tt, s') -> P s'.
Proof.
  induction l as [|x l IH]; intros Hstep s s' HP Hrun.
  - injection Hrun as <-. exact HP.
  - simpl in Hrun. apply bind_inv in Hrun.
    destruct Hrun as ([] & s1 & Hb & Hrest).
    apply (IH (fun y s s' Hy => Hstep y s s' (or_intror Hy)) s1 s'); [|exact Hrest].
    apply (Hstep x s s1); simpl; auto.
Qed.

Lemma getitem_inv {V} k (d : PyDict.t V) s v s' :
  getitem k d s = (Ok v, s') -> PyDict.get k d = Some v /\ s' = s.
Proof.
  unfold getitem. destruct (PyDict.get k d); [|discriminate].
  unfold ret. intros [= -> ->]. auto.
Qed.

Lemma read_local_inv {A} nm (o : option A) s a s' :
  read_local nm o s = (Ok a, s') -> s' = s.
Proof.
  unfold read_local. destruct o; [|discriminate].
  unfold ret. intros [= _ ->]. reflexivity.
Qed.

End MonadFacts.

(** ** The annotation parser *)

Section ReaderFacts.

Import Reader.

Variable py_repr : json -> string.

Notation action_of := (Reader.action_of py_repr).
Notation record_step := (Reader.record_step py_repr).
Notation record_loop := (Reader.record_loop py_repr).
Notation extract_annotations := (Reader.extract_annotations py_repr).
Notation intervals_of := (Reader.intervals_of py_repr).
Notation interval_of_record := (Reader.interval_of_record py_repr).

(** A coded value that is a string absent from the table is resolved to the
    text of Python's [None]: [dict.get] does not raise, so the [except]
    branch is not taken. *)
Lemma action_of_absent_code tbl entry c :
  av_1 entry = JStr c -> PyDict.get c tbl = None ->
  action_of tbl entry = "None".
Proof.
  intros Hc Hg. unfold Reader.action_of. rewrite Hc. simpl. now rewrite Hg.
Qed.

(** The [except] branch is reached by a coded value that cannot be hashed. *)
Lemma action_of_unhashable tbl entry l :
  av_1 entry = JArr l -> action_of tbl entry = py_repr (JArr l).
Proof.
  intros Hc. unfold Reader.action_of. now rewrite Hc.
Qed.

(** One step of the loop, on the dictionary alone. *)
Lemma record_step_get tbl d n entry label :
  PyDict.get label (fst (record_step tbl (d, n) entry))
  = match PyDict.get label d with
    | Some ys => Some (ys ++ interval_of_record tbl label entry)
    | None =>
        match interval_of_record tbl label entry with
        | [] => None
        | l => Some l
        end
    end.
Proof.
  unfold Reader.record_step, Reader.interval_of_record.
  destruct (String.eqb (action_of tbl entry) label) eqn:E.
  - apply String.eqb_eq in E. rewrite E.
    destruct (z entry) as [|a [|b [|c l]]]; simpl;
      try (destruct (PyDict.get label d); [now rewrite app_nil_r | reflexivity]).
    destruct (PyDict.get label d) eqn:G; simpl; now rewrite pydict_get_set_same.
  - apply String.eqb_neq in E.
    destruct (z entry) as [|a [|b [|c l]]]; simpl;
      try (destruct (PyDict.get label d); [now rewrite app_nil_r | reflexivity]).
    destruct (PyDict.get (action_of tbl entry) d); simpl;
      (rewrite pydict_get_set_other by congruence);
      (destruct (PyDict.get label d); [now rewrite app_nil_r | reflexivity]).
Qed.

Lemma record_loop_cons tbl e entries st :
  record_loop tbl (e :: entries) st = record_loop tbl entries (record_step tbl st e).
Proof. reflexivity. Qed.

Lemma record_loop_get tbl entries : forall d n label,
  PyDict.get label (fst (record_loop tbl entries (d, n)))
  = match PyDict.get label d with
    | Some ys => Some (ys ++ flat_map (interval_of_record tbl label) entries)
    | None =>
        match flat_map (interval_of_record tbl label) entries with
        | [] => None
        | l => Some l
        end
    end.
Proof.
  induction entries as [|e entries IH]; intros d n label.
  - simpl. destruct (PyDict.get label d); [now rewrite app_nil_r | reflexivity].
  - rewrite record_loop_cons.
    destruct (record_step tbl (d, n) e) as [d' n'] eqn:S.
    rewrite IH. simpl flat_map.
    pose proof (record_step_get tbl d n e label) as Hs. rewrite S in Hs.
    simpl in Hs. rewrite Hs.
    destruct (PyDict.get label d) as [ys|].
    + now rewrite app_assoc.
    + destruct (interval_of_record tbl label e); reflexivity.
Qed.

Lemma record_step_NoDup tbl d n entry :
  NoDup (PyDict.keys d) ->
  NoDup (PyDict.keys (fst (record_step tbl (d, n) entry))).
Proof.
  intros H. unfold Reader.record_step.
  destruct (z entry) as [|a [|b [|c l]]]; simpl; auto.
  destruct (PyDict.get (action_of tbl entry) d); simpl;
    now apply pydict_NoDup_set.
Qed.

Lemma record_loop_NoDup tbl entries : forall d n,
  NoDup (PyDict.keys d) ->
  NoDup (PyDict.keys (fst (record_loop tbl entries (d, n)))).
Proof.
  induction entries as [|e entries IH]; intros d n H; [exact H|].
  rewrite record_loop_cons.
  pose proof (record_step_NoDup tbl d n e H) as Hs.
  destruct (record_step tbl (d, n) e) as [d' n']. now apply IH.
Qed.

(** A step keeps the keys when the label is present already. *)
Lemma record_step_keys tbl d n entry :
  (forall label, interval_of_record tbl label entry <> [] ->
                 In label (PyDict.keys d)) ->
  PyDict.keys (fst (record_step tbl (d, n) entry)) = PyDict.keys d.
Proof.
  intros H. unfold Reader.record_step.
  destruct (z entry) as [|a [|b [|c l]]] eqn:Z; simpl; auto.
  assert (Hin : In (action_of tbl entry) (PyDict.keys d)).
  { apply H. unfold Reader.interval_of_record.
    rewrite String.eqb_refl, Z. discriminate. }
  destruct (PyDict.get (action_of tbl entry) d); simpl;
    now apply pydict_keys_set_present.
Qed.

Lemma record_loop_keys tbl entries : forall d n,
  (forall label, flat_map (interval_of_record tbl label) entries <> [] ->
                 In label (PyDict.keys d)) ->
  PyDict.keys (fst (record_loop tbl entries (d, n))) = PyDict.keys d.
Proof.
  induction entries as [|e entries IH]; intros d n H; [reflexivity|].
  rewrite record_loop_cons.
  assert (Hk : PyDict.keys (fst (record_step tbl (d, n) e)) = PyDict.keys d).
  { apply record_step_keys. intros label Hl. apply H. simpl.
    destruct (interval_of_record tbl label e); [congruence | discriminate]. }
  destruct (record_step tbl (d, n) e) as [d' n']. simpl in Hk.
  rewrite IH; [exact Hk|].
  intros label Hl. rewrite Hk. apply H. simpl.
  destruct (flat_map (interval_of_record tbl label) entries);
    [congruence | now destruct (interval_of_record tbl label e)].
Qed.

Lemma extract_annotations_dict self doc :
  action_dict (fst (extract_annotations self doc))
  = fst (record_loop (attribute_1_options doc) (map snd (metadata doc))
           (action_dict self, 0%nat)).
Proof.
  unfold Reader.extract_annotations.
  now destruct (record_loop _ _ _).
Qed.

Lemma record_step_nonempty tbl d n entry :
  Forall (fun kv => snd kv <> []) d ->
  Forall (fun kv => snd kv <> []) (fst (record_step tbl (d, n) entry)).
Proof.
  intros H. unfold Reader.record_step.
  destruct (z entry) as [|a [|b [|c l]]]; simpl; auto.
  destruct (PyDict.get (action_of tbl entry) d) as [l|]; simpl;
    apply (pydict_Forall_set (fun l => l <> [])); auto; try discriminate.
  now destruct l.
Qed.

Lemma record_loop_nonempty tbl entries : forall d n,
  Forall (fun kv => snd kv <> []) d ->
  Forall (fun kv => snd kv <> []) (fst (record_loop tbl entries (d, n))).
Proof.
  induction entries as [|e entries IH]; intros d n H; [exact H|].
  rewrite record_loop_cons.
  pose proof (record_step_nonempty tbl d n e H) as Hs.
  destruct (record_step tbl (d, n) e) as [d' n']. now apply IH.
Qed.

(** What a parse on a fresh reader returns, label by label. *)
Lemma fresh_parse_get p doc label :
  PyDict.get label (action_dict (fst (extract_annotations (init p) doc)))
  = match intervals_of doc label with
    | [] => None
    | l => Some l
    end.
Proof.
  rewrite extract_annotations_dict. simpl action_dict.
  now rewrite record_loop_get.
Qed.

Lemma fresh_parse_NoDup p doc :
  NoDup (PyDict.keys (action_dict (fst (extract_annotations (init p) doc)))).
Proof.
  rewrite extract_annotations_dict. apply record_loop_NoDup. constructor.
Qed.

End ReaderFacts.


(** C2 (defect, at the failing input): a record whose code ["7"] is absent
    from the table is stored under the label ["None"], the text of the value
    [dict.get] returns, and no list is stored under the raw code ["7"];
    the [except] branch that would use the raw code is not reached. *)
Theorem absent_code_is_labelled_None : forall py_repr,
  let parsed :=
    Reader.action_dict
      (fst (Reader.extract_annotations py_repr (Reader.init ["a.json"])
              doc_absent_code)) in
  parsed = [("None", [(0, 5)])] /\ PyDict.get "7" parsed = None.
Proof.
  intros py_repr parsed. subst parsed.
  split.
  - reflexivity.
  - rewrite fresh_parse_get. reflexivity.
Qed.

(** C4 (counterexample): the record with time field [[10, 2]] is not
    dropped; its interval, whose end is not greater than its start, is in
    the list of its label. *)
Lemma reversed_interval_is_kept :
  Reader.action_dict
    (fst (Reader.extract_annotations no_repr (Reader.init ["a.json"])
            doc_reversed))
  = [("grey", [(10, 2)]); ("white", [(2, 8)])]
  /\ Qle_bool 2 10 = true.
Proof. split; reflexivity. Qed.

(** C4 (amended): the parser compares no time values.  For every label,
    a fresh parse returns the pairs [(z[0], z[1])] of all the records
    resolved to that label whose time field has exactly two values, in the
    order of the records and whatever the order of the two values; a label
    with no such record is no key of the result. *)
Theorem parser_keeps_every_two_valued_record : forall py_repr p doc label,
  PyDict.get label
    (Reader.action_dict
       (fst (Reader.extract_annotations py_repr (Reader.init p) doc)))
  = match Reader.intervals_of py_repr doc label with
    | [] => None
    | l => Some l
    end.
Proof.
  intros. apply fresh_parse_get.
Qed.

(** C10: in the mapping a parse on a fresh reader returns, every label
    maps to a non-empty list. *)
Theorem fresh_parse_lists_nonempty : forall py_repr p doc,
  Forall (fun kv => snd kv <> [])
    (Reader.action_dict
       (fst (Reader.extract_annotations py_repr (Reader.init p) doc))).
Proof.
  intros. rewrite extract_annotations_dict.
  apply record_loop_nonempty. constructor.
Qed.

(** C9: a second call of [extract_annotations] on the same reader and the
    same file returns the mapping of the first call with every list
    doubled: each label holds the intervals of the file twice.  The two
    results differ as soon as the file holds one interval. *)
Theorem extract_annotations_twice_doubles : forall py_repr p doc,
  let r1 := fst (Reader.extract_annotations py_repr (Reader.init p) doc) in
  let r2 := fst (Reader.extract_annotations py_repr r1 doc) in
  Reader.action_dict r2
  = map (fun kv => (fst kv, snd kv ++ snd kv)) (Reader.action_dict r1)
  /\ (forall label,
        PyDict.get label (Reader.action_dict r2)
        = match Reader.intervals_of py_repr doc label with
          | [] => None
          | l => Some (l ++ l)
          end)
  /\ (Reader.action_dict r1 <> [] ->
      Reader.action_dict r2 <> Reader.action_dict r1).
Proof.
  intros py_repr p doc r1 r2.
  assert (Hget : forall label,
            PyDict.get label (Reader.action_dict r2)
            = match Reader.intervals_of py_repr doc label with
              | [] => None
              | l => Some (l ++ l)
              end).
  { intros label. subst r2. rewrite extract_annotations_dict.
    rewrite record_loop_get. subst r1. rewrite fresh_parse_get.
    fold (Reader.intervals_of py_repr doc label).
    destruct (Reader.intervals_of py_repr doc label); reflexivity. }
  assert (Hkeys : PyDict.keys (Reader.action_dict r2)
                  = PyDict.keys (Reader.action_dict r1)).
  { subst r2. rewrite extract_annotations_dict. apply record_loop_keys.
    intros label Hl. apply pydict_get_keys. subst r1.
    rewrite fresh_parse_get. unfold Reader.intervals_of.
    destruct (flat_map _ _); [congruence | discriminate]. }
  assert (Hmap : Reader.action_dict r2
                 = map (fun kv => (fst kv, snd kv ++ snd kv))
                     (Reader.action_dict r1)).
  { apply pydict_ext.
    - rewrite Hkeys. apply fresh_parse_NoDup.
    - rewrite Hkeys. unfold PyDict.keys. rewrite map_map. reflexivity.
    - intros k. rewrite Hget.
      rewrite (pydict_get_map (fun l => l ++ l)).
      subst r1. rewrite fresh_parse_get.
      destruct (Reader.intervals_of py_repr doc k); reflexivity. }
  split; [exact Hmap | split; [exact Hget|]].
  intros Hne Heq. rewrite Hmap in Heq.
  destruct (Reader.action_dict r1) as [|[k l] d] eqn:E; [congruence|].
  simpl in Heq. injection Heq as Hl _.
  assert (Hnil : l <> []).
  { pose proof (record_loop_nonempty py_repr
                  (Reader.attribute_1_options doc)
                  (map snd (Reader.metadata doc)) [] 0%nat
                  (Forall_nil _)) as Hf.
    rewrite <- (extract_annotations_dict py_repr (Reader.init p)) in Hf.
    fold r1 in Hf. rewrite E in Hf. inversion Hf; auto. }
  apply (f_equal (@length _)) in Hl. rewrite length_app in Hl.
  destruct l; [congruence | simpl in Hl; lia].
Qed.

(** ** Discovery *)

Section DiscoveryFacts.

Import Processor.

(** The step of [discover_files] on a qualifying annotation file whose
    project identifier and recording name are strings. *)
Lemma discover_item_qualifying fs counts item content return_dict uid fname s :
  suffix item = ".json" ->
  check_valid_annotation_file content = Ok (true, return_dict) ->
  project_pid return_dict = Ok (JStr uid) ->
  file_1_fname return_dict = Ok (JStr fname) ->
  discover_item fs counts (item, File content) s
  = (Ok (S (fst counts), snd counts),
     if is_dir fs (Utils.parent item ++ [stem item])
     then set_videos
            (PyDict.set uid
               {| annotation_path := item;
                  video_path := Utils.parent item ++ [stem item; fname];
                  clips := None |} (videos s)) s
     else add_event (Warning_no_folder (name item)) s).
Proof.
  intros Hsuf Hvalid Hpid Hfname.
  destruct counts as [file_count dir_count].
  unfold discover_item, bind, lift. cbn [fst snd].
  rewrite Hsuf, Hvalid. cbn [String.eqb Ascii.eqb Bool.eqb fst snd].
  rewrite Hpid, Hfname.
  destruct (is_dir fs (Utils.parent item ++ [stem item])); reflexivity.
Qed.

Lemma discover_item_inv fs counts it s c s' :
  discover_item fs counts it s = (Ok c, s') ->
  (PyDict.keys (videos s') = PyDict.keys (videos s)
   /\ forall uid, ~ pairs_with fs it uid)
  \/ exists uid v,
       pairs_with fs it uid
       /\ (forall uid', pairs_with fs it uid' -> uid' = uid)
       /\ videos s' = PyDict.set uid v (videos s).
Proof.
  destruct it as [item nd]. destruct counts as [fc dc].
  unfold discover_item. cbn [fst snd].
  destruct nd as [content| |].
  2:{ intros [= _ <-]. left. split; [reflexivity|].
      intros uid (c0 & rd & Hn & _). discriminate. }
  2:{ intros [= _ <-]. left. split; [reflexivity|].
      intros uid (c0 & rd & Hn & _). discriminate. }
  intros H. apply bind_inv in H. destruct H as ([] & s1 & Hstep & H).
  injection H as _ <-.
  destruct (String.eqb (suffix item) ".json") eqn:Hsuf.
  2:{ injection Hstep as <-. left. split; [reflexivity|].
      intros uid (c0 & rd & _ & Hs & _). cbn [fst] in Hs.
      rewrite Hs in Hsuf. discriminate. }
  apply String.eqb_eq in Hsuf.
  apply bind_inv in Hstep. destruct Hstep as ([valid rd] & s2 & Hv & Hstep).
  unfold lift in Hv. injection Hv as Hv <-. cbn [fst snd] in Hstep.
  destruct valid.
  2:{ injection Hstep as <-. left. split; [reflexivity|].
      intros uid (c0 & rd0 & Hn & _ & Hv0 & _). cbn [snd] in Hn.
      injection Hn as <-. congruence. }
  apply bind_inv in Hstep. destruct Hstep as (uid_v & s2 & Hp & Hstep).
  unfold lift in Hp. injection Hp as Hp <-.
  apply bind_inv in Hstep. destruct Hstep as (fname_v & s2 & Hf & Hstep).
  unfold lift in Hf. injection Hf as Hf <-.
  destruct (is_dir fs (Utils.parent item ++ [stem item])) eqn:Hdir.
  2:{ injection Hstep as <-. left. split; [reflexivity|].
      intros uid (c0 & rd0 & _ & _ & _ & _ & Hd). cbn [fst] in Hd. congruence. }
  apply bind_inv in Hstep. destruct Hstep as (fname & s2 & Hfs & Hstep).
  unfold lift in Hfs. injection Hfs as Hfs <-.
  apply bind_inv in Hstep. destruct Hstep as (key & s2 & Hk & Hstep).
  unfold lift in Hk. injection Hk as Hk <-.
  injection Hstep as <-.
  destruct uid_v; try discriminate. injection Hk as ->.
  right. exists key. eexists. split; [|split; [|reflexivity]].
  - exists content, rd. cbn [fst snd]. auto.
  - intros uid' (c0 & rd0 & Hn & _ & Hv0 & Hp0 & _). cbn [snd] in Hn.
    injection Hn as <-. rewrite Hv in Hv0. injection Hv0 as <-.
    rewrite Hp in Hp0. now injection Hp0.
Qed.

Lemma discover_loop_keys fs : forall items counts s c s',
  discover_loop fs items counts s = (Ok c, s') ->
  forall uid,
    In uid (PyDict.keys (videos s'))
    <-> In uid (PyDict.keys (videos s))
        \/ exists it, In it items /\ pairs_with fs it uid.
Proof.
  induction items as [|it rest IH]; intros counts s c s' H uid.
  - injection H as _ <-. split; [auto | intros [H|(it & [] & _)]; exact H].
  - simpl in H. apply bind_inv in H. destruct H as (c1 & s1 & Hitem & Hrest).
    rewrite (IH _ _ _ _ Hrest uid).
    destruct (discover_item_inv _ _ _ _ _ _ Hitem)
      as [[Hk Hno]|(u & v & Hp & Huniq & Hv)].
    + rewrite Hk. split.
      * intros [H|(it' & Hin & Hp)]; [now left|].
        right. exists it'. split; [now right | exact Hp].
      * intros [H|(it' & [<-|Hin] & Hp)]; [now left | |].
        -- exfalso. exact (Hno uid Hp).
        -- right. exists it'. auto.
    + assert (Hkeys : In uid (PyDict.keys (videos s1))
                      <-> uid = u \/ In uid (PyDict.keys (videos s))).
      { rewrite Hv.
        destruct (in_dec string_dec u (PyDict.keys (videos s))) as [Hi|Hi].
        - rewrite pydict_keys_set_present by exact Hi.
          split; [auto | intros [->|H]; auto].
        - rewrite pydict_keys_set_absent by exact Hi.
          rewrite in_app_iff. simpl. intuition. }
      rewrite Hkeys. split.
      * intros [[->|H]|(it' & Hin & Hp')].
        -- right. exists it. split; [now left | exact Hp].
        -- now left.
        -- right. exists it'. split; [now right | exact Hp'].
      * intros [H|(it' & [<-|Hin] & Hp')].
        -- left. now right.
        -- left. left. now apply Huniq.
        -- right. exists it'. auto.
Qed.

End DiscoveryFacts.


(** C5 (counterexample): the directory [data/s1/a] exists and holds no file
    named [v.mp4], yet discovery registers the pairing. *)
Lemma entry_created_without_recording :
  fst (Processor.discover_files tree_empty_folder Processor.new_processor)
  = Ok tt
  /\ PyDict.get "u1"
       (Processor.videos
          (snd (Processor.discover_files tree_empty_folder
                  Processor.new_processor)))
     = Some {| Processor.annotation_path := ["data"; "s1"; "a.json"];
               Processor.video_path := ["data"; "s1"; "a"; "v.mp4"];
               Processor.clips := None |}
  /\ Processor.is_dir tree_empty_folder ["data"; "s1"; "a"] = true
  /\ Processor.is_file tree_empty_folder ["data"; "s1"; "a"; "v.mp4"] = false.
Proof. repeat split; reflexivity. Qed.

(** C5 (amended): for every qualifying annotation file (a [.json] file
    holding the four sections, a project identifier and a recording name),
    the step of discovery succeeds and creates the registry entry exactly
    when the sibling directory named after the file's base name exists,
    whether or not that directory holds the recording; when the directory
    is absent the step only logs a warning and leaves the registry as it
    is. *)
Theorem registry_entry_iff_sibling_directory :
  forall fs counts item content return_dict uid fname s,
    Processor.suffix item = ".json" ->
    Processor.check_valid_annotation_file content = Ok (true, return_dict) ->
    Processor.project_pid return_dict = Ok (JStr uid) ->
    Processor.file_1_fname return_dict = Ok (JStr fname) ->
    (Processor.is_dir fs (Utils.parent item ++ [Processor.stem item]) = true ->
     Processor.discover_item fs counts (item, Processor.File content) s
     = (Ok (S (fst counts), snd counts),
        Processor.set_videos
          (PyDict.set uid
             {| Processor.annotation_path := item;
                Processor.video_path :=
                  Utils.parent item ++ [Processor.stem item; fname];
                Processor.clips := None |} (Processor.videos s)) s))
    /\ (Processor.is_dir fs (Utils.parent item ++ [Processor.stem item]) = false ->
        Processor.discover_item fs counts (item, Processor.File content) s
        = (Ok (S (fst counts), snd counts),
           Processor.add_event
             (Processor.Warning_no_folder (Processor.name item)) s)).
Proof.
  intros fs counts item content return_dict uid fname s Hsuf Hvalid Hpid Hfn.
  split; intros Hdir;
    rewrite (discover_item_qualifying fs counts item content return_dict
               uid fname s Hsuf Hvalid Hpid Hfn), Hdir;
    reflexivity.
Qed.

Lemma registry_entry_iff_sibling_directory_witness :
  Processor.is_dir tree_empty_folder ["data"; "s1"; "a"] = true
  /\ Processor.discover_item tree_empty_folder (0%nat, 0%nat)
       (["data"; "s1"; "a.json"],
        Processor.File (Some (annotation_json "u1" "v.mp4" doc_empty)))
       Processor.new_processor
     = (Ok (1%nat, 0%nat),
        Processor.set_videos
          [("u1", {| Processor.annotation_path := ["data"; "s1"; "a.json"];
                     Processor.video_path := ["data"; "s1"; "a"; "v.mp4"];
                     Processor.clips := None |})]
          Processor.new_processor).
Proof.
  split; [reflexivity|].
  exact (proj1
           (registry_entry_iff_sibling_directory tree_empty_folder
              (0%nat, 0%nat) ["data"; "s1"; "a.json"]
              (Some (annotation_json "u1" "v.mp4" doc_empty))
              [("project", JObj [("pid", JStr "u1")]);
               ("file", JObj [("1", JObj [("fname", JStr "v.mp4")])])]
              "u1" "v.mp4" Processor.new_processor
              eq_refl eq_refl eq_refl eq_refl)
           eq_refl).
Defined.

(** X5: a run of discovery that returns registers exactly the project
    identifiers of the qualifying annotation files whose sibling directory
    exists. *)
Theorem registry_holds_paired_annotations : forall fs s s' uid,
  Processor.discover_files fs s = (Ok tt, s') ->
  (In uid (PyDict.keys (Processor.videos s'))
   <-> exists it, In it fs /\ Processor.pairs_with fs it uid).
Proof.
  intros fs s s' uid H. unfold Processor.discover_files in H.
  apply bind_inv in H. destruct H as ([] & s1 & Hm & H). injection Hm as <-.
  apply bind_inv in H. destruct H as (counts & s2 & Hloop & H).
  apply bind_inv in H. destruct H as (vs & s3 & Hg & H). injection Hg as <- <-.
  injection H as <-.
  cbn [Processor.videos Processor.add_event].
  rewrite (discover_loop_keys fs _ _ _ _ _ Hloop uid).
  cbn [Processor.videos Processor.set_videos PyDict.keys map]. simpl In. tauto.
Qed.

Lemma registry_holds_paired_annotations_witness :
  In "u1"
    (PyDict.keys
       (Processor.videos (snd (Processor.discover_files tree_empty_folder Processor.new_processor))))
  <-> exists it, In it tree_empty_folder /\ Processor.pairs_with tree_empty_folder it "u1".
Proof.
  apply (registry_holds_paired_annotations tree_empty_folder Processor.new_processor).
  vm_compute. reflexivity.
Defined.

(** ** Segmentation *)

Section ClipFacts.

Import Processor.
Local Open Scope Q_scope.

Lemma windows_from_length c : forall m ts, length (windows_from c ts m) = m.
Proof. induction m; intros; simpl; auto. Qed.

Lemma windows_from_nth c : forall m k ts d,
  (k < m)%nat ->
  fst (nth k (windows_from c ts m) d) == ts + inject_Z (Z.of_nat k) * c
  /\ snd (nth k (windows_from c ts m) d) = fst (nth k (windows_from c ts m) d) + c.
Proof.
  induction m as [|m IH]; intros k ts d Hk; [lia|].
  destruct k as [|k].
  - simpl. split; [|reflexivity]. unfold inject_Z. lra.
  - change (nth (S k) (windows_from c ts (S m)) d)
      with (nth k (windows_from c (ts + c) m) d).
    destruct (IH k (ts + c) d ltac:(lia)) as [H1 H2]. split; [|exact H2].
    rewrite H1. rewrite Nat2Z.inj_succ. unfold Z.succ. rewrite inject_Z_plus.
    change (inject_Z 1) with 1. lra.
Qed.

Lemma windows_from_adjacent c : forall m k ts d,
  (S k < m)%nat ->
  fst (nth (S k) (windows_from c ts m) d) = snd (nth k (windows_from c ts m) d).
Proof.
  induction m as [|m IH]; intros k ts d Hk; [lia|].
  destruct k as [|k].
  - destruct m; [lia|]. reflexivity.
  - change (nth (S (S k)) (windows_from c ts (S m)) d)
      with (nth (S k) (windows_from c (ts + c) m) d).
    change (nth (S k) (windows_from c ts (S m)) d)
      with (nth k (windows_from c (ts + c) m) d).
    apply IH. lia.
Qed.



Variable args : VideoProcessorSettings.

Lemma chunk_body_run uid action t_start chunk s v cl i out :
  PyDict.get uid (videos s) = Some v ->
  clips v = Some cl ->
  PyDict.get action (action_tracker_per_video s) = Some i ->
  output_path_of args v (Utils.construct_video_filename uid action i chunk) = Ok out ->
  chunk_body args uid action t_start chunk s
  = (Ok (t_start + clip_length args),
     set_videos
       (PyDict.set uid
          {| annotation_path := annotation_path v;
             video_path := video_path v;
             clips := Some (append_clip action
                              (Utils.construct_video_filename uid action i chunk) cl) |}
          (videos s))
       (add_event
          (Write_videofile (video_path v) t_start (t_start + clip_length args)
             out (clip_fps args) (codec args))
          (add_event (Mkdir (Utils.parent out))
             (set_loc_output_path (Some out) s)))).
Proof.
  intros Hv Hcl Hi Hout.
  unfold chunk_body, log, bind, gets, getitem, lift, modify, ret.
  cbv beta iota. rewrite Hv. cbv beta iota. rewrite Hi. cbv beta iota.
  rewrite Hout. cbn [videos add_event set_loc_output_path].
  rewrite Hv. cbv beta iota. rewrite Hcl. reflexivity.
Qed.







End ClipFacts.

(** ** Whole runs of [create_clips] *)

Section RunFacts.

Import Processor.

Lemma clips_under_set_present label action l l' cl :
  PyDict.get action cl = Some l ->
  (clips_under label (PyDict.set action l' cl)
   + (if String.eqb action label then length l else 0)
   = clips_under label cl + (if String.eqb action label then length l' else 0))%nat.
Proof.
  unfold clips_under. induction cl as [|[k v] cl IH]; simpl; [discriminate|].
  destruct (String.eqb action k) eqn:E; simpl.
  - apply String.eqb_eq in E. subst k. intros [= ->]. lia.
  - intros H. specialize (IH H). lia.
Qed.

Lemma clips_under_set_absent label action l' cl :
  PyDict.get action cl = None ->
  clips_under label (PyDict.set action l' cl)
  = (clips_under label cl + (if String.eqb action label then length l' else 0))%nat.
Proof.
  unfold clips_under. induction cl as [|[k v] cl IH]; simpl; [lia|].
  destruct (String.eqb action k) eqn:E; simpl; [discriminate|].
  intros H. rewrite (IH H). lia.
Qed.

Lemma clips_under_append label action filename cl :
  clips_under label (append_clip action filename cl)
  = (clips_under label cl + (if String.eqb action label then 1 else 0))%nat.
Proof.
  unfold append_clip. destruct (PyDict.get action cl) as [l|] eqn:G.
  - pose proof (clips_under_set_present label action l (l ++ [filename]) cl G) as H.
    rewrite length_app in H. simpl in H.
    destruct (String.eqb action label); lia.
  - rewrite (clips_under_set_absent label action [filename] cl G). reflexivity.
Qed.

Lemma clip_count_set label uid v v' vs :
  PyDict.get uid vs = Some v ->
  (clip_count label (PyDict.set uid v' vs) + clips_of label v
   = clip_count label vs + clips_of label v')%nat.
Proof.
  unfold clip_count. induction vs as [|[k v0] vs IH]; simpl; [discriminate|].
  destruct (String.eqb uid k) eqn:E; simpl.
  - intros [= ->]. lia.
  - intros H. specialize (IH H). lia.
Qed.

Lemma records_of_index label cl :
  records_with_label label
    (flat_map (fun kv => map (fun clip_file => (clip_file, fst kv)) (snd kv)) cl)
  = clips_under label cl.
Proof.
  unfold records_with_label, clips_under.
  induction cl as [|[k l] cl IH]; simpl; [reflexivity|].
  rewrite filter_app, length_app, IH. f_equal.
  destruct (String.eqb k label) eqn:E.
  - induction l as [|f l IHl]; simpl; [reflexivity|]. rewrite E. simpl. now rewrite IHl.
  - induction l as [|f l IHl]; simpl; [reflexivity|]. rewrite E. exact IHl.
Qed.

Lemma clip_records_count label : forall vs recs,
  clip_records vs = Ok recs ->
  records_with_label label recs = clip_count label vs.
Proof.
  induction vs as [|[uid v] vs IH]; intros recs H; simpl in H.
  - injection H as <-. reflexivity.
  - destruct (clips v) as [cl|] eqn:C; [|discriminate].
    destruct (clip_records vs) as [tl|] eqn:R; [|discriminate].
    simpl in H. injection H as <-.
    unfold clip_count. simpl. unfold clips_of at 1. simpl. rewrite C.
    unfold records_with_label. rewrite filter_app, length_app.
    fold (records_with_label label
            (flat_map (fun kv => map (fun clip_file => (clip_file, fst kv)) (snd kv)) cl)).
    rewrite records_of_index. f_equal. apply (IH tl eq_refl).
Qed.

Lemma stat_of_after label action n stats :
  stat_of label (stats_after action n stats)
  = (stat_of label stats + (if String.eqb action label then n else 0))%Z.
Proof.
  unfold stat_of, stats_after.
  destruct (String.eqb action label) eqn:E.
  - apply String.eqb_eq in E. subst label.
    destruct (PyDict.get action stats); rewrite pydict_get_set_same; lia.
  - apply String.eqb_neq in E.
    destruct (PyDict.get action stats);
      (rewrite pydict_get_set_other by congruence); lia.
Qed.

Variable args : VideoProcessorSettings.

Local Open Scope Q_scope.

Lemma same_but_refl uid s : same_but uid s s.
Proof. repeat split. Qed.

Lemma same_but_trans uid s1 s2 s3 :
  same_but uid s1 s2 -> same_but uid s2 s3 -> same_but uid s1 s3.
Proof.
  intros (K1 & G1 & A1) (K2 & G2 & A2). repeat split.
  - congruence.
  - intros u Hu. rewrite G2, G1; auto.
  - congruence.
Qed.

Lemma chunk_body_inv uid action t chunk s v cl i t' s' :
  PyDict.get uid (videos s) = Some v ->
  clips v = Some cl ->
  PyDict.get action (action_tracker_per_video s) = Some i ->
  chunk_body args uid action t chunk s = (Ok t', s') ->
  exists out,
    s' = set_videos
           (PyDict.set uid
              {| annotation_path := annotation_path v;
                 video_path := video_path v;
                 clips := Some (append_clip action
                                  (Utils.construct_video_filename uid action i chunk) cl) |}
              (videos s))
           (add_event
              (Write_videofile (video_path v) t (t + clip_length args)
                 out (clip_fps args) (codec args))
              (add_event (Mkdir (Utils.parent out))
                 (set_loc_output_path (Some out) s))).
Proof.
  intros Hv Hcl Hi Hrun.
  destruct (output_path_of args v
              (Utils.construct_video_filename uid action i chunk)) as [out|e] eqn:Ho.
  - rewrite (chunk_body_run args uid action t chunk s v cl i out Hv Hcl Hi Ho) in Hrun.
    injection Hrun as _ <-. eauto.
  - exfalso. revert Hrun.
    unfold chunk_body, log, bind, gets, getitem, lift, modify, ret.
    cbv beta iota. rewrite Hv. cbv beta iota. rewrite Hi. cbv beta iota.
    rewrite Ho. discriminate.
Qed.

Lemma chunk_loop_inv uid action : forall chunks t s t' s',
  in_video uid s ->
  (exists i, PyDict.get action (action_tracker_per_video s) = Some i) ->
  chunk_loop args uid action chunks t s = (Ok t', s') ->
  in_video uid s'
  /\ same_but uid s s'
  /\ (forall label,
        clip_count label (videos s')
        = (clip_count label (videos s)
           + (if String.eqb action label then length chunks else 0))%nat)
  /\ stats_dict s' = stats_dict s.
Proof.
  induction chunks as [|chunk rest IH]; intros t s t' s' Hin Htr Hrun.
  - injection Hrun as _ <-. split; [exact Hin|].
    split; [apply same_but_refl|]. split; [|reflexivity].
    intros label. destruct (String.eqb action label); simpl; lia.
  - simpl in Hrun. apply bind_inv in Hrun.
    destruct Hrun as (t1 & s1 & Hbody & Hrest).
    destruct Hin as (v & cl & Hv & Hcl). destruct Htr as [i Hi].
    destruct (chunk_body_inv uid action t chunk s v cl i t1 s1 Hv Hcl Hi Hbody)
      as [out Hs1].
    set (v1 := {| annotation_path := annotation_path v;
                  video_path := video_path v;
                  clips := Some (append_clip action
                                   (Utils.construct_video_filename uid action i chunk)
                                   cl) |}) in *.
    assert (Hvid1 : videos s1 = PyDict.set uid v1 (videos s)) by (subst s1; reflexivity).
    assert (Hin1 : in_video uid s1).
    { exists v1, (append_clip action
                    (Utils.construct_video_filename uid action i chunk) cl).
      rewrite Hvid1. split; [apply pydict_get_set_same | reflexivity]. }
    assert (Htr1 : exists i, PyDict.get action (action_tracker_per_video s1) = Some i).
    { exists i. subst s1. exact Hi. }
    destruct (IH _ _ _ _ Hin1 Htr1 Hrest) as (Hin' & Hsame & Hcount & Hstats).
    split; [exact Hin'|].
    assert (Hsame1 : same_but uid s s1).
    { repeat split.
      - rewrite Hvid1. apply pydict_keys_set_present.
        apply pydict_get_keys. congruence.
      - intros u Hu. rewrite Hvid1. now apply pydict_get_set_other.
      - subst s1. reflexivity. }
    split; [exact (same_but_trans uid s s1 s' Hsame1 Hsame)|].
    split.
    + intros label. rewrite Hcount, Hvid1.
      pose proof (clip_count_set label uid v v1 (videos s) Hv) as Hc.
      unfold clips_of in Hc. rewrite Hcl in Hc. subst v1. cbn [clips] in Hc.
      rewrite clips_under_append in Hc.
      destruct (String.eqb action label); simpl; lia.
    + rewrite Hstats. subst s1. reflexivity.
Qed.


Lemma segment_body_unfold uid action t_segment s :
  ~ clip_length args == 0 ->
  segment_body args uid action t_segment s
  = let len := snd t_segment - fst t_segment in
    let n := Qfloor (len / clip_length args) in
    match chunk_loop args uid action (range n)
            (fst t_segment + (len - inject_Z n * clip_length args) / 2)
            (before_chunks args uid action t_segment s) with
    | (Ok _, s4) =>
        (Ok tt, set_stats_dict (stats_after action n (stats_dict s4)) s4)
    | (Raise e, s4) => (Raise e, s4)
    end.
Proof.
  intros Hclip.
  unfold segment_body, before_chunks, floor_div, log, bind, gets, modify, ret.
  cbv beta iota zeta.
  destruct (Qeq_bool (clip_length args) 0) eqn:E.
  { apply Qeq_bool_iff in E. contradiction. }
  destruct (negb (Qle_bool (clip_length args) (snd t_segment - fst t_segment)));
    cbv beta iota;
    destruct (chunk_loop args uid action _ _ _) as [[t'|e] s4]; reflexivity.
Qed.

Lemma floor_nonneg (len c : Q) : 0 < c -> 0 <= len -> (0 <= Qfloor (len / c))%Z.
Proof.
  intros Hc Hlen. change 0%Z with (Qfloor 0). apply Qfloor_resp_le.
  apply Qle_shift_div_l; [exact Hc | lra].
Qed.

Lemma segment_body_inv uid action t_segment s s' :
  0 < clip_length args ->
  fst t_segment <= snd t_segment ->
  in_video uid s ->
  stats_agree s ->
  segment_body args uid action t_segment s = (Ok tt, s') ->
  in_video uid s' /\ same_but uid s s' /\ stats_agree s'.
Proof.
  intros Hpos Hord Hin Hagree Hrun.
  rewrite segment_body_unfold in Hrun by lra. cbv zeta in Hrun.
  set (len := snd t_segment - fst t_segment) in *.
  set (n := Qfloor (len / clip_length args)) in *.
  set (s3 := before_chunks args uid action t_segment s) in *.
  destruct (chunk_loop args uid action (range n) _ s3) as [[t'|e] s4] eqn:Hloop;
    [|discriminate].
  injection Hrun as <-.
  assert (Hvid3 : videos s3 = videos s).
  { subst s3. unfold before_chunks.
    destruct (negb (Qle_bool (clip_length args) (snd t_segment - fst t_segment)));
      reflexivity. }
  assert (Hann3 : annotations s3 = annotations s).
  { subst s3. unfold before_chunks.
    destruct (negb (Qle_bool (clip_length args) (snd t_segment - fst t_segment)));
      reflexivity. }
  assert (Hst3 : stats_dict s3 = stats_dict s).
  { subst s3. unfold before_chunks.
    destruct (negb (Qle_bool (clip_length args) (snd t_segment - fst t_segment)));
      reflexivity. }
  assert (Hin3 : in_video uid s3).
  { destruct Hin as (v & cl & Hv & Hcl). exists v, cl. rewrite Hvid3. auto. }
  assert (Htr3 : exists i, PyDict.get action (action_tracker_per_video s3) = Some i).
  { subst s3. unfold before_chunks.
    destruct (negb (Qle_bool (clip_length args) (snd t_segment - fst t_segment)));
      cbn [action_tracker_per_video set_n_chunks add_event set_action_tracker];
      destruct (PyDict.get action (action_tracker_per_video s));
      eexists; apply pydict_get_set_same. }
  destruct (chunk_loop_inv uid action _ _ _ _ _ Hin3 Htr3 Hloop)
    as (Hin4 & (K & G & A) & Hcount & Hstats).
  split; [exact Hin4|]. split.
  - repeat split; cbn [videos annotations set_stats_dict].
    + congruence.
    + intros u Hu. rewrite G by exact Hu. now rewrite Hvid3.
    + congruence.
  - intros label. cbn [videos stats_dict set_stats_dict].
    rewrite stat_of_after, Hcount, Hstats, Hst3, Hvid3, Nat2Z.inj_add, Hagree.
    f_equal. unfold range. rewrite length_seq.
    assert (Hn : (0 <= n)%Z) by (apply floor_nonneg; [exact Hpos | unfold len; lra]).
    destruct (String.eqb action label); lia.
Qed.

Lemma action_body_inv uid action s s' :
  0 < clip_length args ->
  durations_ordered (annotations s) ->
  in_video uid s ->
  stats_agree s ->
  action_body args uid action s = (Ok tt, s') ->
  in_video uid s' /\ same_but uid s s' /\ stats_agree s'.
Proof.
  intros Hpos Hord Hin Hagree Hrun.
  unfold action_body in Hrun.
  apply bind_inv in Hrun. destruct Hrun as (a & s1 & Ha & Hrun).
  injection Ha as <- <-.
  apply bind_inv in Hrun. destruct Hrun as (per_video & s1 & Hpv & Hrun).
  apply getitem_inv in Hpv. destruct Hpv as [Hpv ->].
  apply bind_inv in Hrun. destruct Hrun as (segments & s1 & Hsg & Hrun).
  apply getitem_inv in Hsg. destruct Hsg as [Hsg ->].
  apply bind_inv in Hrun. destruct Hrun as ([] & s2 & Hloop & Hrun).
  apply bind_inv in Hrun. destruct Hrun as (n & s3 & Hn & Hrun).
  apply read_local_inv in Hn. subst s3.
  apply bind_inv in Hrun. destruct Hrun as (out & s3 & Hout & Hrun).
  apply read_local_inv in Hout. subst s3.
  injection Hrun as <-.
  assert (H2 : in_video uid s2 /\ same_but uid s s2 /\ stats_agree s2).
  { revert Hloop.
    apply (for_each_inv
             (fun s1 => in_video uid s1 /\ same_but uid s s1 /\ stats_agree s1)).
    - intros t_segment sa sb Hseg (Hi & Hs & Hg) Hbody.
      destruct (segment_body_inv uid action t_segment sa sb Hpos) as (Hi' & Hs' & Hg');
        auto.
      + apply (Hord uid per_video action segments); auto.
      + split; [exact Hi'|]. split; [|exact Hg'].
        exact (same_but_trans uid s sa sb Hs Hs').
    - split; [exact Hin|]. split; [apply same_but_refl | exact Hagree]. }
  exact H2.
Qed.

Lemma insert_sorted_In x a l : In x (insert_sorted a l) <-> x = a \/ In x l.
Proof.
  induction l as [|y l IH]; simpl.
  - intuition.
  - destruct (String.leb a y); simpl; [intuition|]. rewrite IH. intuition.
Qed.

Lemma sorted_In x l : In x (sorted l) <-> In x l.
Proof.
  induction l as [|a l IH]; simpl; [tauto|].
  rewrite insert_sorted_In, IH. intuition.
Qed.

Lemma insert_sorted_NoDup a l :
  ~ In a l -> NoDup l -> NoDup (insert_sorted a l).
Proof.
  induction l as [|y l IH]; simpl; intros Ha Hl.
  - constructor; [tauto | constructor].
  - destruct (String.leb a y).
    + constructor; [simpl; tauto | exact Hl].
    + inversion Hl; subst. constructor.
      * rewrite insert_sorted_In. intuition.
      * apply IH; tauto.
Qed.

Lemma sorted_NoDup l : NoDup l -> NoDup (sorted l).
Proof.
  induction 1 as [|a l Ha Hl IH]; simpl; [constructor|].
  apply insert_sorted_NoDup; [now rewrite sorted_In | exact IH].
Qed.

Lemma clip_count_no_clips label vs :
  (forall uid v, In (uid, v) vs -> clips v = None) ->
  clip_count label vs = 0%nat.
Proof.
  unfold clip_count. induction vs as [|[k v] vs IH]; simpl; intros H; [reflexivity|].
  rewrite IH by (intros; eapply H; eauto).
  unfold clips_of. rewrite (H k v) by auto. reflexivity.
Qed.

Lemma clip_records_defined : forall vs,
  (forall uid v, In (uid, v) vs -> clips v <> None) ->
  exists recs, clip_records vs = Ok recs.
Proof.
  induction vs as [|[k v] vs IH]; intros H; simpl; [eauto|].
  destruct (clips v) as [cl|] eqn:C.
  - assert (Hrest : forall uid v0, In (uid, v0) vs -> clips v0 <> None)
      by (intros uid v0 Hin; apply (H uid v0); now right).
    destruct (IH Hrest) as [tl Htl]. rewrite Htl. simpl. eauto.
  - exfalso. apply (H k v); [now left | exact C].
Qed.

Lemma video_body_inv ann0 keys0 uid rest s s' :
  0 < clip_length args ->
  durations_ordered ann0 ->
  between_videos ann0 keys0 (uid :: rest) s ->
  video_body args uid s = (Ok tt, s') ->
  between_videos ann0 keys0 rest s'.
Proof.
  intros Hpos Hord (Hagree & Hun & Hnd & Hann & Hkeys & Hvis) Hrun.
  unfold video_body in Hrun.
  apply bind_inv in Hrun. destruct Hrun as (vs & s1 & Hvs & Hrun).
  injection Hvs as <- <-.
  apply bind_inv in Hrun. destruct Hrun as (v & s1 & Hv & Hrun).
  apply getitem_inv in Hv. destruct Hv as [Hv ->].
  apply bind_inv in Hrun. destruct Hrun as ([] & s1 & Hm1 & Hrun).
  injection Hm1 as <-.
  apply bind_inv in Hrun. destruct Hrun as ([] & s2 & Hm2 & Hrun).
  injection Hm2 as <-.
  apply bind_inv in Hrun. destruct Hrun as (a & s3 & Ha & Hrun).
  injection Ha as <- <-.
  apply bind_inv in Hrun. destruct Hrun as (per_video & s3 & Hpv & Hrun).
  apply getitem_inv in Hpv. destruct Hpv as [Hpv ->].
  set (v0 := {| annotation_path := annotation_path v;
                video_path := video_path v;
                clips := Some PyDict.empty |}) in *.
  set (s2 := set_action_tracker PyDict.empty
               (set_videos (PyDict.set uid v0 (videos s)) s)) in *.
  destruct (Hun uid (or_introl eq_refl)) as (v' & Hv' & Hnone).
  assert (v' = v) by congruence. subst v'.
  apply NoDup_cons_iff in Hnd. destruct Hnd as [Hnotin Hnd'].
  assert (Hin2 : in_video uid s2).
  { exists v0, PyDict.empty. subst s2. cbn [videos set_action_tracker set_videos].
    split; [apply pydict_get_set_same | reflexivity]. }
  assert (Hagree2 : stats_agree s2).
  { intros label. subst s2. cbn [videos stats_dict set_action_tracker set_videos].
    rewrite <- Hagree. f_equal.
    pose proof (clip_count_set label uid v v0 (videos s) Hv) as Hc.
    unfold clips_of in Hc. rewrite Hnone in Hc. subst v0. cbn [clips] in Hc.
    unfold clips_under, PyDict.empty in *. simpl in Hc. lia. }
  assert (Hord2 : durations_ordered (annotations s2)).
  { subst s2. cbn [annotations set_action_tracker set_videos]. now rewrite Hann. }
  assert (H3 : in_video uid s' /\ same_but uid s2 s' /\ stats_agree s').
  { revert Hrun.
    apply (for_each_inv
             (fun s1 => in_video uid s1 /\ same_but uid s2 s1 /\ stats_agree s1)).
    - intros action sa sb _ (Hi & (K & G & A) & Hg) Hbody.
      destruct (action_body_inv uid action sa sb Hpos) as (Hi' & Hs' & Hg'); auto.
      + rewrite A. exact Hord2.
      + split; [exact Hi'|]. split; [|exact Hg'].
        apply (same_but_trans uid s2 sa sb); [repeat split; auto | exact Hs'].
    - split; [exact Hin2|]. split; [apply same_but_refl | exact Hagree2]. }
  destruct H3 as (Hin' & (K & G & A) & Hagree').
  assert (Hget2 : forall u, u <> uid ->
            PyDict.get u (videos s') = PyDict.get u (videos s)).
  { intros u Hu. rewrite G by exact Hu. subst s2.
    cbn [videos set_action_tracker set_videos]. now apply pydict_get_set_other. }
  split; [exact Hagree'|]. split.
  { intros u Hu. rewrite Hget2 by (intros ->; contradiction).
    apply Hun. now right. }
  split; [exact Hnd'|]. split.
  { rewrite A. subst s2. exact Hann. }
  split.
  { rewrite K. subst s2. cbn [videos set_action_tracker set_videos].
    rewrite pydict_keys_set_present; [exact Hkeys|].
    apply pydict_get_keys. congruence. }
  intros u w Hw. destruct (string_dec u uid) as [->|Hne].
  - right. destruct Hin' as (v1 & cl1 & Hv1 & Hcl1).
    assert (w = v1) by congruence. subst w. congruence.
  - rewrite Hget2 in Hw by exact Hne.
    destruct (Hvis u w Hw) as [[Heq|Hr]|Hc]; [congruence | now left | now right].
Qed.

(** *** The keys of the stats *)

Lemma keys_grow_refl s : keys_grow s s.
Proof. split; auto. Qed.

Lemma keys_grow_trans s1 s2 s3 :
  keys_grow s1 s2 -> keys_grow s2 s3 -> keys_grow s1 s3.
Proof. intros [A1 G1] [A2 G2]. split; [congruence | auto]. Qed.

Lemma chunk_body_stats uid action t chunk s t' s' :
  chunk_body args uid action t chunk s = (Ok t', s') ->
  stats_dict s' = stats_dict s /\ annotations s' = annotations s.
Proof.
  unfold chunk_body. intros H.
  apply bind_inv in H. destruct H as (vs & s1 & E & H). injection E as <- <-.
  apply bind_inv in H. destruct H as (v & s1 & E & H).
  apply getitem_inv in E. destruct E as [_ ->].
  apply bind_inv in H. destruct H as (tr & s1 & E & H). injection E as <- <-.
  apply bind_inv in H. destruct H as (i & s1 & E & H).
  apply getitem_inv in E. destruct E as [_ ->].
  apply bind_inv in H. destruct H as (out & s1 & E & H).
  unfold lift in E. injection E as _ <-.
  apply bind_inv in H. destruct H as ([] & s1 & E & H). injection E as <-.
  apply bind_inv in H. destruct H as ([] & s1 & E & H). injection E as <-.
  apply bind_inv in H. destruct H as ([] & s1 & E & H). injection E as <-.
  apply bind_inv in H. destruct H as (vs' & s1 & E & H). injection E as <- <-.
  apply bind_inv in H. destruct H as (v' & s1 & E & H).
  apply getitem_inv in E. destruct E as [_ ->].
  apply bind_inv in H. destruct H as (cl & s1 & E & H).
  assert (Es : s1 = add_event
                      (Write_videofile (video_path v) t (t + clip_length args) out
                         (clip_fps args) (codec args))
                      (add_event (Mkdir (Utils.parent out))
                         (set_loc_output_path (Some out) s))).
  { destruct (clips v'); [injection E as _ <-; reflexivity | discriminate]. }
  subst s1.
  apply bind_inv in H. destruct H as ([] & s1 & E' & H). injection E' as <-.
  injection H as _ <-. split; reflexivity.
Qed.

Lemma chunk_loop_stats uid action : forall chunks t s t' s',
  chunk_loop args uid action chunks t s = (Ok t', s') ->
  stats_dict s' = stats_dict s /\ annotations s' = annotations s.
Proof.
  induction chunks as [|chunk rest IH]; intros t s t' s' H.
  - injection H as _ <-. auto.
  - simpl in H. apply bind_inv in H. destruct H as (t1 & s1 & E & H).
    apply chunk_body_stats in E. apply IH in H.
    destruct E, H. split; congruence.
Qed.

Lemma stats_after_has a n stats : PyDict.get a (stats_after a n stats) <> None.
Proof.
  unfold stats_after. destruct (PyDict.get a stats);
    rewrite pydict_get_set_same; discriminate.
Qed.

Lemma stats_after_keeps a b n stats :
  PyDict.get a stats <> None -> PyDict.get a (stats_after b n stats) <> None.
Proof.
  intros H. destruct (string_dec a b) as [->|Hne]; [apply stats_after_has|].
  unfold stats_after. destruct (PyDict.get b stats);
    rewrite pydict_get_set_other by exact Hne; exact H.
Qed.

Lemma segment_body_stats uid action t_segment s s' :
  segment_body args uid action t_segment s = (Ok tt, s') ->
  keys_grow s s' /\ PyDict.get action (stats_dict s') <> None.
Proof.
  unfold segment_body. intros H.
  apply bind_inv in H. destruct H as (tr & s1 & E & H). injection E as <- <-.
  apply bind_inv in H. destruct H as ([] & s1 & E & H). injection E as <-.
  apply bind_inv in H. destruct H as ([] & s2 & E & H).
  assert (E2 : stats_dict s2 = stats_dict s /\ annotations s2 = annotations s).
  { destruct (negb _) in E; injection E as <-; split; reflexivity. }
  clear E.
  apply bind_inv in H. destruct H as (n & s3 & E & H).
  assert (s3 = s2).
  { unfold floor_div in E. destruct (Qeq_bool _ _); [discriminate|].
    injection E as _ <-. reflexivity. }
  subst s3. clear E.
  apply bind_inv in H. destruct H as ([] & s3 & E & H). injection E as <-.
  apply bind_inv in H. destruct H as (t' & s4 & E & H).
  apply chunk_loop_stats in E. cbn [stats_dict annotations set_n_chunks] in E.
  apply bind_inv in H. destruct H as (stats & s5 & E' & H). injection E' as <- <-.
  injection H as <-. cbn [stats_dict annotations set_stats_dict].
  destruct E as [Es Ea], E2 as [Es2 Ea2].
  split; [split|].
  - cbn [annotations set_stats_dict]. congruence.
  - intros a Ha. cbn [stats_dict set_stats_dict]. rewrite Es, Es2.
    now apply stats_after_keeps.
  - apply stats_after_has.
Qed.

Lemma segments_loop_stats uid action : forall segments s s',
  for_each segments (segment_body args uid action) s = (Ok tt, s') ->
  keys_grow s s'
  /\ (segments <> [] -> PyDict.get action (stats_dict s') <> None).
Proof.
  induction segments as [|seg rest IH]; intros s s' H.
  - injection H as <-. split; [apply keys_grow_refl | congruence].
  - simpl in H. apply bind_inv in H. destruct H as ([] & s1 & E & H).
    apply segment_body_stats in E. destruct E as [G1 P1].
    apply IH in H. destruct H as [G2 _].
    split; [exact (keys_grow_trans _ _ _ G1 G2)|].
    intros _. apply (proj2 G2). exact P1.
Qed.

Lemma action_body_stats uid action s s' :
  action_body args uid action s = (Ok tt, s') ->
  keys_grow s s'
  /\ forall per_video segments,
       PyDict.get uid (annotations s) = Some per_video ->
       PyDict.get action per_video = Some segments ->
       segments <> [] ->
       PyDict.get action (stats_dict s') <> None.
Proof.
  unfold action_body. intros H.
  apply bind_inv in H. destruct H as (a & s1 & E & H). injection E as <- <-.
  apply bind_inv in H. destruct H as (per_video & s1 & E & H).
  apply getitem_inv in E. destruct E as [Hpv ->].
  apply bind_inv in H. destruct H as (segments & s1 & E & H).
  apply getitem_inv in E. destruct E as [Hsg ->].
  apply bind_inv in H. destruct H as ([] & s2 & E & H).
  apply segments_loop_stats in E. destruct E as [G P].
  apply bind_inv in H. destruct H as (n & s3 & E & H).
  apply read_local_inv in E. subst s3.
  apply bind_inv in H. destruct H as (out & s3 & E & H).
  apply read_local_inv in E. subst s3.
  injection H as <-.
  split; [exact G|].
  intros pv sg Hpv' Hsg' Hne.
  assert (pv = per_video) by congruence. subst pv.
  assert (sg = segments) by congruence. subst sg.
  exact (P Hne).
Qed.

Lemma video_body_stats uid s s' :
  video_body args uid s = (Ok tt, s') ->
  keys_grow s s'
  /\ forall per_video,
       PyDict.get uid (annotations s) = Some per_video ->
       labels_done per_video [] s'.
Proof.
  unfold video_body. intros H.
  apply bind_inv in H. destruct H as (vs & s1 & E & H). injection E as <- <-.
  apply bind_inv in H. destruct H as (v & s1 & E & H).
  apply getitem_inv in E. destruct E as [_ ->].
  apply bind_inv in H. destruct H as ([] & s1 & E & H). injection E as <-.
  apply bind_inv in H. destruct H as ([] & s1 & E & H). injection E as <-.
  apply bind_inv in H. destruct H as (a & s1 & E & H). injection E as <- <-.
  apply bind_inv in H. destruct H as (per_video & s1 & E & H).
  apply getitem_inv in E. destruct E as [Hpv ->].
  cbn [annotations set_action_tracker set_videos] in Hpv.
  match type of H with for_each _ _ ?s0 = _ => set (s0' := s0) in * end.
  assert (Hend : keys_grow s0' s' /\ labels_done per_video [] s').
  { revert H.
    apply (for_each_inv_rest
             (fun rest s1 => keys_grow s0' s1 /\ labels_done per_video rest s1)).
    - intros action rest sa sb [G D] Hbody.
      apply action_body_stats in Hbody. destruct Hbody as [G' P'].
      split; [exact (keys_grow_trans _ _ _ G G')|].
      intros a sg Hnot Hsg Hne.
      destruct (string_dec a action) as [->|Hd].
      + apply (P' per_video sg); auto.
        rewrite (proj1 G). subst s0'. exact Hpv.
      + apply (proj2 G').
        assert (Hnot' : ~ In a (action :: rest))
          by (intros [Heq|Hin]; [congruence | contradiction]).
        exact (D a sg Hnot' Hsg Hne).
    - split; [apply keys_grow_refl|].
      intros a sg Hnot Hsg _. exfalso. apply Hnot.
      apply (proj2 (sorted_In _ _)). apply (proj1 (pydict_get_keys _ _)).
      congruence. }
  destruct Hend as [G D]. split.
  - destruct G as [A G]. split; [exact A | exact G].
  - intros pv Hpv'. assert (pv = per_video) by congruence. subst pv. exact D.
Qed.

End RunFacts.

(** ** The windows of an interval, on doubles *)

Section DoublesFacts.

Import Doubles.
Local Open Scope Q_scope.













End DoublesFacts.

Section SegmentationClaims.

Import Doubles.
Local Open Scope Q_scope.




End SegmentationClaims.


(** ** What holds of the stats and of short intervals *)

Section RunClaims.

Import Processor.
Local Open Scope Q_scope.

(** The example state is the one discovery and parsing produce. *)
Lemma parsed_two_is_discovered :
  Processor.bind (Processor.discover_files tree_two)
    (fun _ => Processor.get_annotations no_repr (fun _ => doc_walk))
    Processor.new_processor
  = (Ok tt, parsed_two).
Proof. vm_compute. reflexivity. Qed.

Lemma parsed_two_ordered :
  Processor.durations_ordered (Processor.annotations parsed_two).
Proof.
  intros uid per_video action segments t_segment Hu Ha Hin.
  cbn [Processor.annotations parsed_two] in Hu.
  assert (Hpv : per_video = [("walk", [(0, 4)])]).
  { simpl in Hu. destruct (String.eqb uid "b"); [congruence|].
    destruct (String.eqb uid "a"); congruence. }
  subst per_video. simpl in Ha.
  destruct (String.eqb action "walk"); [|discriminate].
  injection Ha as <-. destruct Hin as [<-|[]]. simpl. discriminate.
Defined.



(** X2: when [clip_length > 0], no recording has a clip index yet and every
    interval ends no earlier than it starts, a run of [create_clips] that
    returns leaves a registry whose manifest can be written, and for every
    label the value of the stats (zero for a label that is no key) is the
    number of manifest records with that label. *)
Theorem stats_count_manifest_records : forall args s stats s',
  0 < clip_length args ->
  NoDup (PyDict.keys (videos s)) ->
  (forall uid v, In (uid, v) (videos s) -> clips v = None) ->
  durations_ordered (annotations s) ->
  create_clips args s = (Ok stats, s') ->
  exists recs,
    clip_records (videos s') = Ok recs
    /\ forall label,
         Z.of_nat (records_with_label label recs) = stat_of label stats.
Proof.
  intros args s stats s' Hpos Hnd Hnone Hord Hrun.
  unfold create_clips in Hrun.
  apply bind_inv in Hrun. destruct Hrun as ([] & s1 & Hm & Hrun). injection Hm as <-.
  apply bind_inv in Hrun. destruct Hrun as ([] & s1 & Hm & Hrun). injection Hm as <-.
  apply bind_inv in Hrun. destruct Hrun as ([] & s1 & Hm & Hrun). injection Hm as <-.
  apply bind_inv in Hrun. destruct Hrun as ([] & s1 & Hm & Hrun). injection Hm as <-.
  apply bind_inv in Hrun. destruct Hrun as (vs & s1 & Hm & Hrun).
  injection Hm as <- <-.
  apply bind_inv in Hrun. destruct Hrun as ([] & s2 & Hloop & Hrun).
  injection Hrun as <- <-.
  cbn [videos set_loc_output_path set_n_chunks set_action_tracker set_stats_dict]
    in Hloop.
  match type of Hloop with for_each _ _ ?s0 = _ => set (s0' := s0) in * end.
  assert (Hend : between_videos (annotations s) (PyDict.keys (videos s)) [] s2).
  { revert Hloop.
    apply (for_each_inv_rest
             (between_videos (annotations s) (PyDict.keys (videos s)))).
    - intros x rest sa sb HP Hbody.
      exact (video_body_inv args _ _ x rest sa sb Hpos Hord HP Hbody).
    - repeat split.
      + intros label. subst s0'.
        cbn [videos stats_dict set_loc_output_path set_n_chunks
               set_action_tracker set_stats_dict].
        rewrite (clip_count_no_clips label (videos s) Hnone). reflexivity.
      + intros u Hu. apply (proj1 (sorted_In _ _)) in Hu.
        apply (proj2 (pydict_get_keys _ _)) in Hu.
        subst s0'.
        cbn [videos set_loc_output_path set_n_chunks set_action_tracker
               set_stats_dict].
        destruct (PyDict.get u (videos s)) as [v|] eqn:G; [|congruence].
        exists v. split; [reflexivity|].
        apply (Hnone u). now apply pydict_get_In.
      + now apply sorted_NoDup.
      + intros u v Hv. left. apply (proj2 (sorted_In _ _)).
        apply (proj1 (pydict_get_keys _ _)).
        subst s0'.
        cbn [videos set_loc_output_path set_n_chunks set_action_tracker
               set_stats_dict] in Hv.
        congruence. }
  destruct Hend as (Hagree & _ & _ & _ & Hkeys & Hvis).
  destruct (clip_records_defined (videos s2)) as [recs Hrecs].
  { intros uid v Hin.
    assert (Hg : PyDict.get uid (videos s2) = Some v).
    { apply pydict_In_get; [now rewrite Hkeys | exact Hin]. }
    destruct (Hvis uid v Hg) as [[]|Hc]. exact Hc. }
  exists recs. split; [exact Hrecs|].
  intros label. rewrite (clip_records_count label _ _ Hrecs). apply Hagree.
Qed.

Lemma stats_count_manifest_records_witness :
  exists recs,
    Processor.clip_records
      (Processor.videos (snd (Processor.create_clips args_default parsed_two)))
    = Ok recs
    /\ forall label,
         Z.of_nat (Processor.records_with_label label recs)
         = Processor.stat_of label [("walk", 2%Z)].
Proof.
  apply (stats_count_manifest_records args_default parsed_two
           [("walk", 2%Z)]
           (snd (Processor.create_clips args_default parsed_two))).
  - reflexivity.
  - repeat constructor; simpl; intuition discriminate.
  - intros uid v [H|[H|[]]]; injection H as <- <-; reflexivity.
  - exact parsed_two_ordered.
  - vm_compute. reflexivity.
Defined.

(** X3: when [create_clips] returns, every label that holds at least one
    interval in the annotations of a registered recording is a key of the
    stats file, whatever its count. *)
Theorem stats_keys_cover_labels : forall args s stats s',
  create_clips args s = (Ok stats, s') ->
  forall uid per_video action segments,
    In uid (PyDict.keys (videos s)) ->
    PyDict.get uid (annotations s) = Some per_video ->
    PyDict.get action per_video = Some segments ->
    segments <> [] ->
    PyDict.get action (save_stats stats) <> None.
Proof.
  intros args s stats s' Hrun uid per_video action segments Huid Hpv Hsg Hne.
  unfold create_clips in Hrun.
  apply bind_inv in Hrun. destruct Hrun as ([] & s1 & Hm & Hrun). injection Hm as <-.
  apply bind_inv in Hrun. destruct Hrun as ([] & s1 & Hm & Hrun). injection Hm as <-.
  apply bind_inv in Hrun. destruct Hrun as ([] & s1 & Hm & Hrun). injection Hm as <-.
  apply bind_inv in Hrun. destruct Hrun as ([] & s1 & Hm & Hrun). injection Hm as <-.
  apply bind_inv in Hrun. destruct Hrun as (vs & s1 & Hm & Hrun).
  injection Hm as <- <-.
  apply bind_inv in Hrun. destruct Hrun as ([] & s2 & Hloop & Hrun).
  injection Hrun as <- <-.
  cbn [videos set_loc_output_path set_n_chunks set_action_tracker set_stats_dict]
    in Hloop.
  match type of Hloop with for_each _ _ ?s0 = _ => set (s0' := s0) in * end.
  assert (Hend :
    annotations s2 = annotations s
    /\ forall u pv, ~ In u [] -> In u (PyDict.keys (videos s)) ->
         PyDict.get u (annotations s) = Some pv -> labels_done pv [] s2).
  { revert Hloop.
    apply (for_each_inv_rest
             (fun rest s1 =>
                annotations s1 = annotations s
                /\ forall u pv, ~ In u rest -> In u (PyDict.keys (videos s)) ->
                     PyDict.get u (annotations s) = Some pv ->
                     labels_done pv [] s1)).
    - intros x rest sa sb [A D] Hbody.
      apply (video_body_stats args) in Hbody. destruct Hbody as [[A' G'] P'].
      split; [congruence|].
      intros u pv Hnot Hin Hu.
      destruct (string_dec u x) as [->|Hd].
      + apply P'. congruence.
      + intros a sg Hn Hsg' Hne'. apply G'.
        assert (Hnot' : ~ In u (x :: rest))
          by (intros [Heq|Hr]; [congruence | contradiction]).
        exact (D u pv Hnot' Hin Hu a sg Hn Hsg' Hne').
    - split; [reflexivity|].
      intros u pv Hnot Hin _. exfalso. apply Hnot.
      now apply (proj2 (sorted_In _ _)). }
  destruct Hend as [_ D]. unfold save_stats.
  apply (D uid per_video (fun F => F) Huid Hpv action segments (fun F => F) Hsg Hne).
Qed.

Lemma stats_keys_cover_labels_witness :
  PyDict.get "walk" (save_stats [("walk", 2%Z)]) <> None.
Proof.
  apply (stats_keys_cover_labels args_default parsed_two [("walk", 2%Z)]
           (snd (create_clips args_default parsed_two))
           ltac:(vm_compute; reflexivity)
           "a" [("walk", [(0, 4)])] "walk" [(0, 4)]).
  - simpl. auto.
  - reflexivity.
  - reflexivity.
  - discriminate.
Defined.

End RunClaims.

(** ** The manifest *)

Section ManifestFacts.

Import Processor.

Lemma quoted_tokens_inside s : forall cur rest,
  quote_free s = true ->
  quoted_tokens true cur (s ++ dquote ++ rest)%string
  = (cur ++ s)%string :: quoted_tokens false "" rest.
Proof.
  induction s as [|c s IH]; intros cur rest H.
  - simpl. f_equal. clear. induction cur; simpl; congruence.
  - simpl in H. apply andb_prop in H. destruct H as [Hc Hs].
    apply negb_true_iff in Hc.
    change ((String c s ++ dquote ++ rest)%string)
      with (String c (s ++ dquote ++ rest)%string).
    cbn [quoted_tokens]. rewrite Hc. rewrite IH by exact Hs.
    f_equal. clear. induction cur; simpl; congruence.
Qed.

Lemma quoted_tokens_outside s : forall cur rest,
  quote_free s = true ->
  quoted_tokens false cur (s ++ dquote ++ rest)%string
  = quoted_tokens true "" rest.
Proof.
  induction s as [|c s IH]; intros cur rest H.
  - reflexivity.
  - simpl in H. apply andb_prop in H. destruct H as [Hc Hs].
    apply negb_true_iff in Hc.
    change ((String c s ++ dquote ++ rest)%string)
      with (String c (s ++ dquote ++ rest)%string).
    cbn [quoted_tokens]. rewrite Hc. now apply IH.
Qed.

Lemma string_app_assoc (a b c : string) :
  ((a ++ b) ++ c = a ++ (b ++ c))%string.
Proof. induction a as [|x a IH]; simpl; congruence. Qed.

Lemma quote_free_app a b :
  quote_free a = true -> quote_free b = true -> quote_free (a ++ b)%string = true.
Proof.
  induction a as [|c a IH]; simpl; intros Ha Hb; [exact Hb|].
  apply andb_prop in Ha. destruct Ha as [Hc Ha]. rewrite Hc. simpl. auto.
Qed.

(** X4: when no double quote occurs in the keys, the file name or the label,
    a manifest line holds four quoted texts: the configured [video_key]
    followed by a colon, the clip file, the configured [class_key], the
    label.  Its keys are the first and the third. *)
Theorem manifest_line_tokens : forall video_key class_key clip_file action,
  quote_free video_key = true ->
  quote_free class_key = true ->
  quote_free clip_file = true ->
  quote_free action = true ->
  quoted_tokens false ""
    (jsonl_line video_key class_key clip_file action)
  = [(video_key ++ ":")%string; clip_file; class_key; action]
  /\ line_keys (jsonl_line video_key class_key clip_file action)
     = [(video_key ++ ":")%string; class_key]
  /\ line_label (jsonl_line video_key class_key clip_file action)
     = Some action.
Proof.
  intros vk ck f a Hvk Hck Hf Ha.
  assert (E : quoted_tokens false "" (jsonl_line vk ck f a)
              = [(vk ++ ":")%string; f; ck; a]).
  { unfold jsonl_line.
    rewrite (quoted_tokens_outside "{") by reflexivity.
    replace (vk ++ ":" ++ dquote ++ ":" ++ dquote ++ f ++ dquote ++ "," ++ dquote
               ++ ck ++ dquote ++ ":" ++ dquote ++ a ++ dquote ++ "}" ++ newline)%string
      with ((vk ++ ":") ++ dquote ++ ":" ++ dquote ++ f ++ dquote ++ "," ++ dquote
               ++ ck ++ dquote ++ ":" ++ dquote ++ a ++ dquote ++ "}" ++ newline)%string
      by (rewrite string_app_assoc; reflexivity).
    rewrite quoted_tokens_inside by (apply quote_free_app; [exact Hvk | reflexivity]).
    rewrite (quoted_tokens_outside ":") by reflexivity.
    rewrite quoted_tokens_inside by exact Hf.
    rewrite (quoted_tokens_outside ",") by reflexivity.
    rewrite quoted_tokens_inside by exact Hck.
    rewrite (quoted_tokens_outside ":") by reflexivity.
    rewrite quoted_tokens_inside by exact Ha.
    reflexivity. }
  unfold line_keys, line_label. rewrite E. auto.
Qed.

Lemma manifest_line_tokens_witness :
  quoted_tokens false ""
    (jsonl_line "image" "label" "u_walk_000_000.mp4" "walk")
  = ["image:"; "u_walk_000_000.mp4"; "label"; "walk"]
  /\ line_keys (jsonl_line "image" "label" "u_walk_000_000.mp4" "walk")
     = ["image:"; "label"]
  /\ line_label (jsonl_line "image" "label" "u_walk_000_000.mp4" "walk")
     = Some "walk".
Proof.
  apply (manifest_line_tokens "image" "label" "u_walk_000_000.mp4" "walk");
    reflexivity.
Defined.

End ManifestFacts.

(** ** Whole runs *)

(** C3 (defect, at the failing input): a corpus of one recording whose only
    interval lasts one second, with clips of four seconds.  The interval
    gives no window, a warning is logged and the stats hold 0 for its
    label; then the run stops with [UnboundLocalError]: the message logged
    after the intervals of a label reads [output_path], which no chunk has
    assigned yet. *)
Theorem short_interval_aborts_run : forall py_repr,
  let r := Processor.main py_repr args_default (tree_one doc_short)
             (fun _ => doc_short) Processor.new_processor in
  fst r = Raise (UnboundLocalError "output_path")
  /\ Processor.written_windows (Processor.events (snd r)) = []
  /\ In (Processor.Warning_skipping "walk" (0, 1) "u" 4)
        (Processor.events (snd r))
  /\ Processor.stats_dict (snd r) = [("walk", 0%Z)].
Proof.
  intros py_repr r. subst r. vm_compute.
  split; [reflexivity|]. split; [reflexivity|].
  split; [|reflexivity].
  right. right. left. reflexivity.
Qed.


(** C7 (defect, at the failing input): a recording with an interval of four
    seconds and an interval whose end precedes its start.  The second one
    gives [floor(-8 / 4) = -2] chunks, which is added to the stats: the
    final value for the label is [-1], while the manifest holds one line
    with that label. *)
Theorem stats_differ_from_manifest_count : forall py_repr,
  let r := Processor.main py_repr args_default (tree_one doc_walk_reversed)
             (fun _ => doc_walk_reversed) Processor.new_processor in
  exists stats_file clips_jsonl,
    fst r = Ok (stats_file, clips_jsonl)
    /\ PyDict.get "walk" stats_file = Some (-1)%Z
    /\ Processor.lines_with_label "walk" clips_jsonl = 1%nat.
Proof.
  intros py_repr r. subst r.
  exists [("walk", (-1)%Z)],
         [Processor.jsonl_line "image" "label" "u_walk_000_000.mp4" "walk"].
  vm_compute. split; [reflexivity|]. split; reflexivity.
Qed.

(** C8 (defect, at the failing input): with the keys ["image"] and
    ["label"], the line of a clip reads
    [{"image:":"u_walk_000_000.mp4","label":"walk"}]: its first key is
    ["image:"], the configured key followed by a colon, while the second
    key is the configured ["label"]. *)
Theorem manifest_key_has_trailing_colon : forall py_repr,
  let r := Processor.main py_repr args_default (tree_one doc_walk)
             (fun _ => doc_walk) Processor.new_processor in
  exists stats_file line,
    fst r = Ok (stats_file, [line])
    /\ line = Processor.jsonl_line "image" "label" "u_walk_000_000.mp4" "walk"
    /\ Processor.quoted_tokens false "" line
       = ["image:"; "u_walk_000_000.mp4"; "label"; "walk"]
    /\ Processor.line_keys line = ["image:"; "label"]
    /\ Processor.line_keys line <> ["image"; "label"].
Proof.
  intros py_repr r. subst r.
  exists [("walk", 1%Z)],
         (Processor.jsonl_line "image" "label" "u_walk_000_000.mp4" "walk").
  vm_compute.
  split; [reflexivity|]. split; [reflexivity|]. split; [reflexivity|].
  split; [reflexivity|]. discriminate.
Qed.

(** * Further properties of the code *)

(** ** File names and output paths ([utils.py]) *)

Section UtilsFacts.

Import Utils.

Lemma string_app_cancel_l (p x y : string) : (p ++ x = p ++ y)%string -> x = y.
Proof. induction p as [|c p IH]; simpl; [auto | intros [= H]; auto]. Qed.

Lemma all_digits_app a b :
  all_digits a = true -> all_digits b = true -> all_digits (a ++ b) = true.
Proof.
  induction a as [|c a IH]; simpl; intros Ha Hb; [exact Hb|].
  apply andb_prop in Ha. destruct Ha as [Hc Ha]. rewrite Hc. simpl. auto.
Qed.

Lemma string_of_uint_digits d : all_digits (NilEmpty.string_of_uint d) = true.
Proof. induction d; simpl; auto. Qed.

Lemma format_03_digits n : all_digits (format_03 n) = true.
Proof.
  unfold format_03.
  pose proof (string_of_uint_digits (Nat.to_uint n)) as H.
  destruct (String.length _) as [|[|[|k]]]; [reflexivity | | | exact H];
    apply all_digits_app; auto.
Qed.

(** Two texts of digits followed by the same character that is no digit:
    the texts are equal, and so is what follows. *)
Lemma digits_split c s1 : forall s2 r1 r2,
  all_digits s1 = true -> all_digits s2 = true ->
  all_digits (String c "") = false ->
  (s1 ++ String c r1 = s2 ++ String c r2)%string ->
  s1 = s2 /\ r1 = r2.
Proof.
  induction s1 as [|a s1 IH]; intros [|b s2] r1 r2 H1 H2 Hc E; simpl in *.
  - injection E as ->. auto.
  - injection E as -> _. apply andb_prop in H2. destruct H2 as [H2 _].
    rewrite H2 in Hc. discriminate.
  - injection E as -> _. apply andb_prop in H1. destruct H1 as [H1 _].
    rewrite H1 in Hc. discriminate.
  - injection E as -> E. apply andb_prop in H1. apply andb_prop in H2.
    destruct (IH s2 r1 r2) as [-> ->]; tauto.
Qed.

Lemma parse_index_format_03 n : parse_index (format_03 n) = Some n.
Proof.
  unfold parse_index, format_03.
  pose proof (NilEmpty.usu (Nat.to_uint n)) as Hu.
  pose proof (Unsigned.of_to n) as Hn.
  set (d := NilEmpty.string_of_uint (Nat.to_uint n)) in *.
  cbv zeta.
  destruct (String.length d) as [|[|[|k]]] eqn:L.
  - destruct d; [|discriminate]. simpl in Hu. injection Hu as Hu.
    rewrite <- Hu in Hn. simpl in Hn. subst n. reflexivity.
  - simpl. rewrite Hu. simpl. f_equal. exact Hn.
  - simpl. rewrite Hu. simpl. f_equal. exact Hn.
  - rewrite Hu. simpl. f_equal. exact Hn.
Qed.

Lemma format_03_inj n m : format_03 n = format_03 m -> n = m.
Proof.
  intros H. apply (f_equal parse_index) in H.
  rewrite !parse_index_format_03 in H. now injection H.
Qed.

Lemma format_03_length n : (3 <= String.length (format_03 n))%nat.
Proof.
  unfold format_03.
  destruct (String.length (NilEmpty.string_of_uint (Nat.to_uint n)))
    as [|[|[|k]]] eqn:L; simpl; rewrite ?L; lia.
Qed.

Lemma format_03_small n :
  (n < 1000)%nat -> String.length (format_03 n) = 3%nat.
Proof.
  intros H.
  assert (A : forallb (fun k => Nat.eqb (String.length (format_03 k)) 3)
                (seq 0 1000) = true) by (vm_compute; reflexivity).
  rewrite forallb_forall in A. apply Nat.eqb_eq. apply A.
  apply in_seq. lia.
Qed.

Lemma strip_root_app root : forall rel, strip_root (root ++ rel) root = Ok rel.
Proof.
  induction root as [|r root IH]; intros rel; simpl.
  - destruct rel; reflexivity.
  - now rewrite String.eqb_refl.
Qed.

Lemma strip_root_Ok root : forall p rel,
  strip_root p root = Ok rel -> p = root ++ rel.
Proof.
  induction root as [|r root IH]; intros p rel H.
  - destruct p; simpl in H; now injection H.
  - destruct p as [|c p]; simpl in H; [discriminate|].
    destruct (String.eqb r c) eqn:E; [|discriminate].
    apply String.eqb_eq in E. subst c. simpl. f_equal. now apply IH.
Qed.

Lemma strip_root_Raise root : forall p e,
  strip_root p root = Raise e -> exists msg, e = ValueError msg.
Proof.
  induction root as [|r root IH]; intros p e H.
  - destruct p; discriminate.
  - destruct p as [|c p]; simpl in H; [injection H as <-; eauto|].
    destruct (String.eqb r c); [eauto | injection H as <-; eauto].
Qed.

Lemma relative_to_Ok p root rel :
  relative_to p root = Ok rel <->
  p = root ++ rel /\ (rooted p = true -> rooted root = true).
Proof.
  unfold relative_to. split.
  - destruct (rooted p) eqn:Hp, (rooted root) eqn:Hr; cbn [andb negb];
      try discriminate; intros H; (split; [now apply strip_root_Ok|auto]).
  - intros [-> Hroot]. destruct (rooted (root ++ rel)) eqn:Hp.
    + rewrite (Hroot eq_refl). cbn [andb negb]. apply strip_root_app.
    + cbn [andb]. apply strip_root_app.
Qed.

Lemma relative_to_Raise p root e :
  relative_to p root = Raise e -> exists msg, e = ValueError msg.
Proof.
  unfold relative_to. destruct (rooted p && negb (rooted root))%bool.
  - intros [= <-]. eauto.
  - apply strip_root_Raise.
Qed.

Lemma split_slash_free s : slash_free s = true -> split_slash s = [s].
Proof.
  induction s as [|c s IH]; [reflexivity|]. cbn [slash_free split_slash].
  intros H. apply andb_prop in H. destruct H as [Hc Hs].
  apply negb_true_iff in Hc. rewrite Hc, (IH Hs). reflexivity.
Qed.

Lemma root_of_slash_free s : slash_free s = true -> root_of s = None.
Proof.
  destruct s as [|c s]; [reflexivity|]. cbn [slash_free root_of].
  intros H. apply andb_prop in H. destruct H as [Hc _].
  apply negb_true_iff in Hc. now rewrite Hc.
Qed.

(** A [str] without a slash that is neither empty nor ["."] is one
    component. *)
Lemma parts_single s :
  slash_free s = true -> s <> "" -> s <> "." -> parts s = [s].
Proof.
  intros Hs He Hd. unfold parts.
  rewrite (root_of_slash_free s Hs), (split_slash_free s Hs).
  cbn [app filter].
  apply String.eqb_neq in He. apply String.eqb_neq in Hd.
  now rewrite He, Hd.
Qed.

Lemma rooted_single s : slash_free s = true -> rooted [s] = false.
Proof.
  intros Hs. cbn [rooted]. unfold is_root.
  destruct (String.eqb s "/") eqn:E1.
  { apply String.eqb_eq in E1. subst s. discriminate. }
  destruct (String.eqb s "//") eqn:E2; [|reflexivity].
  apply String.eqb_eq in E2. subst s. discriminate.
Qed.

Lemma slash_free_app a b :
  slash_free (a ++ b) = (slash_free a && slash_free b)%bool.
Proof.
  induction a as [|c a IH]; [reflexivity|]. cbn [append slash_free].
  rewrite IH. now rewrite andb_assoc.
Qed.

Lemma all_digits_slash_free s : all_digits s = true -> slash_free s = true.
Proof.
  induction s as [|c s IH]; [reflexivity|]. cbn [all_digits slash_free].
  intros H. apply andb_prop in H. destruct H as [Hc Hs].
  rewrite (IH Hs), andb_true_r. apply negb_true_iff.
  apply andb_prop in Hc. destruct Hc as [Hlo _]. apply Nat.leb_le in Hlo.
  destruct (Ascii.eqb c "/") eqn:E; [|reflexivity].
  apply Ascii.eqb_eq in E. subst c. cbn in Hlo. lia.
Qed.

Lemma string_app_length (a b : string) :
  String.length (a ++ b) = (String.length a + String.length b)%nat.
Proof. induction a as [|c a IH]; simpl; [reflexivity | now rewrite IH]. Qed.

Lemma construct_video_filename_slash_free uid action i c :
  slash_free uid = true -> slash_free action = true ->
  slash_free (construct_video_filename uid action i c) = true.
Proof.
  intros Hu Ha. unfold construct_video_filename.
  rewrite !slash_free_app, Hu, Ha.
  rewrite !(all_digits_slash_free _ (format_03_digits _)). reflexivity.
Qed.

(** The name of a clip of a recording and a label without slashes is one
    path component. *)
Lemma construct_video_filename_single uid action i c :
  slash_free uid = true -> slash_free action = true ->
  parts (construct_video_filename uid action i c)
  = [construct_video_filename uid action i c].
Proof.
  intros Hu Ha. apply parts_single.
  - now apply construct_video_filename_slash_free.
  - intros H. apply (f_equal String.length) in H.
    unfold construct_video_filename in H. rewrite !string_app_length in H.
    cbn in H. lia.
  - intros H. apply (f_equal String.length) in H.
    unfold construct_video_filename in H. rewrite !string_app_length in H.
    cbn in H. lia.
Qed.

End UtilsFacts.

Section UtilsProperties.

Import Utils.

(** X6: the three-digit field of a clip file name ([f"{n:03}"]) holds only
    decimal digits, at least three of them and exactly three below 1000,
    and reading it back as a number gives [n]. *)
Theorem format_03_reads_back : forall n,
  parse_index (format_03 n) = Some n
  /\ all_digits (format_03 n) = true
  /\ (3 <= String.length (format_03 n))%nat
  /\ ((n < 1000)%nat -> String.length (format_03 n) = 3%nat).
Proof.
  intros n. split; [apply parse_index_format_03|].
  split; [apply format_03_digits|].
  split; [apply format_03_length | apply format_03_small].
Qed.

(** X7: for one recording and one label, [construct_video_filename] gives
    different names to different pairs of occurrence index and chunk
    index: equal names have equal indices. *)
Theorem construct_video_filename_inj : forall uid action i c i' c',
  construct_video_filename uid action i c
  = construct_video_filename uid action i' c' ->
  i = i' /\ c = c'.
Proof.
  intros uid action i c i' c' H. unfold construct_video_filename in H.
  apply string_app_cancel_l in H.
  apply (string_app_cancel_l "_") in H.
  apply string_app_cancel_l in H.
  apply (string_app_cancel_l "_") in H.
  apply (digits_split "_") in H;
    [| apply format_03_digits | apply format_03_digits | reflexivity].
  destruct H as [Hi H]. apply (digits_split ".") in H;
    [| apply format_03_digits | apply format_03_digits | reflexivity].
  destruct H as [Hc _].
  split; apply format_03_inj; assumption.
Qed.

Lemma construct_video_filename_inj_witness : (3 = 3 /\ 7 = 7)%nat.
Proof.
  apply (construct_video_filename_inj "u" "walk" 3 7 3 7). reflexivity.
Defined.

(** X8: the name does not separate the identifier from the label: the
    recording [uid_mid] with the label [action] and the recording [uid]
    with the label [mid_action] get the same clip file names. *)
Theorem construct_video_filename_collides : forall uid mid action i c,
  construct_video_filename (uid ++ "_" ++ mid) action i c
  = construct_video_filename uid (mid ++ "_" ++ action) i c.
Proof.
  intros. unfold construct_video_filename.
  rewrite !string_app_assoc. reflexivity.
Qed.

(** X9: [construct_preserved_output_path] returns exactly when the input
    lies under the root, an absolute input under no relative root; the
    result is then the output folder, the folders between the root and the
    input, and the output file read as a path: an output file that is one
    component (no slash, not empty, not ["."]) is appended and is the last
    component of the result, while an output file that starts with a slash
    replaces the output folder.  Any failure is the [ValueError] of
    [relative_to]. *)
Theorem preserved_output_path_mirrors :
  forall root input_file output_folder output_file,
  (forall o,
     construct_preserved_output_path root input_file output_folder output_file
     = Ok o <->
     exists rel,
       input_file = root ++ rel
       /\ (rooted input_file = true -> rooted root = true)
       /\ o = joinpath (joinpath output_folder (parent rel)) (parts output_file))
  /\ (forall folder,
        slash_free output_file = true ->
        output_file <> "" -> output_file <> "." ->
        joinpath folder (parts output_file) = folder ++ [output_file]
        /\ last (joinpath folder (parts output_file)) "" = output_file)
  /\ (forall folder,
        rooted (parts output_file) = true ->
        joinpath folder (parts output_file) = parts output_file)
  /\ (forall e,
        construct_preserved_output_path root input_file output_folder output_file
        = Raise e ->
        exists msg, e = ValueError msg).
Proof.
  intros root p out f. split; [|split; [|split]].
  - intros o. unfold construct_preserved_output_path. split.
    + destruct (relative_to p root) as [rel|e] eqn:E; [|discriminate].
      intros [= <-]. apply relative_to_Ok in E. destruct E as [E1 E2].
      exists rel. auto.
    + intros (rel & Hp & Hroot & ->).
      rewrite (proj2 (relative_to_Ok p root rel) (conj Hp Hroot)). reflexivity.
  - intros folder Hs He Hd. rewrite (parts_single f Hs He Hd).
    unfold joinpath. rewrite (rooted_single f Hs).
    split; [reflexivity | apply last_last].
  - intros folder H. unfold joinpath. now rewrite H.
  - intros e. unfold construct_preserved_output_path.
    destruct (relative_to p root) as [rel|e'] eqn:E; [discriminate|].
    intros [= <-]. exact (relative_to_Raise p root e' E).
Qed.

Lemma preserved_output_path_mirrors_witness :
  construct_preserved_output_path ["data"] ["data"; "s1"; "u"; "v.mp4"] ["out"]
    "u_open/close_000_000.mp4"
  = Ok ["out"; "s1"; "u"; "u_open"; "close_000_000.mp4"]
  /\ joinpath ["out"; "s1"; "u"] (parts "u_walk_000_000.mp4")
     = ["out"; "s1"; "u"; "u_walk_000_000.mp4"]
  /\ joinpath ["out"; "s1"; "u"] (parts "/tmp/x.mp4") = ["/"; "tmp"; "x.mp4"].
Proof.
  split; [|split].
  - apply (proj1 (preserved_output_path_mirrors ["data"]
                    ["data"; "s1"; "u"; "v.mp4"] ["out"]
                    "u_open/close_000_000.mp4")).
    exists ["s1"; "u"; "v.mp4"].
    split; [reflexivity|]. split; [discriminate|reflexivity].
  - apply (proj1 (proj2 (preserved_output_path_mirrors [] [] []
                           "u_walk_000_000.mp4")));
      [reflexivity|discriminate|discriminate].
  - apply (proj1 (proj2 (proj2 (preserved_output_path_mirrors [] [] []
                                  "/tmp/x.mp4")))).
    reflexivity.
Defined.

End UtilsProperties.

(** ** The parser, on any reader ([annotation_reader.py]) *)

Section ReaderMore.

Import Reader.

Variable py_repr : json -> string.

Lemma record_step_other tbl st entry :
  two_valued entry = false -> record_step py_repr tbl st entry = st.
Proof.
  unfold two_valued, record_step. destruct st as [d n].
  destruct (z entry) as [|a [|b [|c l]]]; try reflexivity. discriminate.
Qed.

Lemma record_step_two tbl d n entry :
  two_valued entry = true ->
  exists iv,
    interval_of_record py_repr tbl (action_of py_repr tbl entry) entry = [iv]
    /\ record_step py_repr tbl (d, n) entry
       = (match PyDict.get (action_of py_repr tbl entry) d with
          | Some l => PyDict.set (action_of py_repr tbl entry) (l ++ [iv]) d
          | None => PyDict.set (action_of py_repr tbl entry) [iv] d
          end, S n).
Proof.
  unfold two_valued, record_step, interval_of_record.
  rewrite String.eqb_refl.
  destruct (z entry) as [|a [|b [|c l]]]; try discriminate.
  intros _. exists (a, b). auto.
Qed.

Lemma record_loop_count tbl entries : forall d n,
  snd (record_loop py_repr tbl entries (d, n))
  = (n + length (filter two_valued entries))%nat.
Proof.
  induction entries as [|e entries IH]; intros d n; [simpl; lia|].
  rewrite record_loop_cons. cbn [filter]. destruct (two_valued e) eqn:E.
  - destruct (record_step_two tbl d n e E) as (iv & _ & ->).
    rewrite IH. simpl. lia.
  - rewrite record_step_other by exact E. apply IH.
Qed.

Lemma total_set_append {A} k (x : A) d :
  length (flat_map snd
            (match PyDict.get k d with
             | Some l => PyDict.set k (l ++ [x]) d
             | None => PyDict.set k [x] d
             end))
  = S (length (flat_map snd d)).
Proof.
  induction d as [|[k' l'] d IH]; [reflexivity|].
  cbn [PyDict.get]. destruct (String.eqb k k') eqn:E.
  - cbn [PyDict.set]. rewrite E. cbn [flat_map snd].
    rewrite !length_app. simpl. lia.
  - assert (H : forall v,
              flat_map snd (PyDict.set k v ((k', l') :: d))
              = l' ++ flat_map snd (PyDict.set k v d)).
    { intros v. cbn [PyDict.set]. rewrite E. reflexivity. }
    cbn [flat_map snd]. rewrite length_app.
    destruct (PyDict.get k d); rewrite H, length_app, IH; lia.
Qed.

Lemma record_loop_total tbl entries : forall d n,
  length (flat_map snd (fst (record_loop py_repr tbl entries (d, n))))
  = (length (flat_map snd d) + length (filter two_valued entries))%nat.
Proof.
  induction entries as [|e entries IH]; intros d n; [simpl; lia|].
  rewrite record_loop_cons. cbn [filter]. destruct (two_valued e) eqn:E.
  - destruct (record_step_two tbl d n e E) as (iv & _ & ->).
    rewrite IH.
    pose proof (total_set_append (action_of py_repr tbl e) iv d) as Ht.
    revert Ht. destruct (PyDict.get (action_of py_repr tbl e) d);
      intros Ht; rewrite Ht; simpl; lia.
  - rewrite record_step_other by exact E. apply IH.
Qed.

Lemma filter_filter {A} (f g : A -> bool) l :
  filter f (filter g l) = filter (fun x => g x && f x) l.
Proof.
  induction l as [|x l IH]; simpl; [reflexivity|].
  destruct (g x); simpl; [destruct (f x)|]; now rewrite IH.
Qed.

Lemma existsb_eqb_In y ks : existsb (String.eqb y) ks = true <-> In y ks.
Proof.
  rewrite existsb_exists. split.
  - intros (x & Hx & E). apply String.eqb_eq in E. now subst.
  - intros H. exists y. split; [exact H | apply String.eqb_refl].
Qed.

Lemma record_loop_key_order tbl entries : forall d n,
  PyDict.keys (fst (record_loop py_repr tbl entries (d, n)))
  = PyDict.keys d
      ++ filter (not_among (PyDict.keys d))
           (first_seen (map (action_of py_repr tbl) (filter two_valued entries))).
Proof.
  induction entries as [|e entries IH]; intros d n.
  - simpl. now rewrite app_nil_r.
  - rewrite record_loop_cons. cbn [filter]. destruct (two_valued e) eqn:E.
    2:{ rewrite record_step_other by exact E. apply IH. }
    destruct (record_step_two tbl d n e E) as (iv & _ & ->).
    set (a := action_of py_repr tbl e).
    set (L := first_seen (map (action_of py_repr tbl) (filter two_valued entries))).
    cbn [map first_seen]. fold a. fold L.
    rewrite IH. fold L. cbn [filter].
    destruct (in_dec string_dec a (PyDict.keys d)) as [Hin|Hin].
    + assert (Hk : PyDict.keys
                     match PyDict.get a d with
                     | Some l => PyDict.set a (l ++ [iv]) d
                     | None => PyDict.set a [iv] d
                     end = PyDict.keys d).
      { destruct (PyDict.get a d); now apply pydict_keys_set_present. }
      rewrite Hk. f_equal.
      assert (Ha : not_among (PyDict.keys d) a = false).
      { unfold not_among. apply negb_false_iff. now apply existsb_eqb_In. }
      rewrite Ha, filter_filter. apply filter_ext_in. intros y _.
      destruct (String.eqb y a) eqn:Ey; [|reflexivity].
      apply String.eqb_eq in Ey. subst y. simpl. now rewrite Ha.
    + assert (Hk : PyDict.keys
                     match PyDict.get a d with
                     | Some l => PyDict.set a (l ++ [iv]) d
                     | None => PyDict.set a [iv] d
                     end = PyDict.keys d ++ [a]).
      { destruct (PyDict.get a d); now apply pydict_keys_set_absent. }
      rewrite Hk, <- app_assoc. f_equal.
      assert (Ha : not_among (PyDict.keys d) a = true).
      { unfold not_among. apply negb_true_iff.
        destruct (existsb (String.eqb a) (PyDict.keys d)) eqn:X; [|reflexivity].
        apply existsb_eqb_In in X. contradiction. }
      rewrite Ha. simpl. f_equal. rewrite filter_filter.
      apply filter_ext. intros y. unfold not_among.
      rewrite existsb_app. simpl. rewrite orb_false_r, negb_orb.
      apply andb_comm.
Qed.

End ReaderMore.

Section ReaderProperties.

Import Reader.

(** X10: [extract_annotations] on any reader, fresh or not: the path of the
    reader is kept; under every label the intervals of the document are
    appended, in record order, to the list the reader held; the labels
    that are new become keys after the old ones, in the order of their
    first record. *)
Theorem extract_annotations_appends : forall py_repr self doc,
  let r := fst (extract_annotations py_repr self doc) in
  path_to_annotation_file r = path_to_annotation_file self
  /\ (forall label,
        PyDict.get label (action_dict r)
        = match PyDict.get label (action_dict self) with
          | Some ys => Some (ys ++ intervals_of py_repr doc label)
          | None =>
              match intervals_of py_repr doc label with
              | [] => None
              | l => Some l
              end
          end)
  /\ PyDict.keys (action_dict r)
     = PyDict.keys (action_dict self)
         ++ filter (not_among (PyDict.keys (action_dict self)))
              (first_seen (labels_of py_repr doc)).
Proof.
  intros py_repr self doc r. subst r. split; [|split].
  - unfold extract_annotations. now destruct (record_loop _ _ _ _).
  - intros label. rewrite extract_annotations_dict. apply record_loop_get.
  - rewrite extract_annotations_dict. apply record_loop_key_order.
Qed.

(** X11: the keys of the mapping a fresh reader returns are the labels of
    the records that give an interval, each once, in the order of their
    first record. *)
Theorem fresh_parse_key_order : forall py_repr p doc,
  PyDict.keys (action_dict (fst (extract_annotations py_repr (init p) doc)))
  = first_seen (labels_of py_repr doc).
Proof.
  intros. rewrite extract_annotations_dict, record_loop_key_order.
  cbn [action_dict init PyDict.keys PyDict.empty map app].
  unfold labels_of.
  induction (first_seen _) as [|x l IH]; simpl; [reflexivity | now rewrite IH].
Qed.

(** X12: the number of actions [extract_annotations] logs is the number of
    records whose time field has exactly two values, and the mapping holds
    that many intervals more than before the call. *)
Theorem parsed_count_is_stored_intervals : forall py_repr self doc,
  let r := extract_annotations py_repr self doc in
  snd r = length (filter two_valued (map snd (metadata doc)))
  /\ length (flat_map snd (action_dict (fst r)))
     = (length (flat_map snd (action_dict self)) + snd r)%nat.
Proof.
  intros py_repr self doc r. subst r.
  pose proof (record_loop_count py_repr (attribute_1_options doc)
                (map snd (metadata doc)) (action_dict self) 0) as Hc.
  pose proof (record_loop_total py_repr (attribute_1_options doc)
                (map snd (metadata doc)) (action_dict self) 0) as Ht.
  unfold extract_annotations.
  destruct (record_loop _ _ _ _) as [d n]. simpl in *.
  split; [exact Hc | rewrite Ht, Hc; reflexivity].
Qed.

End ReaderProperties.

(** ** Discovery, file by file *)

Section DiscoveryMore.

Import Processor.

Lemma pydict_get_filter {V} (p : string -> bool) k (d : PyDict.t V) :
  PyDict.get k (filter (fun kv => p (fst kv)) d)
  = if p k then PyDict.get k d else None.
Proof.
  induction d as [|[k' v] d IH]; simpl; [now destruct (p k)|].
  destruct (p k') eqn:P; simpl.
  - destruct (String.eqb k k') eqn:E; [|exact IH].
    apply String.eqb_eq in E. subst. now rewrite P.
  - rewrite IH. destruct (String.eqb k k') eqn:E; [|reflexivity].
    apply String.eqb_eq in E. subst. now rewrite P.
Qed.

Lemma discover_item_other fs counts item nd s :
  (forall content, nd = File content -> suffix item <> ".json") ->
  exists c, discover_item fs counts (item, nd) s = (Ok c, s).
Proof.
  intros H. destruct counts as [fc dc]. unfold discover_item. cbn [fst snd].
  destruct nd as [content| |]; [|eexists; reflexivity..].
  specialize (H content eq_refl). apply String.eqb_neq in H.
  unfold bind. rewrite H. eexists. reflexivity.
Qed.

Lemma discover_item_corrupt fs counts item s :
  suffix item = ".json" ->
  discover_item fs counts (item, File None) s
  = (Raise (Exception "Not a valid JSON"), s).
Proof.
  intros H. destruct counts as [fc dc]. unfold discover_item, bind, lift.
  cbn [fst snd]. rewrite H. reflexivity.
Qed.

Lemma discover_item_invalid fs counts item content rd s :
  suffix item = ".json" ->
  check_valid_annotation_file content = Ok (false, rd) ->
  discover_item fs counts (item, File content) s
  = (Ok (S (fst counts), snd counts), s).
Proof.
  intros H Hv. destruct counts as [fc dc]. unfold discover_item, bind, lift.
  cbn [fst snd]. rewrite H, Hv. reflexivity.
Qed.

Lemma discover_item_declared fs counts item content uid fname s :
  suffix item = ".json" ->
  declares content uid fname ->
  discover_item fs counts (item, File content) s
  = (Ok (S (fst counts), snd counts),
     if is_dir fs (Utils.parent item ++ [stem item])
     then set_videos (PyDict.set uid (entry_of item fname) (videos s)) s
     else add_event (Warning_no_folder (name item)) s).
Proof.
  intros H (rd & Hv & Hp & Hf).
  exact (discover_item_qualifying fs counts item content rd uid fname s H Hv Hp Hf).
Qed.

(** The three ways a step of discovery returns. *)
Lemma discover_item_cases fs counts item nd s c s' :
  discover_item fs counts (item, nd) s = (Ok c, s') ->
  (s' = s /\ forall uid, ~ pairs_with fs (item, nd) uid)
  \/ (exists content return_dict,
        nd = File content /\ suffix item = ".json"
        /\ check_valid_annotation_file content = Ok (true, return_dict)
        /\ is_dir fs (Utils.parent item ++ [stem item]) = false
        /\ s' = add_event (Warning_no_folder (name item)) s)
  \/ (exists content uid fname,
        nd = File content /\ suffix item = ".json"
        /\ declares content uid fname
        /\ is_dir fs (Utils.parent item ++ [stem item]) = true
        /\ s' = set_videos (PyDict.set uid (entry_of item fname) (videos s)) s).
Proof.
  destruct counts as [fc dc]. unfold discover_item. cbn [fst snd].
  destruct nd as [content| |].
  2:{ intros [= _ <-]. left. split; [reflexivity|].
      intros uid (c0 & rd & Hn & _). discriminate. }
  2:{ intros [= _ <-]. left. split; [reflexivity|].
      intros uid (c0 & rd & Hn & _). discriminate. }
  intros H. apply bind_inv in H. destruct H as ([] & s1 & Hstep & H).
  injection H as _ <-.
  destruct (String.eqb (suffix item) ".json") eqn:Hsuf.
  2:{ injection Hstep as <-. left. split; [reflexivity|].
      intros uid (c0 & rd & _ & Hs & _). cbn [fst] in Hs.
      rewrite Hs in Hsuf. discriminate. }
  apply String.eqb_eq in Hsuf.
  apply bind_inv in Hstep. destruct Hstep as ([valid rd] & s2 & Hv & Hstep).
  unfold lift in Hv. injection Hv as Hv <-. cbn [fst snd] in Hstep.
  destruct valid.
  2:{ injection Hstep as <-. left. split; [reflexivity|].
      intros uid (c0 & rd0 & Hn & _ & Hv0 & _). cbn [snd] in Hn.
      injection Hn as <-. congruence. }
  apply bind_inv in Hstep. destruct Hstep as (uid_v & s2 & Hp & Hstep).
  unfold lift in Hp. injection Hp as Hp <-.
  apply bind_inv in Hstep. destruct Hstep as (fname_v & s2 & Hf & Hstep).
  unfold lift in Hf. injection Hf as Hf <-.
  destruct (is_dir fs (Utils.parent item ++ [stem item])) eqn:Hdir.
  2:{ injection Hstep as <-. right. left. exists content, rd. auto. }
  apply bind_inv in Hstep. destruct Hstep as (fname & s2 & Hfs & Hstep).
  unfold lift in Hfs. injection Hfs as Hfs <-.
  apply bind_inv in Hstep. destruct Hstep as (key & s2 & Hk & Hstep).
  unfold lift in Hk. injection Hk as Hk <-.
  injection Hstep as <-.
  destruct uid_v; try discriminate. injection Hk as ->.
  destruct fname_v; try discriminate. injection Hfs as ->.
  right. right. exists content, key, fname.
  repeat split; auto. exists rd. auto.
Qed.

Lemma declares_unique content uid fname uid' fname' :
  declares content uid fname -> declares content uid' fname' ->
  uid' = uid /\ fname' = fname.
Proof.
  intros (rd & Hv & Hp & Hf) (rd' & Hv' & Hp' & Hf').
  rewrite Hv in Hv'. injection Hv' as <-.
  rewrite Hp in Hp'. rewrite Hf in Hf'. split; congruence.
Qed.

Lemma pydict_In_set {V} k (v : V) d kv :
  In kv (PyDict.set k v d) -> In kv d \/ snd kv = v.
Proof.
  induction d as [|[k' v'] d IH]; simpl.
  - intros [<-|[]]. now right.
  - destruct (String.eqb k k').
    + intros [<-|H]; [now right | left; now right].
    + intros [<-|H]; [left; now left|].
      destruct (IH H); [left; now right | now right].
Qed.

Lemma discover_item_fresh fs counts it s c s' :
  discover_item fs counts it s = (Ok c, s') ->
  fresh_registry s -> fresh_registry s'.
Proof.
  destruct it as [item nd]. intros H [Hnd Hnone].
  destruct (discover_item_cases _ _ _ _ _ _ _ H)
    as [[-> _]|[(ct & rd & _ & _ & _ & _ & ->)|(ct & uid & fname & _ & _ & _ & _ & ->)]].
  - split; assumption.
  - split; assumption.
  - split; cbn [videos set_videos].
    + now apply pydict_NoDup_set.
    + intros u v Hin. apply pydict_In_set in Hin. destruct Hin as [Hin|Hv].
      * eapply Hnone; eauto.
      * simpl in Hv. subst v. reflexivity.
Qed.

Lemma discover_loop_fresh fs : forall items counts s c s',
  discover_loop fs items counts s = (Ok c, s') ->
  fresh_registry s -> fresh_registry s'.
Proof.
  induction items as [|it rest IH]; intros counts s c s' H Hf.
  - injection H as _ <-. exact Hf.
  - simpl in H. apply bind_inv in H. destruct H as (c1 & s1 & Hitem & Hrest).
    eapply IH; [exact Hrest|]. eapply discover_item_fresh; eauto.
Qed.

Lemma discover_loop_steps fs : forall items counts s c s',
  discover_loop fs items counts s = (Ok c, s') ->
  forall it, In it items ->
    exists c0 s0 c1 s1, discover_item fs c0 it s0 = (Ok c1, s1).
Proof.
  induction items as [|it rest IH]; intros counts s c s' H it0 Hin; [destruct Hin|].
  simpl in H. apply bind_inv in H. destruct H as (c1 & s1 & Hitem & Hrest).
  destruct Hin as [<-|Hin]; [eauto 6|]. eapply IH; eauto.
Qed.

Lemma discover_files_inv fs s s' :
  discover_files fs s = (Ok tt, s') ->
  exists counts s1,
    discover_loop fs fs (0%nat, 0%nat) (set_videos [] s) = (Ok counts, s1)
    /\ videos s' = videos s1.
Proof.
  intros H. unfold discover_files in H.
  apply bind_inv in H. destruct H as ([] & s0 & Hm & H). injection Hm as <-.
  apply bind_inv in H. destruct H as (counts & s2 & Hloop & H).
  apply bind_inv in H. destruct H as (vs & s3 & Hg & H). injection Hg as <- <-.
  injection H as <-. exists counts, s2. auto.
Qed.


Lemma discover_loop_total fs : forall items,
  (forall item content, In (item, File content) items ->
     suffix item = ".json" -> readable content) ->
  forall counts s, exists c s', discover_loop fs items counts s = (Ok c, s').
Proof.
  induction items as [|it rest IH]; intros H counts s;
    [exists counts, s; reflexivity|].
  destruct it as [item nd].
  assert (Hstep : exists c1 s1, discover_item fs counts (item, nd) s = (Ok c1, s1)).
  { destruct nd as [content| |].
    - destruct (string_dec (suffix item) ".json") as [Hs|Hs].
      + destruct (H item content (or_introl eq_refl) Hs)
          as ([|] & rd & Hv & Hd).
        * destruct (Hd eq_refl) as (uid & fname & Hdec).
          rewrite (discover_item_declared fs counts item content uid fname s Hs Hdec).
          eauto.
        * rewrite (discover_item_invalid fs counts item content rd s Hs Hv). eauto.
      + destruct (discover_item_other fs counts item (File content) s) as [c Hc].
        { intros c0 [= <-]. exact Hs. }
        eauto.
    - destruct (discover_item_other fs counts item Dir s) as [c Hc];
        [intros c0 [=]|eauto].
    - destruct (discover_item_other fs counts item Other s) as [c Hc];
        [intros c0 [=]|eauto]. }
  destruct Hstep as (c1 & s1 & Hstep).
  destruct (IH (fun i c Hin => H i c (or_intror Hin)) c1 s1) as (c & s' & Hrest).
  exists c, s'. simpl. unfold bind. rewrite Hstep. exact Hrest.
Qed.

Lemma discover_loop_app fs : forall a b counts s c s',
  discover_loop fs (a ++ b) counts s = (Ok c, s') ->
  exists c1 s1,
    discover_loop fs a counts s = (Ok c1, s1)
    /\ discover_loop fs b c1 s1 = (Ok c, s').
Proof.
  induction a as [|it a IH]; intros b counts s c s' H.
  - exists counts, s. split; [reflexivity|exact H].
  - simpl in H. apply bind_inv in H. destruct H as (c0 & s0 & Hitem & Hrest).
    destruct (IH _ _ _ _ _ Hrest) as (c1 & s1 & Ha & Hb).
    exists c1, s1. split; [|exact Hb]. simpl. unfold bind. now rewrite Hitem.
Qed.

Lemma discover_loop_keeps fs uid : forall items counts s c s',
  (forall it, In it items -> ~ pairs_with fs it uid) ->
  discover_loop fs items counts s = (Ok c, s') ->
  PyDict.get uid (videos s') = PyDict.get uid (videos s).
Proof.
  induction items as [|it rest IH]; intros counts s c s' Hno H.
  - injection H as _ <-. reflexivity.
  - destruct it as [item nd]. simpl in H. apply bind_inv in H. destruct H as (c1 & s1 & Hitem & Hrest).
    rewrite (IH _ _ _ _ (fun it Hin => Hno it (or_intror Hin)) Hrest).
    destruct (discover_item_cases _ _ _ _ _ _ _ Hitem)
      as [[-> _]|[(ct & rd & _ & _ & _ & _ & ->)
                 |(ct & u & fname & -> & Hs & (rd & Hv & Hp & Hf) & Hd & ->)]];
      try reflexivity.
    cbn [videos set_videos]. apply pydict_get_set_other.
    intros <-. apply (Hno (item, File ct) (or_introl eq_refl)).
    exists ct, rd. cbn [fst snd]. auto.
Qed.

Lemma discover_item_counts fs counts item nd s c s' :
  discover_item fs counts (item, nd) s = (Ok c, s') ->
  c = (fst counts + (if is_file_node (item, nd) then 1 else 0),
       snd counts + (if is_dir_node (item, nd) then 1 else 0))%nat.
Proof.
  destruct counts as [fc dc]. unfold discover_item, is_file_node, is_dir_node.
  cbn [fst snd]. destruct nd as [content| |].
  - intros H. apply bind_inv in H. destruct H as ([] & s1 & _ & H).
    injection H as <- _. f_equal; lia.
  - intros [= <- _]. f_equal; lia.
  - intros [= <- _]. f_equal; lia.
Qed.

Lemma discover_loop_counts fs : forall items counts s c s',
  discover_loop fs items counts s = (Ok c, s') ->
  c = (fst counts + length (filter is_file_node items),
       snd counts + length (filter is_dir_node items))%nat.
Proof.
  induction items as [|it items IH]; intros counts s c s' H.
  - injection H as <- _. destruct counts. cbn [filter length fst snd].
    f_equal; lia.
  - destruct it as [item nd]. cbn [discover_loop] in H. apply bind_inv in H.
    destruct H as (c1 & s1 & Hitem & Hrest).
    apply discover_item_counts in Hitem. apply IH in Hrest. subst c c1.
    cbn [fst snd filter].
    destruct (is_file_node (item, nd)), (is_dir_node (item, nd));
      cbn [length]; f_equal; lia.
Qed.

Lemma discover_item_from_annotations fs counts it s c s' :
  discover_item fs counts it s = (Ok c, s') ->
  from_annotations s -> from_annotations s'.
Proof.
  destruct it as [item nd]. intros H Hs.
  destruct (discover_item_cases _ _ _ _ _ _ _ H)
    as [[-> _]|[(ct & rd & _ & _ & _ & _ & ->)
               |(ct & uid & fname & _ & Hsuf & _ & _ & ->)]];
    try exact Hs.
  intros u v Hin. cbn [videos set_videos] in Hin.
  apply pydict_In_set in Hin. destruct Hin as [Hin|Hv].
  - exact (Hs u v Hin).
  - cbn [snd] in Hv. subst v. exact Hsuf.
Qed.

Lemma discover_loop_from_annotations fs : forall items counts s c s',
  discover_loop fs items counts s = (Ok c, s') ->
  from_annotations s -> from_annotations s'.
Proof.
  induction items as [|it rest IH]; intros counts s c s' H Hf.
  - injection H as _ <-. exact Hf.
  - simpl in H. apply bind_inv in H. destruct H as (c1 & s1 & Hitem & Hrest).
    eapply IH; [exact Hrest|]. eapply discover_item_from_annotations; eauto.
Qed.

Lemma mp4_paths_count vs :
  (forall uid v, In (uid, v) vs -> suffix (annotation_path v) = ".json") ->
  length (filter (fun p => String.eqb (suffix p) ".mp4")
            (flat_map (fun kv => [annotation_path (snd kv); video_path (snd kv)])
               vs))
  = length (filter declares_mp4 vs).
Proof.
  induction vs as [|[uid v] vs IH]; intros H; [reflexivity|].
  cbn [flat_map app filter snd]. rewrite (H uid v (or_introl eq_refl)).
  cbn [String.eqb Ascii.eqb Bool.eqb]. unfold declares_mp4 at 1. cbn [snd].
  destruct (String.eqb (suffix (video_path v)) ".mp4"); cbn [length];
    rewrite IH by (intros u w Hin; apply (H u w); now right); reflexivity.
Qed.

End DiscoveryMore.

Section DiscoveryProperties.

Import Processor.

(** X14: [check_valid_annotation_file] on a JSON object returns; the
    object is valid exactly when it holds the four keys project, attribute,
    file and metadata; the dictionary returned with a valid object is the
    object restricted to the keys project and file, and it is empty for an
    object that is not valid. *)
Theorem valid_annotation_keeps_project_and_file : forall dict_to_check,
  exists is_valid return_dict,
    check_valid_annotation_file (Some (JObj dict_to_check))
    = Ok (is_valid, return_dict)
    /\ (is_valid = true <->
        forall k, In k required_keys -> PyDict.get k dict_to_check <> None)
    /\ (is_valid = false -> return_dict = [])
    /\ (is_valid = true ->
        forall k,
          PyDict.get k return_dict
          = if (String.eqb k "project" || String.eqb k "file")%bool
            then PyDict.get k dict_to_check
            else None).
Proof.
  intros d. cbn [check_valid_annotation_file].
  set (is_valid := forallb (fun k => PyDict.mem k d) required_keys).
  exists is_valid.
  eexists. split; [reflexivity|]. split; [|split].
  - subst is_valid. rewrite forallb_forall. unfold PyDict.mem.
    split; intros H k Hk; specialize (H k Hk);
      destruct (PyDict.get k d); congruence.
  - intros ->. reflexivity.
  - intros -> k.
    rewrite (pydict_get_filter
               (fun k => existsb (String.eqb k) ["project"; "file"]) k d).
    cbn [existsb]. rewrite orb_false_r. reflexivity.
Qed.

(** X15: one [.json] file under the data root that does not hold JSON makes
    [discover_files] raise, wherever the file lies in the walk and whatever
    the other files hold: the run does not skip it. *)
Theorem corrupt_annotation_aborts_discovery : forall fs item s,
  In (item, File None) fs ->
  suffix item = ".json" ->
  exists e s', discover_files fs s = (Raise e, s').
Proof.
  intros fs item s Hin Hsuf.
  destruct (discover_files fs s) as [[[]|e] s'] eqn:E; [|eauto].
  exfalso. apply discover_files_inv in E. destruct E as (counts & s1 & Hloop & _).
  destruct (discover_loop_steps _ _ _ _ _ _ Hloop _ Hin) as (c0 & s0 & c1 & s2 & Hstep).
  rewrite discover_item_corrupt in Hstep by exact Hsuf. discriminate.
Qed.

Lemma corrupt_annotation_aborts_discovery_witness :
  exists e s', discover_files tree_corrupt new_processor = (Raise e, s').
Proof.
  apply (corrupt_annotation_aborts_discovery tree_corrupt ["data"; "bad.json"]).
  - left. reflexivity.
  - reflexivity.
Defined.

(** X16: when [discover_files] returns, the registry holds one entry per
    identifier and no entry has a clip index, whatever the processor held
    before the call. *)
Theorem discovery_leaves_fresh_registry : forall fs s s',
  discover_files fs s = (Ok tt, s') -> fresh_registry s'.
Proof.
  intros fs s s' H. apply discover_files_inv in H.
  destruct H as (counts & s1 & Hloop & Hv).
  assert (F : fresh_registry s1).
  { eapply discover_loop_fresh; [exact Hloop|].
    split; [constructor | intros uid v []]. }
  destruct F as [F1 F2]. split; rewrite Hv; assumption.
Qed.

Lemma discovery_leaves_fresh_registry_witness :
  fresh_registry (snd (discover_files tree_two new_processor)).
Proof.
  apply (discovery_leaves_fresh_registry tree_two new_processor).
  vm_compute. reflexivity.
Defined.

(** X17: [discover_files] returns whenever every [.json] file of the tree
    holds a JSON object that lacks one of the four sections or declares a
    project identifier and a recording name, both strings. *)
Theorem discovery_returns_on_readable_files : forall fs s,
  (forall item content, In (item, File content) fs ->
     suffix item = ".json" -> readable content) ->
  exists s', discover_files fs s = (Ok tt, s').
Proof.
  intros fs s H.
  destruct (discover_loop_total fs fs H (0%nat, 0%nat) (set_videos [] s))
    as (c & s1 & Hloop).
  unfold discover_files, bind, log, modify, gets. rewrite Hloop.
  eexists. reflexivity.
Qed.

Lemma discovery_returns_on_readable_files_witness :
  exists s', discover_files tree_same_project new_processor = (Ok tt, s').
Proof.
  apply (discovery_returns_on_readable_files tree_same_project new_processor).
  intros item content Hin Hsuf.
  destruct Hin as [Hin|[Hin|[Hin|[Hin|[]]]]]; try discriminate;
    injection Hin as <- <-; exists true; eexists;
    (split; [reflexivity|]); intros _.
  - exists "u", "first.mp4". eexists. repeat split; reflexivity.
  - exists "u", "second.mp4". eexists. repeat split; reflexivity.
Defined.

(** X18: two annotation files that declare the same project identifier
    give one registry entry, the one of the file met last in the walk: the
    entry of the earlier file is replaced without a warning. *)
Theorem last_discovery_wins : forall fs s s' pre post item content uid fname,
  discover_files fs s = (Ok tt, s') ->
  fs = pre ++ (item, File content) :: post ->
  suffix item = ".json" ->
  declares content uid fname ->
  is_dir fs (Utils.parent item ++ [stem item]) = true ->
  (forall it, In it post -> ~ pairs_with fs it uid) ->
  PyDict.get uid (videos s') = Some (entry_of item fname).
Proof.
  intros fs s s' pre post item content uid fname H Hfs Hsuf Hdec Hdir Hno.
  apply discover_files_inv in H. destruct H as (counts & s1 & Hloop & ->).
  remember (set_videos [] s) as s0 eqn:Es0. clear Es0.
  assert (Hl : discover_loop fs (pre ++ (item, File content) :: post) (0%nat, 0%nat) s0
               = (Ok counts, s1)) by (rewrite <- Hfs; exact Hloop).
  clear Hloop. rename Hl into Hloop.
  apply discover_loop_app in Hloop. destruct Hloop as (c1 & s2 & _ & Hloop).
  simpl in Hloop. apply bind_inv in Hloop.
  destruct Hloop as (c2 & s3 & Hitem & Hrest).
  rewrite (discover_loop_keeps fs uid _ _ _ _ _ Hno Hrest).
  rewrite (discover_item_declared fs c1 item content uid fname s2 Hsuf Hdec), Hdir
    in Hitem.
  injection Hitem as _ <-. cbn [videos set_videos]. apply pydict_get_set_same.
Qed.

Lemma last_discovery_wins_witness :
  PyDict.get "u"
    (videos (snd (discover_files tree_same_project new_processor)))
  = Some (entry_of ["data"; "y.json"] "second.mp4").
Proof.
  apply (last_discovery_wins tree_same_project new_processor
           (snd (discover_files tree_same_project new_processor))
           [(["data"; "x.json"],
             File (Some (annotation_json "u" "first.mp4" doc_walk)));
            (["data"; "x"], Dir)]
           [(["data"; "y"], Dir)]
           ["data"; "y.json"]
           (Some (annotation_json "u" "second.mp4" doc_walk))).
  - vm_compute. reflexivity.
  - reflexivity.
  - reflexivity.
  - eexists. repeat split; reflexivity.
  - reflexivity.
  - intros it [<-|[]] (content & return_dict & Hn & _). discriminate.
Defined.

(** X19: the message [discover_files] logs last reports the number of
    files and the number of directories of the tree, whatever their names,
    and as number of annotated videos the number of registry entries whose
    declared recording name ends in [.mp4], whether or not such a file
    exists. *)
Theorem discovery_reports_counts : forall fs s s',
  discover_files fs s = (Ok tt, s') ->
  exists evs,
    events s'
    = evs ++ [Info_found (length (filter declares_mp4 (videos s')))
                (length (filter is_file_node fs))
                (length (filter is_dir_node fs))].
Proof.
  intros fs s s' H. unfold discover_files in H.
  apply bind_inv in H. destruct H as ([] & s0 & Hm & H). injection Hm as <-.
  apply bind_inv in H. destruct H as (counts & s2 & Hloop & H).
  apply bind_inv in H. destruct H as (vs & s3 & Hg & H). injection Hg as <- <-.
  injection H as <-.
  pose proof (discover_loop_counts _ _ _ _ _ _ Hloop) as Hc.
  assert (Hf : from_annotations s2).
  { eapply discover_loop_from_annotations; [exact Hloop|]. intros uid v []. }
  exists (events s2). cbn [events videos add_event]. do 2 f_equal.
  rewrite (mp4_paths_count (videos s2) Hf). subst counts. cbn [fst snd].
  reflexivity.
Qed.

Lemma discovery_reports_counts_witness :
  exists evs,
    events (snd (discover_files tree_two new_processor))
    = evs ++ [Info_found
                (length (filter declares_mp4
                           (videos (snd (discover_files tree_two new_processor)))))
                (length (filter is_file_node tree_two))
                (length (filter is_dir_node tree_two))].
Proof.
  apply (discovery_reports_counts tree_two new_processor).
  vm_compute. reflexivity.
Defined.

End DiscoveryProperties.

(** ** Parsing the registry ([get_annotations]) *)

Section AnnotationsFacts.

Import Processor.

Variable py_repr : json -> string.
Variable load : path -> Reader.annotation_document.

Lemma pydict_get_fold_set {V} (f : string -> V) k : forall ks d,
  PyDict.get k (fold_left (fun a x => PyDict.set x (f x) a) ks d)
  = if existsb (String.eqb k) ks then Some (f k) else PyDict.get k d.
Proof.
  induction ks as [|x ks IH]; intros d; [reflexivity|].
  cbn [fold_left existsb]. rewrite IH.
  destruct (existsb (String.eqb k) ks).
  - now rewrite orb_true_r.
  - rewrite orb_false_r. destruct (String.eqb k x) eqn:E.
    + apply String.eqb_eq in E. subst. apply pydict_get_set_same.
    + apply String.eqb_neq in E. now apply pydict_get_set_other.
Qed.

Lemma pydict_keys_fold_set {V} (f : string -> V) : forall ks d,
  (forall k, In k ks -> In k (PyDict.keys d)) ->
  PyDict.keys (fold_left (fun a x => PyDict.set x (f x) a) ks d) = PyDict.keys d.
Proof.
  induction ks as [|x ks IH]; intros d H; [reflexivity|].
  cbn [fold_left]. rewrite IH.
  - apply pydict_keys_set_present. apply H. now left.
  - intros k Hk. rewrite pydict_keys_set_present; apply H; [now right|now left].
Qed.

Lemma pydict_get_map_values {V W} (f : V -> W) k (d : PyDict.t V) :
  PyDict.get k (map (fun kv => (fst kv, f (snd kv))) d)
  = option_map f (PyDict.get k d).
Proof.
  induction d as [|[k' v'] d IH]; simpl; [reflexivity|].
  destruct (String.eqb k k'); auto.
Qed.

Lemma existsb_eqb_keys {V} k (d : PyDict.t V) :
  existsb (String.eqb k) (PyDict.keys d)
  = match PyDict.get k d with Some _ => true | None => false end.
Proof.
  induction d as [|[k' v'] d IH]; simpl; [reflexivity|].
  destruct (String.eqb k k'); [reflexivity|exact IH].
Qed.

Lemma bind_run {A B} (m : M A) (f : A -> M B) s a s1 r :
  m s = (Ok a, s1) -> f a s1 = r -> bind m f s = r.
Proof.
  intros H1 H2. unfold bind. rewrite H1. exact H2.
Qed.

Lemma for_each_cons_run {A} (x : A) l body s s1 r :
  body x s = (Ok tt, s1) ->
  for_each l body s1 = r ->
  for_each (x :: l) body s = r.
Proof.
  intros H1 H2. cbn [for_each]. unfold bind. rewrite H1. exact H2.
Qed.

Lemma get_annotations_step vs k v s :
  PyDict.get k vs = Some v ->
  (v <- getitem k vs ;;
   let annotation_reader := Reader.init (annotation_path v) in
   let parsed :=
     fst (Reader.extract_annotations py_repr annotation_reader
            (load (annotation_path v))) in
   modify (fun s =>
     set_annotations
       (PyDict.set k (Reader.action_dict parsed) (annotations s)) s)) s
  = (Ok tt,
     set_annotations
       (PyDict.set k (parsed_of py_repr load v) (annotations s)) s).
Proof.
  intros Hg. unfold bind, getitem. rewrite Hg. reflexivity.
Qed.

Lemma get_annotations_loop vs : forall ks s,
  (forall k, In k ks -> In k (PyDict.keys vs)) ->
  exists s',
    for_each ks (fun video =>
      v <- getitem video vs ;;
      let annotation_reader := Reader.init (annotation_path v) in
      let parsed :=
        fst (Reader.extract_annotations py_repr annotation_reader
               (load (annotation_path v))) in
      modify (fun s =>
        set_annotations
          (PyDict.set video (Reader.action_dict parsed) (annotations s)) s)) s
    = (Ok tt, s')
    /\ videos s' = videos s /\ stats_dict s' = stats_dict s
    /\ events s' = events s
    /\ annotations s'
       = fold_left (fun a k => PyDict.set k (parsed_at py_repr load vs k) a)
           ks (annotations s).
Proof.
  induction ks as [|k ks IH]; intros s H.
  - exists s. repeat split; reflexivity.
  - assert (Hk : PyDict.get k vs <> None)
      by (apply pydict_get_keys, H; now left).
    destruct (PyDict.get k vs) as [v|] eqn:Hg; [clear Hk|congruence].
    destruct (IH (set_annotations
                    (PyDict.set k (parsed_of py_repr load v) (annotations s)) s))
      as (s' & Hrun & Hv & Hst & He & Ha); [intros; apply H; now right|].
    exists s'. split.
    { eapply for_each_cons_run;
        [exact (get_annotations_step vs k v s Hg)|exact Hrun]. }
    repeat split; try assumption.
    rewrite Ha. cbn [fold_left annotations set_annotations].
    unfold parsed_at. rewrite Hg. reflexivity.
Qed.

(** The mapping [get_annotations] builds: every key of the registry is
    first given an empty mapping, then the result of its parse. *)
Lemma get_annotations_run s :
  exists s',
    get_annotations py_repr load s = (Ok tt, s')
    /\ videos s' = videos s
    /\ stats_dict s' = stats_dict s
    /\ annotations s'
       = fold_left
           (fun a k => PyDict.set k (parsed_at py_repr load (videos s) k) a)
           (PyDict.keys (videos s))
           (map (fun kv => (fst kv, PyDict.empty)) (videos s)).
Proof.
  destruct (get_annotations_loop (videos s) (PyDict.keys (videos s))
              (set_annotations (map (fun kv => (fst kv, PyDict.empty)) (videos s)) s))
    as (s1 & Hrun & Hv & Hst & He & Ha); [auto|].
  eexists. split.
  { unfold get_annotations.
    eapply bind_run; [reflexivity|].
    eapply bind_run; [reflexivity|].
    eapply bind_run; [exact Hrun|].
    eapply bind_run; reflexivity. }
  cbn [videos stats_dict annotations add_event].
  repeat split; assumption.
Qed.

Lemma annotations_fold_keys (vs : PyDict.t video) :
  PyDict.keys
    (fold_left (fun a k => PyDict.set k (parsed_at py_repr load vs k) a)
       (PyDict.keys vs)
       (map (fun kv => (fst kv, PyDict.empty)) vs))
  = PyDict.keys vs.
Proof.
  assert (Hkeys : PyDict.keys
            (map (fun kv : string * video =>
                    (fst kv, @PyDict.empty (list Reader.interval))) vs)
          = PyDict.keys vs).
  { unfold PyDict.keys. rewrite map_map. reflexivity. }
  rewrite pydict_keys_fold_set; [exact Hkeys|].
  intros k Hk. now rewrite Hkeys.
Qed.

Lemma annotations_fold_get (vs : PyDict.t video) uid :
  PyDict.get uid
    (fold_left (fun a k => PyDict.set k (parsed_at py_repr load vs k) a)
       (PyDict.keys vs)
       (map (fun kv => (fst kv, PyDict.empty)) vs))
  = option_map (parsed_of py_repr load) (PyDict.get uid vs).
Proof.
  rewrite pydict_get_fold_set, existsb_eqb_keys. unfold parsed_at.
  destruct (PyDict.get uid vs) as [v|] eqn:G; [reflexivity|].
  change (fun kv : string * video => (fst kv, @PyDict.empty (list Reader.interval)))
    with (fun kv : string * video =>
            (fst kv, (fun _ : video => @PyDict.empty (list Reader.interval)) (snd kv))).
  rewrite pydict_get_map_values, G. reflexivity.
Qed.

Lemma get_annotations_events s s' :
  get_annotations py_repr load s = (Ok tt, s') ->
  events s'
  = events s
      ++ [Info_parsed
            (length (flat_map (fun kv => flat_map snd (snd kv)) (annotations s')))
            (length (nodup string_dec
                       (flat_map (fun kv => PyDict.keys (snd kv))
                          (annotations s'))))].
Proof.
  intros H. unfold get_annotations in H.
  apply bind_inv in H. destruct H as (vs & s0 & Hg & H). injection Hg as <- <-.
  apply bind_inv in H. destruct H as ([] & s1 & Hm & H). injection Hm as <-.
  apply bind_inv in H. destruct H as ([] & s2 & Hloop & H).
  apply bind_inv in H. destruct H as (a & s3 & Hg & H). injection Hg as <- <-.
  injection H as <-. cbn [events annotations add_event]. f_equal.
  revert Hloop.
  apply (for_each_inv (fun s1 => events s1 = events s)); [|reflexivity].
  intros k sa sb _ He Hbody.
  apply bind_inv in Hbody. destruct Hbody as (v & s4 & Hv & Hbody).
  apply getitem_inv in Hv. destruct Hv as [_ ->].
  injection Hbody as <-. exact He.
Qed.

Lemma annotations_fold_entries (vs : PyDict.t video) :
  NoDup (PyDict.keys vs) ->
  fold_left (fun a k => PyDict.set k (parsed_at py_repr load vs k) a)
    (PyDict.keys vs)
    (map (fun kv => (fst kv, PyDict.empty)) vs)
  = map (fun kv => (fst kv, parsed_of py_repr load (snd kv))) vs.
Proof.
  intros Hnd.
  assert (Hkeys : PyDict.keys
            (map (fun kv : string * video =>
                    (fst kv, parsed_of py_repr load (snd kv))) vs)
          = PyDict.keys vs).
  { unfold PyDict.keys. rewrite map_map. reflexivity. }
  apply pydict_ext.
  - rewrite annotations_fold_keys. exact Hnd.
  - rewrite annotations_fold_keys, Hkeys. reflexivity.
  - intros k. rewrite annotations_fold_get.
    now rewrite (pydict_get_map_values (parsed_of py_repr load)).
Qed.

Lemma parsed_of_total v :
  length (flat_map snd (parsed_of py_repr load v))
  = snd (Reader.extract_annotations py_repr (Reader.init (annotation_path v))
           (load (annotation_path v))).
Proof.
  unfold parsed_of, Reader.extract_annotations.
  pose proof (record_loop_count py_repr
                (Reader.attribute_1_options (load (annotation_path v)))
                (map snd (Reader.metadata (load (annotation_path v))))
                (Reader.action_dict (Reader.init (annotation_path v))) 0) as Hc.
  pose proof (record_loop_total py_repr
                (Reader.attribute_1_options (load (annotation_path v)))
                (map snd (Reader.metadata (load (annotation_path v))))
                (Reader.action_dict (Reader.init (annotation_path v))) 0) as Ht.
  destruct (Reader.record_loop _ _ _ _) as [d n].
  cbn [fst snd Reader.action_dict] in *. rewrite Ht, Hc. reflexivity.
Qed.

End AnnotationsFacts.

Section AnnotationsProperties.

Import Processor.

(** X20: [get_annotations] returns, for annotation files of the shape the
    reader expects; it leaves the registry and the stats as they are; the
    annotations get the keys of the registry, in its order, and hold for
    every identifier the mapping a fresh reader returns for its annotation
    file, whatever the annotations held before. *)
Theorem get_annotations_parses_registry : forall py_repr load s,
  exists s',
    get_annotations py_repr load s = (Ok tt, s')
    /\ videos s' = videos s
    /\ stats_dict s' = stats_dict s
    /\ PyDict.keys (annotations s') = PyDict.keys (videos s)
    /\ forall uid,
         PyDict.get uid (annotations s')
         = option_map (parsed_of py_repr load) (PyDict.get uid (videos s)).
Proof.
  intros py_repr load s.
  destruct (get_annotations_run py_repr load s) as (s' & Hrun & Hv & Hst & Ha).
  exists s'. repeat split; try assumption.
  - rewrite Ha. apply annotations_fold_keys.
  - intros uid. rewrite Ha. apply annotations_fold_get.
Qed.

(** X21: the total [get_annotations] logs after parsing is the sum, over
    the registry, of the numbers of actions the readers counted: the number
    of records, over all registered annotation files, whose time field has
    exactly two values. *)
Theorem parsed_total_sums_reader_counts : forall py_repr load s s',
  NoDup (PyDict.keys (videos s)) ->
  get_annotations py_repr load s = (Ok tt, s') ->
  exists unique_actions,
    events s'
    = events s
        ++ [Info_parsed
              (list_sum
                 (map (fun kv =>
                         snd (Reader.extract_annotations py_repr
                                (Reader.init (annotation_path (snd kv)))
                                (load (annotation_path (snd kv)))))
                    (videos s)))
              unique_actions].
Proof.
  intros py_repr load s s' Hnd Hrun.
  pose proof (get_annotations_events py_repr load s s' Hrun) as He.
  destruct (get_annotations_run py_repr load s) as (s2 & Hrun2 & _ & _ & Ha).
  rewrite Hrun in Hrun2. injection Hrun2 as <-.
  rewrite (annotations_fold_entries py_repr load (videos s) Hnd) in Ha.
  eexists. rewrite He. do 3 f_equal. rewrite Ha.
  clear. induction (videos s) as [|[k v] vs IH]; [reflexivity|].
  cbn [map flat_map list_sum fst snd]. rewrite length_app, IH.
  now rewrite parsed_of_total.
Qed.

Lemma parsed_total_sums_reader_counts_witness :
  exists unique_actions,
    events (snd (get_annotations no_repr (fun _ => doc_walk) parsed_two))
    = events parsed_two
        ++ [Info_parsed
              (list_sum
                 (map (fun kv =>
                         snd (Reader.extract_annotations no_repr
                                (Reader.init (annotation_path (snd kv)))
                                doc_walk))
                    (videos parsed_two)))
              unique_actions].
Proof.
  apply (parsed_total_sums_reader_counts no_repr (fun _ => doc_walk) parsed_two
           (snd (get_annotations no_repr (fun _ => doc_walk) parsed_two))).
  - repeat constructor; simpl; intuition discriminate.
  - vm_compute. reflexivity.
Defined.

End AnnotationsProperties.

(** ** Clips, manifest and mapping, interval by interval *)

Section WriterFacts.

Import Processor.

Lemma clip_records_raises : forall vs e,
  clip_records vs = Raise e ->
  e = KeyError "clips" /\ exists uid v, In (uid, v) vs /\ clips v = None.
Proof.
  induction vs as [|[uid v] vs IH]; intros e H; [discriminate|].
  cbn [clip_records] in H. destruct (clips v) as [cl|] eqn:Hc.
  - destruct (clip_records vs) as [tl|e'] eqn:Hr; [discriminate|].
    cbn [bind_result] in H. injection H as <-.
    destruct (IH e' eq_refl) as (-> & u & w & Hin & Hw).
    split; [reflexivity|]. exists u, w. split; [now right|exact Hw].
  - injection H as <-. split; [reflexivity|].
    exists uid, v. split; [now left|exact Hc].
Qed.

Lemma clip_records_returns : forall vs recs,
  clip_records vs = Ok recs ->
  (forall uid v, In (uid, v) vs -> clips v <> None)
  /\ length recs = list_sum (map (fun kv => clip_total (snd kv)) vs).
Proof.
  induction vs as [|[uid v] vs IH]; intros recs H.
  - injection H as <-. split; [intros ? ? []|reflexivity].
  - cbn [clip_records] in H. destruct (clips v) as [cl|] eqn:Hc; [|discriminate].
    destruct (clip_records vs) as [tl|e'] eqn:Hr; [|discriminate].
    cbn [bind_result] in H. injection H as <-.
    destruct (IH tl eq_refl) as [Hall Hlen]. split.
    + intros u w [[= <- <-]|Hin]; [congruence|eauto].
    + rewrite length_app, Hlen.
      change (list_sum (map (fun kv => clip_total (snd kv)) ((uid, v) :: vs)))
        with (clip_total v + list_sum (map (fun kv => clip_total (snd kv)) vs))%nat.
      f_equal. unfold clip_total. rewrite Hc.
      clear. induction cl as [|[k l] cl IHc]; [reflexivity|].
      cbn [flat_map fst snd]. rewrite !length_app, length_map, IHc. reflexivity.
Qed.

Lemma fold_set_combine {V} (f : string -> V) : forall ks d,
  fold_left (fun a kv => PyDict.set (fst kv) (snd kv) a)
    (combine ks (map f ks)) d
  = fold_left (fun a k => PyDict.set k (f k) a) ks d.
Proof.
  induction ks as [|k ks IH]; intros d; [reflexivity|].
  cbn [map combine fold_left fst snd]. apply IH.
Qed.

Lemma pydict_keys_fold_fresh {V} (f : string -> V) : forall ks d,
  NoDup (PyDict.keys d ++ ks) ->
  PyDict.keys (fold_left (fun a k => PyDict.set k (f k) a) ks d)
  = PyDict.keys d ++ ks.
Proof.
  induction ks as [|k ks IH]; intros d H; [now rewrite app_nil_r|].
  cbn [fold_left].
  assert (Hk : ~ In k (PyDict.keys d)).
  { apply NoDup_remove_2 in H. rewrite in_app_iff in H. tauto. }
  rewrite IH; rewrite pydict_keys_set_absent by exact Hk.
  - now rewrite <- app_assoc.
  - rewrite <- app_assoc. exact H.
Qed.

End WriterFacts.

Section ClipNameFacts.

Import Processor.
Local Open Scope Q_scope.

Variable args : VideoProcessorSettings.

(** A clip whose name is one path component is written under that name. *)
Lemma output_path_of_name v filename out :
  output_path_of args v filename = Ok out ->
  Utils.parts filename = [filename] ->
  Utils.rooted [filename] = false ->
  name out = filename.
Proof.
  intros H Hp Hr. revert H.
  unfold output_path_of, Utils.construct_preserved_output_path, name.
  destruct (preserve_folder_structure args).
  - destruct (Utils.relative_to (video_path v) (data_path args)); [|discriminate].
    intros [= <-]. rewrite Hp. unfold Utils.joinpath at 1. rewrite Hr.
    apply last_last.
  - intros [= <-]. rewrite Hp. unfold Utils.joinpath. rewrite Hr.
    apply last_last.
Qed.

Lemma written_at_names v names outs :
  written_at args v names outs ->
  (forall filename, In filename names ->
     Utils.parts filename = [filename] /\ Utils.rooted [filename] = false) ->
  map name outs = names.
Proof.
  induction 1 as [|filename out names outs Ho _ IH]; intros Hall; [reflexivity|].
  cbn [map]. f_equal.
  - destruct (Hall filename (or_introl eq_refl)) as [Hp Hr].
    exact (output_path_of_name v filename out Ho Hp Hr).
  - apply IH. intros f Hf. apply Hall. now right.
Qed.

Lemma clips_at_append action filename cl :
  clips_at action (append_clip action filename cl)
  = clips_at action cl ++ [filename].
Proof.
  unfold clips_at, append_clip.
  destruct (PyDict.get action cl) as [l|] eqn:G;
    rewrite pydict_get_set_same; reflexivity.
Qed.

Lemma clips_at_append_other a action filename cl :
  a <> action ->
  PyDict.get a (append_clip action filename cl) = PyDict.get a cl.
Proof.
  intros H. unfold append_clip.
  destruct (PyDict.get action cl); now apply pydict_get_set_other.
Qed.





Lemma written_files_add e evs :
  written_files (evs ++ [e])
  = written_files evs
      ++ match e with
         | Write_videofile _ _ _ out _ _ => [out]
         | _ => []
         end.
Proof.
  unfold written_files. rewrite flat_map_app.
  cbn [flat_map]. destruct e; cbn [app]; now rewrite ?app_nil_r.
Qed.

Lemma chunk_body_inv_out uid action t chunk s v cl i t' s' :
  PyDict.get uid (videos s) = Some v ->
  clips v = Some cl ->
  PyDict.get action (action_tracker_per_video s) = Some i ->
  chunk_body args uid action t chunk s = (Ok t', s') ->
  exists out,
    output_path_of args v (Utils.construct_video_filename uid action i chunk)
    = Ok out
    /\ s' = set_videos
              (PyDict.set uid
                 {| annotation_path := annotation_path v;
                    video_path := video_path v;
                    clips := Some (append_clip action
                              (Utils.construct_video_filename uid action i chunk) cl) |}
                 (videos s))
              (add_event
                 (Write_videofile (video_path v) t (t + clip_length args)
                    out (clip_fps args) (codec args))
                 (add_event (Mkdir (Utils.parent out))
                    (set_loc_output_path (Some out) s))).
Proof.
  intros Hv Hcl Hi Hrun.
  destruct (output_path_of args v
              (Utils.construct_video_filename uid action i chunk)) as [out|e] eqn:Ho.
  - rewrite (chunk_body_run args uid action t chunk s v cl i out Hv Hcl Hi Ho) in Hrun.
    injection Hrun as _ <-. eauto.
  - exfalso. revert Hrun.
    unfold chunk_body, log, bind, gets, getitem, lift, modify, ret.
    cbv beta iota. rewrite Hv. cbv beta iota. rewrite Hi. cbv beta iota.
    rewrite Ho. discriminate.
Qed.

(** The loop over the chunks of an interval, when it returns: one file per
    chunk index, named by it, and the same names appended to the list of
    the label. *)
Lemma chunk_loop_writes uid action i : forall chunks t s t' s' v cl,
  PyDict.get uid (videos s) = Some v ->
  clips v = Some cl ->
  PyDict.get action (action_tracker_per_video s) = Some i ->
  chunk_loop args uid action chunks t s = (Ok t', s') ->
  exists v' cl' outs,
    written_files (events s') = written_files (events s) ++ outs
    /\ written_at args v
         (map (Utils.construct_video_filename uid action i) chunks) outs
    /\ PyDict.get uid (videos s') = Some v'
    /\ video_path v' = video_path v
    /\ clips v' = Some cl'
    /\ clips_at action cl'
       = clips_at action cl
           ++ map (Utils.construct_video_filename uid action i) chunks
    /\ (forall a, a <> action -> PyDict.get a cl' = PyDict.get a cl)
    /\ action_tracker_per_video s' = action_tracker_per_video s
    /\ n_chunks s' = n_chunks s.
Proof.
  induction chunks as [|chunk chunks IH]; intros t s t' s' v cl Hv Hcl Hi Hrun.
  - injection Hrun as _ <-. exists v, cl, []. cbn [map]. rewrite !app_nil_r.
    repeat split; auto. constructor.
  - cbn [chunk_loop] in Hrun. apply bind_inv in Hrun.
    destruct Hrun as (t1 & s1 & Hbody & Hrest).
    destruct (chunk_body_inv_out uid action t chunk s v cl i t1 s1 Hv Hcl Hi Hbody)
      as (out & Ho & Hs1).
    set (filename := Utils.construct_video_filename uid action i chunk) in *.
    set (v1 := {| annotation_path := annotation_path v;
                  video_path := video_path v;
                  clips := Some (append_clip action filename cl) |}) in *.
    assert (Hv1 : PyDict.get uid (videos s1) = Some v1)
      by (subst s1; cbn [videos set_videos]; apply pydict_get_set_same).
    assert (Hi1 : PyDict.get action (action_tracker_per_video s1) = Some i)
      by (subst s1; exact Hi).
    destruct (IH t1 s1 t' s' v1 _ Hv1 eq_refl Hi1 Hrest)
      as (v' & cl' & outs & Hw & Hat & Hv' & Hvp & Hcl' & Hidx & Hoth & Htr & Hn).
    exists v', cl', (out :: outs).
    split; [|split; [|split; [exact Hv'|split; [exact Hvp|split; [exact Hcl'|]]]]].
    + rewrite Hw. subst s1.
      cbn [events set_videos add_event set_loc_output_path].
      rewrite !written_files_add, app_nil_r, <- app_assoc. reflexivity.
    + cbn [map]. constructor; [exact Ho|exact Hat].
    + split; [|split; [|split]].
      * rewrite Hidx, clips_at_append. cbn [map]. fold filename.
        rewrite <- app_assoc. reflexivity.
      * intros a Ha. rewrite (Hoth a Ha). now apply clips_at_append_other.
      * rewrite Htr. subst s1. reflexivity.
      * rewrite Hn. subst s1. reflexivity.
Qed.


Lemma segment_body_zero uid action t_segment s r s' :
  clip_length args == 0 ->
  segment_body args uid action t_segment s = (r, s') ->
  r = Raise ZeroDivisionError.
Proof.
  intros Hz. apply Qeq_bool_iff in Hz.
  unfold segment_body, log, bind, gets, modify, ret, floor_div, raise.
  cbv beta iota. rewrite Hz.
  destruct (negb (Qle_bool (clip_length args) (snd t_segment - fst t_segment)));
    cbv beta iota; now intros [= <- _].
Qed.

(** An interval that is processed to its end went through the loop over
    its chunks, from the state [before_chunks] and for the chunk indices
    below the count it left in [n_chunks]. *)
Lemma segment_body_inv_loop uid action t_segment s s' :
  segment_body args uid action t_segment s = (Ok tt, s') ->
  exists n t t' s4,
    chunk_loop args uid action (range n) t
      (before_chunks args uid action t_segment s) = (Ok t', s4)
    /\ n_chunks (before_chunks args uid action t_segment s) = Some n
    /\ s' = set_stats_dict (stats_after action n (stats_dict s4)) s4.
Proof.
  intros Hrun.
  destruct (Qeq_dec (clip_length args) 0) as [Hz|Hnz].
  { apply (segment_body_zero _ _ _ _ _ _ Hz) in Hrun. discriminate. }
  rewrite segment_body_unfold in Hrun by exact Hnz. cbv zeta in Hrun.
  match type of Hrun with
  | context [chunk_loop args uid action (range ?n) ?t ?s3] =>
      destruct (chunk_loop args uid action (range n) t s3) as [[t'|e] s4] eqn:Hloop;
        [exists n, t, t', s4|discriminate]
  end.
  injection Hrun as <-. split; [exact Hloop|]. split; [|reflexivity].
  unfold before_chunks. reflexivity.
Qed.

Lemma before_chunks_same uid action t_segment s :
  videos (before_chunks args uid action t_segment s) = videos s
  /\ annotations (before_chunks args uid action t_segment s) = annotations s
  /\ written_files (events (before_chunks args uid action t_segment s))
     = written_files (events s)
  /\ PyDict.get action
       (action_tracker_per_video (before_chunks args uid action t_segment s))
     = Some match PyDict.get action (action_tracker_per_video s) with
            | Some i => S i
            | None => 0%nat
            end.
Proof.
  unfold before_chunks.
  destruct (negb (Qle_bool (clip_length args) (snd t_segment - fst t_segment)));
    cbn [videos annotations events action_tracker_per_video set_n_chunks
           add_event set_action_tracker];
    rewrite ?written_files_add, ?app_nil_r;
    (repeat split);
    destruct (PyDict.get action (action_tracker_per_video s));
    apply pydict_get_set_same.
Qed.











End ClipNameFacts.

Section MainFacts.

Import Processor.



End MainFacts.

Section RunProperties.

Import Processor.
Local Open Scope Q_scope.

(** X22: an interval of a registered recording whose clip index is
    initialised, once its body has run to its end.  The occurrence index
    of the label is 0 at its first interval in the recording and one more
    at each following one, whatever the number of chunks.  With [n] the
    number of chunks the body left in [n_chunks], the body wrote one file
    per chunk index 0, 1, ... below [n], in this order, each at the output
    path of the name [construct_video_filename] gives for that occurrence
    and chunk index; the same names are appended, in the same order, to
    the list of the label in the clip index, and the lists of the other
    labels are kept.  When neither the identifier nor the label holds a
    slash, each file bears its name. *)
Theorem interval_clip_names : forall args uid action t_segment s s' v cl,
  PyDict.get uid (videos s) = Some v ->
  clips v = Some cl ->
  segment_body args uid action t_segment s = (Ok tt, s') ->
  let action_index :=
    match PyDict.get action (action_tracker_per_video s) with
    | Some i => S i
    | None => 0%nat
    end in
  exists n outs v' cl',
    n_chunks s' = Some n
    /\ PyDict.get action (action_tracker_per_video s') = Some action_index
    /\ written_files (events s') = written_files (events s) ++ outs
    /\ written_at args v
         (map (Utils.construct_video_filename uid action action_index) (range n))
         outs
    /\ (Utils.slash_free uid = true -> Utils.slash_free action = true ->
        map name outs
        = map (Utils.construct_video_filename uid action action_index) (range n))
    /\ PyDict.get uid (videos s') = Some v'
    /\ clips v' = Some cl'
    /\ clips_at action cl'
       = clips_at action cl
           ++ map (Utils.construct_video_filename uid action action_index)
                (range n)
    /\ forall a, a <> action -> PyDict.get a cl' = PyDict.get a cl.
Proof.
  intros args uid action t_segment s s' v cl Hv Hcl Hrun action_index.
  destruct (segment_body_inv_loop args uid action t_segment s s' Hrun)
    as (n & t & t' & s4 & Hloop & Hn3 & ->).
  destruct (before_chunks_same args uid action t_segment s)
    as (Hvid3 & _ & Hw3 & Htr3).
  fold action_index in Htr3.
  set (s3 := before_chunks args uid action t_segment s) in *.
  assert (Hv3 : PyDict.get uid (videos s3) = Some v) by (now rewrite Hvid3).
  destruct (chunk_loop_writes args uid action action_index (range n) t s3 t' s4
              v cl Hv3 Hcl Htr3 Hloop)
    as (v' & cl' & outs & Hw & Hat & Hv' & _ & Hcl' & Hidx & Hoth & Htr & Hn).
  exists n, outs, v', cl'.
  cbn [n_chunks action_tracker_per_video events videos set_stats_dict].
  split; [now rewrite Hn|]. split; [now rewrite Htr|].
  split; [now rewrite Hw, Hw3|]. split; [exact Hat|].
  split; [|auto].
  intros Hu Ha. apply (written_at_names args v _ _ Hat).
  intros filename Hin. apply in_map_iff in Hin. destruct Hin as (c & <- & _).
  split.
  - now apply construct_video_filename_single.
  - apply rooted_single. now apply construct_video_filename_slash_free.
Qed.

Lemma interval_clip_names_witness :
  exists n outs v' cl',
    n_chunks (snd (segment_body args_default "u" "walk" (0, 9) state_in_video_u))
    = Some n
    /\ PyDict.get "walk"
         (action_tracker_per_video
            (snd (segment_body args_default "u" "walk" (0, 9) state_in_video_u)))
       = Some 0%nat
    /\ written_files
         (events (snd (segment_body args_default "u" "walk" (0, 9)
                         state_in_video_u)))
       = written_files (events state_in_video_u) ++ outs
    /\ written_at args_default
         {| annotation_path := ["data"; "u.json"];
            video_path := ["data"; "u"; "video.mp4"];
            clips := Some [] |}
         (map (Utils.construct_video_filename "u" "walk" 0) (range n)) outs
    /\ (Utils.slash_free "u" = true -> Utils.slash_free "walk" = true ->
        map name outs
        = map (Utils.construct_video_filename "u" "walk" 0) (range n))
    /\ PyDict.get "u"
         (videos (snd (segment_body args_default "u" "walk" (0, 9)
                         state_in_video_u)))
       = Some v'
    /\ clips v' = Some cl'
    /\ clips_at "walk" cl'
       = clips_at "walk" []
           ++ map (Utils.construct_video_filename "u" "walk" 0) (range n)
    /\ forall a, a <> "walk" -> PyDict.get a cl' = PyDict.get a [].
Proof.
  apply (interval_clip_names args_default "u" "walk" (0, 9) state_in_video_u
           (snd (segment_body args_default "u" "walk" (0, 9) state_in_video_u))
           {| annotation_path := ["data"; "u.json"];
              video_path := ["data"; "u"; "video.mp4"];
              clips := Some [] |} []).
  - reflexivity.
  - reflexivity.
  - vm_compute. reflexivity.
Defined.



(** X24: [create_jsonl_file] raises [KeyError] on the key clips exactly
    when some registry entry has no clip index (the state before
    [create_clips]); it returns exactly when every entry has one, and then
    writes one line per clip file of the registry. *)
Theorem manifest_needs_every_clip_index : forall video_key class_key vs,
  ((exists uid v, In (uid, v) vs /\ clips v = None) <->
   create_jsonl_file video_key class_key vs = Raise (KeyError "clips"))
  /\ ((forall uid v, In (uid, v) vs -> clips v <> None) <->
      exists lines,
        create_jsonl_file video_key class_key vs = Ok lines
        /\ length lines = list_sum (map (fun kv => clip_total (snd kv)) vs)).
Proof.
  intros video_key class_key vs. unfold create_jsonl_file.
  destruct (clip_records vs) as [recs|e] eqn:H; cbn [bind_result].
  - destruct (clip_records_returns vs recs H) as [Hall Hlen].
    split; split.
    + intros (uid & v & Hin & Hc). exfalso. exact (Hall uid v Hin Hc).
    + discriminate.
    + intros _. eexists. split; [reflexivity|]. now rewrite length_map.
    + intros _. exact Hall.
  - destruct (clip_records_raises vs e H) as (-> & uid & v & Hin & Hc).
    split; split.
    + reflexivity.
    + intros _. eauto.
    + intros Hall. exfalso. exact (Hall uid v Hin Hc).
    + intros (lines & Hl & _). discriminate.
Qed.

(** X25: the mapping file [save_file_mapping] writes holds, for every
    identifier of the registry and in its order, the folder of the
    recording: the sibling directory of the annotation file. *)
Theorem file_mapping_lists_recording_folders : forall vs,
  NoDup (PyDict.keys vs) ->
  save_file_mapping vs
  = map (fun kv => (fst kv, Utils.parent (video_path (snd kv)))) vs.
Proof.
  intros vs Hnd. unfold save_file_mapping.
  rewrite (fold_set_combine
             (fun uid => match PyDict.get uid vs with
                         | Some v => Utils.parent (video_path v)
                         | None => []
                         end)).
  assert (Hkeys : PyDict.keys
            (map (fun kv : string * video =>
                    (fst kv, Utils.parent (video_path (snd kv)))) vs)
          = PyDict.keys vs).
  { unfold PyDict.keys. rewrite map_map. reflexivity. }
  assert (Hk : PyDict.keys
            (fold_left (fun a k => PyDict.set k
                          match PyDict.get k vs with
                          | Some v => Utils.parent (video_path v)
                          | None => []
                          end a) (PyDict.keys vs) PyDict.empty)
          = PyDict.keys vs).
  { rewrite pydict_keys_fold_fresh; [reflexivity|exact Hnd]. }
  apply pydict_ext.
  - rewrite Hk. exact Hnd.
  - rewrite Hk, Hkeys. reflexivity.
  - intros k. rewrite pydict_get_fold_set.
    rewrite (pydict_get_map_values (fun v => Utils.parent (video_path v))).
    destruct (existsb (String.eqb k) (PyDict.keys vs)) eqn:E.
    + apply existsb_exists in E. destruct E as (k' & Hin & E).
      apply String.eqb_eq in E. subst k'. apply pydict_get_keys in Hin.
      destruct (PyDict.get k vs); [reflexivity|congruence].
    + destruct (PyDict.get k vs) eqn:G; [|reflexivity].
      exfalso. assert (Hin : In k (PyDict.keys vs))
        by (apply pydict_get_keys; congruence).
      assert (existsb (String.eqb k) (PyDict.keys vs) = true)
        by (apply existsb_exists; exists k; split; [assumption|apply String.eqb_refl]).
      congruence.
Qed.

Lemma file_mapping_lists_recording_folders_witness :
  save_file_mapping (videos parsed_two)
  = map (fun kv => (fst kv, Utils.parent (video_path (snd kv))))
      (videos parsed_two).
Proof.
  apply (file_mapping_lists_recording_folders (videos parsed_two)).
  repeat constructor; simpl; intuition discriminate.
Defined.





End RunProperties.
